(** * ai-dreaming2: the orchestration core, embedded from the Python sources

    The development follows [src/dreaming_ai.py] (single reasoning loop:
    interest scoring, short-term buffer, durable store) and
    [src/multi_agent_system.py] (turn-taking conversation engine).

    Conventions of the embedding.
    - A Python [str] is a [string]; the texts are taken to be ASCII, so
      [str.lower] is the ASCII lowering.
    - A Python [float] score is an exact rational of [Q]: the additions and
      products of the scorer are computed without rounding.
    - A Python [int] is a [Z]; a length or a count is a [nat].
    - What the program reads from its surroundings (the clock, the random
      generator, the answer of the inference backend) is an explicit
      argument of the function that reads it. *)

From Stdlib Require Import String Ascii List ZArith QArith Qminmax Lia Bool Arith.
From Stdlib Require Import DecimalString DecimalZ DecimalPos Sorted Permutation FinFun.
Import ListNotations.

Set Implicit Arguments.
Close Scope Q_scope.

(** ** Python built-ins used by the sources *)

Module Py.

Local Open Scope string_scope.

(** [c.lower()] on one ASCII character. *)
Definition lower_ascii (c : ascii) : ascii :=
  let n := nat_of_ascii c in
  if ((65 <=? n) && (n <=? 90))%nat then ascii_of_nat (n + 32) else c.

(** [s.lower()] *)
Fixpoint lower (s : string) : string :=
  match s with
  | EmptyString => EmptyString
  | String c s' => String (lower_ascii c) (lower s')
  end.

(** [c.upper()] on one ASCII character. *)
Definition upper_ascii (c : ascii) : ascii :=
  let n := nat_of_ascii c in
  if ((97 <=? n) && (n <=? 122))%nat then ascii_of_nat (n - 32) else c.

(** [s.upper()] *)
Fixpoint upper (s : string) : string :=
  match s with
  | EmptyString => EmptyString
  | String c s' => String (upper_ascii c) (upper s')
  end.

(** The line feed of a ["\n"] escape. *)
Definition nl : string := String (ascii_of_nat 10) EmptyString.

(** [sep.join(l)] *)
Fixpoint join (sep : string) (l : list string) : string :=
  match l with
  | [] => EmptyString
  | [s] => s
  | s :: l' => s ++ sep ++ join sep l'
  end.

(** [sub in s]: [sub] occurs in [s] as a contiguous substring. *)
Fixpoint contains (sub s : string) : bool :=
  prefix sub s ||
  match s with
  | EmptyString => false
  | String _ s' => contains sub s'
  end.

(** [c in s] for a one-character needle. *)
Fixpoint has_char (c : ascii) (s : string) : bool :=
  match s with
  | EmptyString => false
  | String d s' => Ascii.eqb d c || has_char c s'
  end.

(** [s.count(c)] for a one-character needle. *)
Fixpoint count (c : ascii) (s : string) : nat :=
  match s with
  | EmptyString => 0
  | String d s' => (if Ascii.eqb d c then 1 else 0) + count c s'
  end.

(** [len(s)] *)
Definition len (s : string) : nat := String.length s.

(** ASCII white space, as [str.strip()] removes it. *)
Definition isspace (c : ascii) : bool :=
  let n := nat_of_ascii c in
  ((9 <=? n) && (n <=? 13) || (28 <=? n) && (n <=? 32))%nat.

Fixpoint lstrip (s : string) : string :=
  match s with
  | EmptyString => EmptyString
  | String c s' => if isspace c then lstrip s' else s
  end.

Fixpoint rstrip (s : string) : string :=
  match s with
  | EmptyString => EmptyString
  | String c s' =>
      match rstrip s' with
      | EmptyString => if isspace c then EmptyString else String c EmptyString
      | r => String c r
      end
  end.

(** [s.strip()] *)
Definition strip (s : string) : string := rstrip (lstrip s).

(** Truth value of a string: [if s:] holds for a non-empty [s]. *)
Definition truthy (s : string) : bool :=
  match s with EmptyString => false | _ => true end.

(** [l[start:]] for a Python integer [start]: a negative index counts from
    the end, and the bounds are clipped to the list. *)
Definition slice_from {A} (start : Z) (l : list A) : list A :=
  let n := Z.of_nat (List.length l) in
  let lo := if (start <? 0)%Z then Z.max (n + start) 0 else Z.min start n in
  skipn (Z.to_nat lo) l.

(** [l[-1] if l else None] *)
Definition last_opt {A} (l : list A) : option A :=
  match rev l with
  | [] => None
  | x :: _ => Some x
  end.

(** [l.pop(0)], keeping the list that is left. *)
Definition pop0 {A} (l : list A) : list A := tl l.

(** [str(n)] for an integer, as an f-string renders it. *)
Definition str_of_int (n : Z) : string := NilZero.string_of_int (Z.to_int n).

(** Exceptions.  [KeyboardInterrupt] and [SystemExit] derive from
    [BaseException] only: an [except Exception] clause lets them through. *)
Inductive exn :=
| IndexError | KeyError | TypeError | AttributeError | ValueError
| ConnectionError | ReadTimeout | OtherException (name : string)
| KeyboardInterrupt | SystemExit.

Definition is_Exception (e : exn) : bool :=
  match e with
  | KeyboardInterrupt | SystemExit => false
  | _ => true
  end.

(** The outcome of evaluating an expression: a value, or a raised exception. *)
Inductive result (A : Type) :=
| Return (a : A)
| Raise (e : exn).
Arguments Return {A} a.
Arguments Raise {A} e.

Definition bind {A B} (r : result A) (k : A -> result B) : result B :=
  match r with
  | Return a => k a
  | Raise e => Raise e
  end.

(** [try: body  except Exception as e: handler(e)] *)
Definition try_except_Exception {A} (body : result A)
    (handler : exn -> result A) : result A :=
  match body with
  | Return a => Return a
  | Raise e => if is_Exception e then handler e else Raise e
  end.

(** How a loop is left, and in which state: the loop ended with a result, an
    exception that no clause caught went up to the caller, or the iterations
    granted were used up. *)
Inductive run (S A : Type) :=
| Finished (s : S) (a : A)
| Propagated (e : exn) (s : S)
| OutOfFuel (s : S).

Arguments Finished {S A} s a.
Arguments Propagated {S A} e s.
Arguments OutOfFuel {S A} s.

(** [random.choice(l)] with the generator's draw [r] made explicit; the
    empty sequence raises [IndexError]. *)
Definition choice {A} (r : nat) (l : list A) : result A :=
  match nth_error l (r mod List.length l) with
  | Some a => Return a
  | None => Raise IndexError
  end.

(** A [dict] with [str] keys: an association list in insertion order.
    Assigning to a key that is present keeps its position. *)
Definition dict (V : Type) := list (string * V).

Fixpoint get {V} (d : dict V) (k : string) : option V :=
  match d with
  | [] => None
  | (k', v) :: d' => if String.eqb k' k then Some v else get d' k
  end.

Fixpoint set {V} (d : dict V) (k : string) (v : V) : dict V :=
  match d with
  | [] => [(k, v)]
  | (k', v') :: d' =>
      if String.eqb k' k then (k', v) :: d' else (k', v') :: set d' k v
  end.

Definition values {V} (d : dict V) : list V := map snd d.

Definition mem {V} (d : dict V) (k : string) : bool :=
  match get d k with Some _ => true | None => false end.

(** A decoded JSON document. *)
#[warnings="-register-all"] Inductive Json :=
| JNull
| JBool (b : bool)
| JNum (q : Q)
| JStr (s : string)
| JList (l : list Json)
| JDict (d : list (string * Json)).

(** [j.get(k, default)]: only a [dict] has the method. *)
Definition json_get (j : Json) (k : string) (default : Json) : result Json :=
  match j with
  | JDict d => Return (match get d k with Some v => v | None => default end)
  | _ => Raise AttributeError
  end.

(** [j[0]] *)
Definition json_item0 (j : Json) : result Json :=
  match j with
  | JList (x :: _) => Return x
  | JList [] => Raise IndexError
  | JStr (String c _) => Return (JStr (String c EmptyString))
  | JStr EmptyString => Raise IndexError
  | JDict _ => Raise KeyError
  | _ => Raise TypeError
  end.

(** [j.strip()]: only a [str] has the method. *)
Definition json_strip (j : Json) : result string :=
  match j with
  | JStr s => Return (strip s)
  | _ => Raise AttributeError
  end.

(** [requests.post(url, json=payload, timeout=t)] and what comes back. *)
Record Request := mkRequest {
  url : string;
  payload : Json;
  timeout : Z
}.

Record Response := mkResponse {
  status_code : Z;
  json : result Json   (* [response.json()] *)
}.

(** The inference backend: the request either raises (connection error,
    timeout) or is answered. *)
Definition Backend := Request -> result Response.

End Py.

Notation "x <- c1 ;; c2" := (Py.bind c1 (fun x => c2))
  (at level 61, c1 at next level, right associativity).


(** ** src/dreaming_ai.py *)

Module dreaming_ai.

Import Py.
Local Open Scope string_scope.

(** [class Thought].  [timestamp] is the reading of [datetime.now()]. *)
Record Thought := mkThought {
  id : string;
  timestamp : Z;
  content : string;
  thought_type : string;
  parent_id : option string;
  interest_score : Q;
  tags : list string
}.

(** *** [class ReasoningEngine] *)

Record ReasoningEngine := mkReasoningEngine {
  ollama_url : string;
  model : string
}.

Definition reasoning_modes : list string :=
  [ "free_association"; "logical_deduction"; "creative_what_if";
    "pattern_recognition"; "analogical_reasoning" ].

Definition _build_prompt (context mode : string) : string :=
  let base_context :=
    if truthy context
    then "Previous thoughts:" ++ nl ++ context ++ nl ++ nl
    else "" in
  let mode_prompts : dict string :=
    [ ("free_association",
        base_context ++ "Let your mind wander freely. What comes to mind next?");
      ("logical_deduction",
        base_context ++ "Following logical steps, what conclusion emerges?");
      ("creative_what_if",
        base_context ++ "What if we imagined something completely different? What if...");
      ("pattern_recognition",
        base_context ++ "Looking at these ideas, what patterns or connections do you notice?");
      ("analogical_reasoning",
        base_context ++ "How might this be similar to something else entirely? What analogy comes to mind?") ] in
  match get mode_prompts mode with
  | Some p => p
  | None => base_context ++ "What thought arises naturally?"
  end.

(** The two sentences returned when the backend does not answer. *)
Definition filler_api_error : string :=
  "I notice something interesting about the nature of thought itself...".
Definition filler_exception : string :=
  "In this moment of silence, new possibilities emerge...".

(** What one call of [generate_thought] reads from its surroundings. *)
Record thought_env := mkThoughtEnv {
  draw_mode : nat;          (* [random.choice(self.reasoning_modes)] *)
  draw_temperature : Q;     (* [random.uniform(0.7, 1.2)] *)
  backend : Backend
}.

Definition generate_thought (self : ReasoningEngine) (env : thought_env)
    (context : list Thought) (mode : option string) : result string :=
  mode <- match mode with
          | None => choice (draw_mode env) reasoning_modes
          | Some m => Return m
          end ;;
  let context_str :=
    match context with
    | [] => ""
    | _ =>
        let recent_thoughts := slice_from (-5) context in
        join nl (map (fun t => "[" ++ upper (thought_type t) ++ "] " ++ content t)
                     recent_thoughts)
    end in
  let prompt := _build_prompt context_str mode in
  try_except_Exception
    (response <- backend env
       (mkRequest (ollama_url self ++ "/api/generate")
          (JDict [ ("model", JStr (model self));
                   ("prompt", JStr prompt);
                   ("stream", JBool false);
                   ("options",
                     JDict [ ("temperature", JNum (draw_temperature env));
                             ("top_p", JNum 0.9%Q);
                             ("max_tokens", JNum 200%Q) ]) ])
          30) ;;
     if (status_code response =? 200)%Z then
       result <- json response ;;
       r <- json_get result "response" (JStr "") ;;
       json_strip r
     else
       Return filler_api_error)
    (fun e => Return filler_exception).

(** *** [class InterestDetector] *)

Definition interest_keywords : list string :=
  [ "connection"; "pattern"; "similar"; "like"; "reminds me";
    "what if"; "perhaps"; "maybe"; "could be"; "might";
    "interesting"; "fascinating"; "beautiful"; "elegant";
    "paradox"; "contradiction"; "unexpected"; "surprising";
    "discovery"; "insight"; "realization"; "understanding" ].

Definition gold_strike_indicators : list string :=
  [ "breakthrough"; "eureka"; "suddenly clear"; "now I see";
    "this explains"; "the key is"; "fundamental"; "profound";
    "revolutionary"; "paradigm"; "transforms everything" ].

(** One loop [for keyword in keywords: if keyword in thought_lower:
    score += w], started from [score]. *)
Definition add_keywords (w : Q) (keywords : list string)
    (thought_lower : string) (score : Q) : Q :=
  fold_left
    (fun score keyword =>
       if contains keyword thought_lower then (score + w)%Q else score)
    keywords score.

Definition calculate_interest_score (thought : string) : Q :=
  let score := 0%Q in
  let thought_lower := lower thought in
  let score := add_keywords 0.1 interest_keywords thought_lower score in
  let score := add_keywords 0.5 gold_strike_indicators thought_lower score in
  let score := if (100 <? len thought)%nat then (score + 0.1)%Q else score in
  let score := (score + inject_Z (Z.of_nat (count "?" thought)) * 0.05)%Q in
  let score := (score + inject_Z (Z.of_nat (count "!" thought)) * 0.1)%Q in
  Qmin score 1.

(** [x > y] on scores. *)
Definition Qgtb (x y : Q) : bool := negb (Qle_bool x y).

Definition is_gold_strike (thought : string) (score : Q) : bool :=
  Qgtb score 0.6 ||
  existsb (fun indicator => contains indicator (lower thought))
          gold_strike_indicators.

(** *** [class MemorySystem] *)

(** A row of the table [golden_thoughts]. *)
Record golden_row := mkGoldenRow {
  g_id : string;
  g_timestamp : Z;
  g_content : string;
  g_interest_score : Q;
  discovery_context : string
}.

(** [short_term_memory] is the in-memory list; [thoughts] and
    [golden_thoughts] are the two tables of the database, as lists of rows.
    A row of [thoughts] carries the seven columns, which are the fields of
    the [Thought] it was written from. *)
Record MemorySystem := mkMemorySystem {
  short_term_memory : list Thought;
  max_short_term : Z;
  thoughts : list Thought;
  golden_thoughts : list golden_row
}.

Definition MemorySystem_init : MemorySystem :=
  mkMemorySystem [] 20 [] [].

(** [INSERT OR REPLACE] on a table whose primary key is [key]: the rows in
    conflict with the new one are deleted, then the new row is inserted. *)
Definition insert_or_replace {R} (key : R -> string) (row : R)
    (table : list R) : list R :=
  (filter (fun r => negb (String.eqb (key r) (key row))) table ++ [row])%list.

Definition add_thought (self : MemorySystem) (thought : Thought)
    : MemorySystem :=
  let stm := (short_term_memory self ++ [thought])%list in
  let stm :=
    if (Z.of_nat (List.length stm) >? max_short_term self)%Z
    then pop0 stm else stm in
  mkMemorySystem stm (max_short_term self)
    (insert_or_replace id thought (thoughts self))
    (golden_thoughts self).

Definition add_golden_thought (self : MemorySystem) (thought : Thought)
    (context : string) : MemorySystem :=
  mkMemorySystem (short_term_memory self) (max_short_term self)
    (thoughts self)
    (insert_or_replace g_id
       (mkGoldenRow (id thought) (timestamp thought) (content thought)
                    (interest_score thought) context)
       (golden_thoughts self)).

Definition get_recent_thoughts (self : MemorySystem) (limit : Z)
    : list Thought :=
  slice_from (- limit) (short_term_memory self).

(** *** [class DreamingAI]

    The console output and the markdown files of [OutputManager] are not part
    of the state. *)

Record DreamingAI := mkDreamingAI {
  max_thoughts_per_session : Z;     (* [config] *)
  reasoning_engine : ReasoningEngine;
  memory : MemorySystem;
  is_dreaming : bool;
  thoughts_generated : list Thought
}.

Definition _process_thought (self : DreamingAI) (thought : Thought)
    : DreamingAI :=
  let score := calculate_interest_score (content thought) in
  let thought :=
    mkThought (id thought) (timestamp thought) (content thought)
              (thought_type thought) (parent_id thought) score (tags thought) in
  let gold := is_gold_strike (content thought) (interest_score thought) in
  let thought :=
    if gold
    then mkThought (id thought) (timestamp thought) (content thought)
                   "gold_strike" (parent_id thought) (interest_score thought)
                   (tags thought)
    else thought in
  let memory :=
    if gold
    then add_golden_thought (memory self) thought
           "Autonomous discovery during dreaming"
    else memory self in
  let memory := add_thought memory thought in
  mkDreamingAI (max_thoughts_per_session self) (reasoning_engine self) memory
               (is_dreaming self) (thoughts_generated self ++ [thought])%list.

(** What one pass of the reasoning loop reads: the clock, twice, and what
    [generate_thought] reads. *)
Record dream_env := mkDreamEnv {
  think : thought_env;
  now_ms : Z;      (* [int(time.time() * 1000)] *)
  now : Z          (* [datetime.now()] *)
}.

(** The identifiers of the seed and of the thoughts that follow it. *)
Definition seed_id (ms : Z) : string := "thought_" ++ str_of_int ms.
Definition thought_id (ms thought_count : Z) : string :=
  "thought_" ++ str_of_int ms ++ "_" ++ str_of_int thought_count.

(** The body of [while self.is_dreaming and thought_count < max_thoughts]:
    the [try] block, and the [except Exception] clause that logs, sleeps and
    lets the loop go on. *)
Definition dream_iteration (self : DreamingAI) (env : dream_env)
    (thought_count : Z) : result (DreamingAI * Z) :=
  try_except_Exception
    (let context := get_recent_thoughts (memory self) 10 in
     new_content <-
       generate_thought (reasoning_engine self) (think env) context None ;;
     if truthy new_content then
       let new_thought :=
         mkThought (thought_id (now_ms env) thought_count) (now env)
                   new_content "reasoning"
                   (option_map id (last_opt context)) 0%Q [] in
       Return (_process_thought self new_thought, (thought_count + 1)%Z)
     else
       Return (self, thought_count))
    (fun e => Return (self, thought_count)).

Fixpoint dream_while (fuel : nat) (envs : nat -> dream_env) (k : nat)
    (self : DreamingAI) (thought_count : Z) : run DreamingAI Z :=
  if is_dreaming self && (thought_count <? max_thoughts_per_session self)%Z
  then
    match fuel with
    | O => OutOfFuel self
    | S fuel' =>
        match dream_iteration self (envs k) thought_count with
        | Return (self', thought_count') =>
            dream_while fuel' envs (S k) self' thought_count'
        | Raise e => Propagated e self
        end
    end
  else Finished self thought_count.

(** [_dream_loop]: [seed] is the text [self.seeder.generate_seed()] returns,
    [seed_env] the clock at the seed, [envs k] the surroundings of pass [k]. *)
Definition _dream_loop (fuel : nat) (seed : string) (seed_env : dream_env)
    (envs : nat -> dream_env) (self : DreamingAI) : run DreamingAI Z :=
  let thought_count := 0%Z in
  let seed_thought :=
    mkThought (seed_id (now_ms seed_env)) (now seed_env) seed "seed"
              None 0%Q [] in
  let self := _process_thought self seed_thought in
  let thought_count := (thought_count + 1)%Z in
  dream_while fuel envs 0 self thought_count.

(** *** [MemorySystem.get_golden_thoughts]

    [ORDER BY interest_score DESC, timestamp DESC]: whether row [a] may stand
    before row [b].  The timestamps are stored in ISO format, whose order as
    text is the order of the instants. *)
Definition golden_before (a b : golden_row) : bool :=
  match (g_interest_score a ?= g_interest_score b)%Q with
  | Gt => true
  | Lt => false
  | Eq => (g_timestamp b <=? g_timestamp a)%Z
  end.

(** The rows are put in order one by one; among rows that tie, which the
    query leaves open, the order of the table is kept. *)
Fixpoint insert_golden (row : golden_row) (sorted : list golden_row)
    : list golden_row :=
  match sorted with
  | [] => [row]
  | x :: sorted' =>
      if golden_before x row then x :: insert_golden row sorted'
      else row :: sorted
  end.

Definition get_golden_thoughts (self : MemorySystem) : list golden_row :=
  fold_left (fun sorted row => insert_golden row sorted)
            (golden_thoughts self) [].

(** *** [DreamingAI.start_dreaming] and [stop_dreaming]

    The summary that [stop_dreaming] prints and writes to a file is output,
    not state. *)
Definition stop_dreaming (self : DreamingAI) : DreamingAI :=
  if negb (is_dreaming self) then self
  else mkDreamingAI (max_thoughts_per_session self) (reasoning_engine self)
         (memory self) false (thoughts_generated self).

(** [try: self._dream_loop()  except KeyboardInterrupt: ...  finally:
    self.stop_dreaming()] *)
Definition start_dreaming (fuel : nat) (seed : string) (seed_env : dream_env)
    (envs : nat -> dream_env) (self : DreamingAI) : run DreamingAI unit :=
  if is_dreaming self then Finished self tt
  else
    let self :=
      mkDreamingAI (max_thoughts_per_session self) (reasoning_engine self)
        (memory self) true [] in
    match _dream_loop fuel seed seed_env envs self with
    | Finished self' _ => Finished (stop_dreaming self') tt
    | Propagated KeyboardInterrupt self' => Finished (stop_dreaming self') tt
    | Propagated e self' => Propagated e (stop_dreaming self')
    | OutOfFuel self' => OutOfFuel self'
    end.

(** *** [class ThoughtSeeder] *)

Definition abstract_concepts : list string :=
  [ "consciousness"; "infinity"; "emergence"; "patterns"; "symmetry";
    "chaos"; "order"; "connection"; "transformation"; "paradox";
    "beauty"; "truth"; "existence"; "meaning"; "purpose"; "time";
    "space"; "energy"; "information"; "complexity"; "simplicity" ].

Definition concrete_concepts : list string :=
  [ "ocean"; "mountain"; "tree"; "bird"; "crystal"; "river"; "star";
    "flower"; "stone"; "wind"; "fire"; "ice"; "light"; "shadow";
    "music"; "dance"; "color"; "texture"; "sound"; "silence" ].

Definition abstract_questions : list string :=
  [ "What if time moved backwards?";
    "How do patterns emerge from chaos?";
    "What connects all living things?";
    "Why do we find certain things beautiful?";
    "What is the nature of consciousness?";
    "How does complexity arise from simplicity?";
    "What would a perfect system look like?";
    "How do ideas spread and evolve?";
    "What makes something meaningful?";
    "How do we know what we know?" ].

(** What [generate_seed] reads: the draws, those of the concepts numbered in
    the order they are made, and the clock as [strftime] renders it. *)
Record seeder_env := mkSeederEnv {
  draw_seed_type : nat;
  draw_concept : nat -> nat;
  draw_question : nat;
  draw_time_prompt : nat;
  clock_HM : string;        (* ['%H:%M'] *)
  clock_A : string;         (* ['%A'] *)
  clock_HMS : string        (* ['%H:%M:%S'] *)
}.

(** [while concept2 == concept1: concept2 = random.choice(...)], entered with
    [concept2], the next draw being draw [k]; [None] when the redraws
    granted are used up. *)
Fixpoint redraw (fuel : nat) (env : seeder_env) (k : nat)
    (concept1 concept2 : string) : option (result string) :=
  if String.eqb concept2 concept1 then
    match fuel with
    | O => None
    | S fuel' =>
        match choice (draw_concept env k)
                (abstract_concepts ++ concrete_concepts)%list with
        | Return concept2' => redraw fuel' env (S k) concept1 concept2'
        | Raise e => Some (Raise e)
        end
    end
  else Some (Return concept2).

Definition generate_seed (fuel : nat) (env : seeder_env)
    : option (result string) :=
  match choice (draw_seed_type env)
          ["combination"; "abstract_question"; "timestamp_based"] with
  | Raise e => Some (Raise e)
  | Return seed_type =>
      if String.eqb seed_type "combination" then
        match choice (draw_concept env 0)
                (abstract_concepts ++ concrete_concepts)%list with
        | Raise e => Some (Raise e)
        | Return concept1 =>
            match choice (draw_concept env 1)
                    (abstract_concepts ++ concrete_concepts)%list with
            | Raise e => Some (Raise e)
            | Return concept2 =>
                match redraw fuel env 2 concept1 concept2 with
                | Some (Return concept2) =>
                    Some (Return (concept1 ++ " + " ++ concept2))
                | other => other
                end
            end
        end
      else if String.eqb seed_type "abstract_question" then
        Some (choice (draw_question env) abstract_questions)
      else
        let time_prompts :=
          [ "It's " ++ clock_HM env ++ " on a " ++ clock_A env
              ++ ". What might be happening right now?";
            "In this moment at " ++ clock_HM env ++ ", what thoughts arise?";
            "The time is " ++ clock_HMS env
              ++ ". What does this precise moment contain?" ] in
        Some (choice (draw_time_prompt env) time_prompts)
  end.

End dreaming_ai.

(** ** src/multi_agent_system.py *)

Module multi_agent_system.

Import Py.
Local Open Scope string_scope.

(** [class AgentMessage] *)
Module AgentMessage.
Record t := mk {
  id : string;
  timestamp : Z;
  agent_id : string;
  content : string;
  response_to : option string;
  conversation_id : string;
  interest_score : Q
}.
End AgentMessage.

(** [class Agent] *)
Module Agent.
Record t := mk {
  id : string;
  name : string;
  personality_traits : list string;
  current_focus : string;
  model : string;
  conversation_style : string;
  memory_buffer : list AgentMessage.t
}.
End Agent.

(** *** [class ConversationEngine]

    [message_queue] is the queue's content, oldest first. *)
Record ConversationEngine := mkConversationEngine {
  ollama_url : string;
  agents : dict Agent.t;
  conversations : dict (list AgentMessage.t);
  message_queue : list AgentMessage.t;
  is_running : bool
}.

Definition ConversationEngine_init (ollama_url : string) : ConversationEngine :=
  mkConversationEngine ollama_url [] [] [] false.

Definition add_agent (self : ConversationEngine) (agent : Agent.t)
    : ConversationEngine :=
  mkConversationEngine (ollama_url self)
    (set (agents self) (Agent.id agent) agent)
    (conversations self) (message_queue self) (is_running self).

Definition seeds : list string :=
  [ "I've been thinking about the nature of time...";
    "What if consciousness is more like water than we think?";
    "There's something fascinating about how patterns emerge everywhere.";
    "I wonder about the connection between music and mathematics.";
    "The way plants grow reminds me of how ideas spread.";
    "Have you noticed how cities breathe like living organisms?";
    "The space between thoughts might be where creativity lives.";
    "I'm curious about what makes something beautiful versus useful.";
    "The relationship between order and chaos keeps puzzling me.";
    "Sometimes I think language shapes reality more than we realize." ].

Definition _generate_conversation_seed (draw : nat) : result string :=
  choice draw seeds.

(** What [start_conversation] reads from its surroundings. *)
Record start_env := mkStartEnv {
  draw_seed : nat;     (* [random.choice(seeds)] *)
  draw_first : nat;    (* [random.choice(list(self.agents.values()))] *)
  start_ms : Z;        (* [int(time.time() * 1000)] *)
  start_now : Z        (* [datetime.now()] *)
}.

(** The identifiers of a seed message and of a response. *)
Definition seed_msg_id (ms : Z) : string := "msg_" ++ str_of_int ms.
Definition response_msg_id (ms exchanges : Z) : string :=
  "msg_" ++ str_of_int ms ++ "_" ++ str_of_int exchanges.

(** [self.conversations[conversation_id].append(msg)] and
    [self.message_queue.put(msg)] *)
Definition publish (self : ConversationEngine) (conversation_id : string)
    (msg : AgentMessage.t) : ConversationEngine :=
  let conversation :=
    match get (conversations self) conversation_id with
    | Some c => c
    | None => []
    end in
  mkConversationEngine (ollama_url self) (agents self)
    (set (conversations self) conversation_id (conversation ++ [msg])%list)
    (message_queue self ++ [msg])%list (is_running self).

(** The engine comes back with what was assigned before an exception. *)
Definition start_conversation (self : ConversationEngine) (env : start_env)
    (conversation_id : string) (initial_topic : option string)
    : ConversationEngine * result string :=
  if mem (conversations self) conversation_id then
    (self, Return conversation_id)
  else
    let self :=
      mkConversationEngine (ollama_url self) (agents self)
        (set (conversations self) conversation_id [])
        (message_queue self) (is_running self) in
    match
      seed_message <-
        match initial_topic with
        | Some topic =>
            if truthy topic then Return topic
            else _generate_conversation_seed (draw_seed env)
        | None => _generate_conversation_seed (draw_seed env)
        end ;;
      first_agent <- choice (draw_first env) (values (agents self)) ;;
      Return (AgentMessage.mk (seed_msg_id (start_ms env)) (start_now env)
                (Agent.id first_agent) seed_message None conversation_id 0%Q)
    with
    | Return initial_message =>
        (publish self conversation_id initial_message, Return conversation_id)
    | Raise e => (self, Raise e)
    end.

Definition _build_agent_prompt (agent : Agent.t) (context : string) : string :=
  let personality_desc :=
    "Agent with traits: " ++ join ", " (Agent.personality_traits agent) in
  let style_desc := "Communication style: " ++ Agent.conversation_style agent in
  let focus_desc := "Current focus: " ++ Agent.current_focus agent in
  "Recent conversation:" ++ nl ++ context ++ nl ++ nl
    ++ personality_desc ++ nl ++ style_desc ++ nl ++ focus_desc ++ nl ++ nl
    ++ "Response (continue the conversation naturally):".

Definition fallbacks : list string :=
  [ "That's an interesting perspective...";
    "I'm still processing that thought.";
    "Something about this reminds me of...";
    "Let me think about this differently.";
    "What if we considered...";
    "That opens up new questions for me." ].

Definition _fallback_response (draw : nat) (agent : Agent.t) : result string :=
  choice draw fallbacks.

(** What one call of [generate_response] reads from its surroundings. *)
Record response_env := mkResponseEnv {
  draw_temperature : Q;    (* [random.uniform(0.7, 1.1)] *)
  backend : Backend;
  draw_fallback : nat      (* [random.choice(fallbacks)] *)
}.

(** The constructor of the dataclass called with positional arguments.  The
    six fields before [memory_buffer] have no default: a call that leaves
    [conversation_style] out raises [TypeError]. *)
Definition Agent_init (id name : string) (personality_traits : list string)
    (current_focus model : string) (conversation_style : option string)
    : result Agent.t :=
  match conversation_style with
  | Some style =>
      Return (Agent.mk id name personality_traits current_focus model style [])
  | None => Raise TypeError
  end.

(** The loop [for msg in recent_messages: ... context += ...].  The default
    of [self.agents.get(msg.agent_id, Agent("unknown", "Unknown", [], "", ""))]
    is an argument of the call: it is evaluated at every message, whether the
    speaker is registered or not. *)
Definition build_context (self : ConversationEngine)
    (recent_messages : list AgentMessage.t) : result string :=
  fold_left
    (fun context msg =>
       context <- context ;;
       default <- Agent_init "unknown" "Unknown" [] "" "" None ;;
       let speaker :=
         Agent.name
           (match get (agents self) (AgentMessage.agent_id msg) with
            | Some a => a
            | None => default
            end) in
       Return (context ++ speaker ++ ": " ++ AgentMessage.content msg ++ nl))
    recent_messages (Return "").

Definition generate_response (self : ConversationEngine) (env : response_env)
    (agent : Agent.t) (conversation_history : list AgentMessage.t)
    : result string :=
  let recent_messages := slice_from (-5) conversation_history in
  context <- build_context self recent_messages ;;
  let prompt := _build_agent_prompt agent context in
  try_except_Exception
    (response <- backend env
       (mkRequest (ollama_url self ++ "/chat/completions")
          (JDict [ ("model", JStr (Agent.model agent));
                   ("messages",
                     JList [ JDict [ ("role", JStr "user");
                                     ("content", JStr prompt) ] ]);
                   ("temperature", JNum (draw_temperature env));
                   ("top_p", JNum 0.9%Q);
                   ("max_tokens", JNum 150%Q);
                   ("stream", JBool false) ])
          30) ;;
     if (status_code response =? 200)%Z then
       result <- json response ;;
       choices <- json_get result "choices" (JList [JDict []]) ;;
       first <- json_item0 choices ;;
       message <- json_get first "message" (JDict []) ;;
       content <- json_get message "content" (JStr "") ;;
       json_strip content
     else
       _fallback_response (draw_fallback env) agent)
    (fun e => _fallback_response (draw_fallback env) agent).

(** What one pass of the loop of [process_conversation] reads. *)
Record turn_env := mkTurnEnv {
  draw_next : nat;         (* [random.choice(available_agents)] *)
  respond : response_env;
  turn_ms : Z;             (* [int(time.time() * 1000)] *)
  turn_now : Z             (* [datetime.now()] *)
}.

(** [[a for a in self.agents.values() if a.id != last_speaker]], each agent
    with the key it is stored under. *)
Definition available_agents (self : ConversationEngine)
    (last_speaker : option string) : list (string * Agent.t) :=
  filter
    (fun ka =>
       match last_speaker with
       | Some s => negb (String.eqb (Agent.id (snd ka)) s)
       | None => true
       end)
    (agents self).

(** [next_agent.memory_buffer.append(msg)], with the eviction beyond 10; the
    agent is the object stored under [key]. *)
Definition remember (self : ConversationEngine) (key : string)
    (next_agent : Agent.t) (msg : AgentMessage.t) : ConversationEngine :=
  let buffer := (Agent.memory_buffer next_agent ++ [msg])%list in
  let buffer := if (10 <? List.length buffer)%nat then pop0 buffer else buffer in
  let next_agent :=
    Agent.mk (Agent.id next_agent) (Agent.name next_agent)
      (Agent.personality_traits next_agent) (Agent.current_focus next_agent)
      (Agent.model next_agent) (Agent.conversation_style next_agent) buffer in
  mkConversationEngine (ollama_url self) (set (agents self) key next_agent)
    (conversations self) (message_queue self) (is_running self).

(** How one pass of the loop ends. *)
Inductive step :=
| Break                                         (* [break] *)
| Continue (self : ConversationEngine) (exchanges : Z).

(** The [try] block of the loop. *)
Definition turn_body (self : ConversationEngine) (env : turn_env)
    (conversation_id : string) (exchanges : Z) : result step :=
  let conversation :=
    match get (conversations self) conversation_id with
    | Some c => c
    | None => []
    end in
  let last_speaker := option_map AgentMessage.agent_id (last_opt conversation) in
  let available := available_agents self last_speaker in
  match available with
  | [] => Return Break
  | _ =>
      next <- choice (draw_next env) available ;;
      let next_agent := snd next in
      response_content <-
        generate_response self (respond env) next_agent conversation ;;
      if truthy response_content then
        let response_msg :=
          AgentMessage.mk (response_msg_id (turn_ms env) exchanges)
            (turn_now env) (Agent.id next_agent) response_content
            (option_map AgentMessage.id (last_opt conversation))
            conversation_id 0%Q in
        let self := publish self conversation_id response_msg in
        let self := remember self (fst next) next_agent response_msg in
        Return (Continue self (exchanges + 1)%Z)
      else
        Return (Continue self exchanges)
  end.

(** The pass with its [except Exception] clause, which logs and breaks. *)
Definition turn (self : ConversationEngine) (env : turn_env)
    (conversation_id : string) (exchanges : Z) : result step :=
  try_except_Exception (turn_body self env conversation_id exchanges)
    (fun e => Return Break).

(** [while exchanges < max_exchanges]; the result carries the engine and the
    number of exchanges the closing log line reports. *)
Fixpoint process_while (fuel : nat) (envs : nat -> turn_env) (k : nat)
    (self : ConversationEngine) (conversation_id : string)
    (exchanges max_exchanges : Z) : run ConversationEngine Z :=
  if (exchanges <? max_exchanges)%Z then
    match fuel with
    | O => OutOfFuel self
    | S fuel' =>
        match turn self (envs k) conversation_id exchanges with
        | Return Break => Finished self exchanges
        | Return (Continue self' exchanges') =>
            process_while fuel' envs (S k) self' conversation_id
              exchanges' max_exchanges
        | Raise e => Propagated e self
        end
    end
  else Finished self exchanges.

(** How [process_conversation] returns: the conversation was not known, or the
    closing line logged it as completed with so many exchanges. *)
Inductive outcome :=
| NotFound
| Completed (exchanges : Z).

Definition process_conversation (fuel : nat) (envs : nat -> turn_env)
    (self : ConversationEngine) (conversation_id : string)
    (max_exchanges : Z) : run ConversationEngine outcome :=
  if negb (mem (conversations self) conversation_id) then
    Finished self NotFound
  else
    match process_while fuel envs 0 self conversation_id 0 max_exchanges with
    | Finished self' exchanges => Finished self' (Completed exchanges)
    | Propagated e self' => Propagated e self'
    | OutOfFuel self' => OutOfFuel self'
    end.

(** The same loop with the method it calls, [self.generate_response], as a
    parameter: what the scheduling of [process_conversation] does with any
    method that answers from the engine, the agent and the history and
    leaves the engine as it is.  At [generate_response] it is the loop
    above. *)
Definition response_method : Type :=
  ConversationEngine -> response_env -> Agent.t -> list AgentMessage.t
  -> result string.

Definition turn_body_with (generate_response : response_method)
    (self : ConversationEngine) (env : turn_env)
    (conversation_id : string) (exchanges : Z) : result step :=
  let conversation :=
    match get (conversations self) conversation_id with
    | Some c => c
    | None => []
    end in
  let last_speaker := option_map AgentMessage.agent_id (last_opt conversation) in
  let available := available_agents self last_speaker in
  match available with
  | [] => Return Break
  | _ =>
      next <- choice (draw_next env) available ;;
      let next_agent := snd next in
      response_content <-
        generate_response self (respond env) next_agent conversation ;;
      if truthy response_content then
        let response_msg :=
          AgentMessage.mk (response_msg_id (turn_ms env) exchanges)
            (turn_now env) (Agent.id next_agent) response_content
            (option_map AgentMessage.id (last_opt conversation))
            conversation_id 0%Q in
        let self := publish self conversation_id response_msg in
        let self := remember self (fst next) next_agent response_msg in
        Return (Continue self (exchanges + 1)%Z)
      else
        Return (Continue self exchanges)
  end.

Definition turn_with (generate_response : response_method)
    (self : ConversationEngine) (env : turn_env)
    (conversation_id : string) (exchanges : Z) : result step :=
  try_except_Exception
    (turn_body_with generate_response self env conversation_id exchanges)
    (fun e => Return Break).

Fixpoint process_while_with (generate_response : response_method)
    (fuel : nat) (envs : nat -> turn_env) (k : nat)
    (self : ConversationEngine) (conversation_id : string)
    (exchanges max_exchanges : Z) : run ConversationEngine Z :=
  if (exchanges <? max_exchanges)%Z then
    match fuel with
    | O => OutOfFuel self
    | S fuel' =>
        match turn_with generate_response self (envs k) conversation_id
                exchanges with
        | Return Break => Finished self exchanges
        | Return (Continue self' exchanges') =>
            process_while_with generate_response fuel' envs (S k) self'
              conversation_id exchanges' max_exchanges
        | Raise e => Propagated e self
        end
    end
  else Finished self exchanges.

Definition process_conversation_with (generate_response : response_method)
    (fuel : nat) (envs : nat -> turn_env)
    (self : ConversationEngine) (conversation_id : string)
    (max_exchanges : Z) : run ConversationEngine outcome :=
  if negb (mem (conversations self) conversation_id) then
    Finished self NotFound
  else
    match process_while_with generate_response fuel envs 0 self
            conversation_id 0 max_exchanges with
    | Finished self' exchanges => Finished self' (Completed exchanges)
    | Propagated e self' => Propagated e self'
    | OutOfFuel self' => OutOfFuel self'
    end.

(** *** [class AgentPersonalityGenerator] *)

Definition personality_traits : list string :=
  [ "curious"; "analytical"; "creative"; "methodical"; "intuitive";
    "skeptical"; "optimistic"; "philosophical"; "practical"; "imaginative";
    "logical"; "empathetic"; "bold"; "cautious"; "innovative" ].

Definition conversation_styles : list string :=
  [ "questioning"; "storytelling"; "technical"; "metaphorical"; "direct";
    "exploratory"; "building_on_ideas"; "challenging"; "synthesizing";
    "divergent" ].

Definition focus_areas : list string :=
  [ "patterns"; "connections"; "contradictions"; "possibilities";
    "fundamentals"; "applications"; "implications"; "origins"; "futures";
    "relationships" ].

Definition name_prefixes : dict string :=
  [ ("curious", "Explorer"); ("analytical", "Analyzer"); ("creative", "Dreamer");
    ("methodical", "Builder"); ("intuitive", "Seer"); ("skeptical", "Questioner");
    ("optimistic", "Visionary"); ("philosophical", "Thinker");
    ("practical", "Maker"); ("imaginative", "Weaver"); ("logical", "Reasoner");
    ("empathetic", "Connector"); ("bold", "Pioneer"); ("cautious", "Guardian");
    ("innovative", "Inventor") ].

(** [pool[j] = y] *)
Fixpoint list_set {A} (j : nat) (y : A) (pool : list A) : list A :=
  match pool, j with
  | [], _ => []
  | _ :: pool', O => y :: pool'
  | x :: pool', S j' => x :: list_set j' y pool'
  end.

(** The loop of [random.sample] for a population of at most 21 elements:
    with [m] elements of the pool not drawn yet, [result[i] = pool[j]] for
    [j = randbelow(m)], then [pool[j] = pool[m - 1]]. *)
Fixpoint sample_pool {A} (k : nat) (draws : nat -> nat) (i : nat)
    (pool : list A) (m : nat) : list A :=
  match k with
  | O => []
  | S k' =>
      let j := (draws i mod m)%nat in
      match nth_error pool j, nth_error pool (m - 1) with
      | Some x, Some y =>
          x :: sample_pool k' draws (S i) (list_set j y pool) (m - 1)
      | _, _ => []
      end
  end.

(** [random.sample(population, k)]: a sample larger than the population
    raises [ValueError]. *)
Definition random_sample {A} (draws : nat -> nat) (population : list A)
    (k : nat) : result (list A) :=
  if (k <=? List.length population)%nat
  then Return (sample_pool k draws 0 population (List.length population))
  else Raise ValueError.

(** [random.randint(lo, hi)], for [lo <= hi]. *)
Definition randint (draw : nat) (lo hi : nat) : nat :=
  (lo + draw mod (hi - lo + 1))%nat.

(** [s[start:]] on a string. *)
Definition str_slice_from (start : Z) (s : string) : string :=
  string_of_list_ascii (slice_from start (list_ascii_of_string s)).

(** What [generate_agent] reads from the random generator. *)
Record agent_env := mkAgentEnv {
  draw_count : nat;          (* [random.randint(2, 4)] *)
  draw_traits : nat -> nat;  (* the draws of [random.sample] *)
  draw_style : nat;          (* [random.choice(self.conversation_styles)] *)
  draw_focus : nat           (* [random.choice(self.focus_areas)] *)
}.

Definition generate_agent (env : agent_env) (agent_id model : string)
    : result Agent.t :=
  traits <- random_sample (draw_traits env) personality_traits
              (randint (draw_count env) 2 4) ;;
  style <- choice (draw_style env) conversation_styles ;;
  focus <- choice (draw_focus env) focus_areas ;;
  primary_trait <- match traits with
                   | [] => Raise IndexError
                   | t :: _ => Return t
                   end ;;
  let name :=
    (match get name_prefixes primary_trait with
     | Some prefix => prefix
     | None => "Agent"
     end) ++ "-" ++ str_slice_from (-3) agent_id in
  Return (Agent.mk agent_id name traits focus model style []).

(** *** [class MultiAgentMemory]

    A row of the table [agents]: the agent's six stored fields and the time
    of the write. *)
Record agent_row := mkAgentRow {
  row_id : string;
  row_name : string;
  row_personality_traits : list string;
  row_current_focus : string;
  row_model : string;
  row_conversation_style : string;
  created_at : Z
}.

Record MultiAgentMemory := mkMultiAgentMemory {
  agents_table : list agent_row;
  messages_table : list AgentMessage.t
}.

Definition save_agent (self : MultiAgentMemory) (now : Z) (agent : Agent.t)
    : MultiAgentMemory :=
  mkMultiAgentMemory
    (dreaming_ai.insert_or_replace row_id
       (mkAgentRow (Agent.id agent) (Agent.name agent)
          (Agent.personality_traits agent) (Agent.current_focus agent)
          (Agent.model agent) (Agent.conversation_style agent) now)
       (agents_table self))
    (messages_table self).

Definition save_message (self : MultiAgentMemory) (message : AgentMessage.t)
    : MultiAgentMemory :=
  mkMultiAgentMemory (agents_table self)
    (dreaming_ai.insert_or_replace AgentMessage.id message
       (messages_table self)).

(** *** [class MultiAgentSystem]

    [models] and [agent_count] are the two entries of the configuration that
    [_create_agents] reads. *)
Record MultiAgentSystem := mkMultiAgentSystem {
  models : list string;
  agent_count : Z;
  conversation_engine : ConversationEngine;
  memory : MultiAgentMemory
}.

(** What one pass of the loop of [_create_agents] reads. *)
Record create_env := mkCreateEnv {
  create_ms : Z;           (* [int(time.time() * 1000)] *)
  create_agent : agent_env;
  create_now : Z           (* [datetime.now()] in [save_agent] *)
}.

Definition new_agent_id (ms : Z) (i : nat) : string :=
  "agent_" ++ str_of_int ms ++ "_" ++ str_of_int (Z.of_nat i).

(** [models[i % len(models)]]: the modulo by zero raises
    [ZeroDivisionError]. *)
Definition model_for (models : list string) (i : nat) : result string :=
  match models with
  | [] => Raise (OtherException "ZeroDivisionError")
  | _ =>
      match nth_error models (i mod List.length models) with
      | Some model => Return model
      | None => Raise IndexError
      end
  end.

(** The passes [i], [i + 1], ... of [for i in range(agent_count)], [count]
    of them; the system comes back with what was done before an
    exception. *)
Fixpoint create_agents_from (count : nat) (i : nat) (envs : nat -> create_env)
    (self : MultiAgentSystem) : MultiAgentSystem * result unit :=
  match count with
  | O => (self, Return tt)
  | S count' =>
      let env := envs i in
      let agent_id := new_agent_id (create_ms env) i in
      match (model <- model_for (models self) i ;;
             generate_agent (create_agent env) agent_id model) with
      | Raise e => (self, Raise e)
      | Return agent =>
          create_agents_from count' (S i) envs
            (mkMultiAgentSystem (models self) (agent_count self)
               (add_agent (conversation_engine self) agent)
               (save_agent (memory self) (create_now env) agent))
      end
  end.

Definition _create_agents (envs : nat -> create_env) (self : MultiAgentSystem)
    : MultiAgentSystem * result unit :=
  create_agents_from (Z.to_nat (agent_count self)) 0 envs self.

End multi_agent_system.

(** ** The specification's vocabulary *)

Module Spec.

Import Py.
Local Open Scope string_scope.

(** Case-insensitive substring match of a keyword in a text. *)
Definition occurs_ci (keyword text : string) : bool :=
  contains (lower keyword) (lower text).

(** How many keywords of a list occur in a text. *)
Definition occurring (keywords : list string) (text : string) : nat :=
  List.length (filter (fun k => occurs_ci k text) keywords).

(** The additive model of the interest score, in the specification's words:
    0.1 for each generic keyword that occurs, 0.5 for each breakthrough
    keyword that occurs, 0.1 for a text of more than 100 characters, 0.05 for
    each question mark, 0.1 for each exclamation mark, clamped to 1. *)
Definition additive_model (text : string) : Q :=
  Qmin
    (inject_Z (Z.of_nat (occurring dreaming_ai.interest_keywords text)) * 0.1
     + inject_Z (Z.of_nat (occurring dreaming_ai.gold_strike_indicators text)) * 0.5
     + (if (100 <? len text)%nat then 0.1 else 0)
     + inject_Z (Z.of_nat (count "?" text)) * 0.05
     + inject_Z (Z.of_nat (count "!" text)) * 0.1)%Q
    1.

(** The [n] most recent elements of a list that grows at its end. *)
Definition lastn {A} (n : nat) (l : list A) : list A :=
  skipn (List.length l - n) l.

(** [add_thought] called on each record of a sequence, in order. *)
Definition add_all (self : dreaming_ai.MemorySystem)
    (records : list dreaming_ai.Thought) : dreaming_ai.MemorySystem :=
  fold_left dreaming_ai.add_thought records self.

(** The entries of a buffer or the rows of the table [thoughts] that carry a
    given id. *)
Definition with_id (i : string) (l : list dreaming_ai.Thought)
    : list dreaming_ai.Thought :=
  filter (fun r => String.eqb (dreaming_ai.id r) i) l.

(** A record to run the memory on: thought number [n], with a given text. *)
Definition sample (n : Z) (text : string) : dreaming_ai.Thought :=
  dreaming_ai.mkThought (dreaming_ai.thought_id 0 n) n text "reasoning"
    None 0%Q [].

Definition samples (k : nat) : list dreaming_ai.Thought :=
  map (fun n => sample (Z.of_nat n) "a thought") (seq 0 k).

(** The state a loop is left in, however it is left. *)
Definition state_of {S A} (r : run S A) : S :=
  match r with
  | Finished s _ => s
  | Propagated _ s => s
  | OutOfFuel s => s
  end.

(** A backend call that fails: the request raises an exception (connection
    error, timeout), or the answer has a status other than 200. *)
Definition failed (r : result Response) : Prop :=
  match r with
  | Raise e => is_Exception e = true
  | Return response => status_code response <> 200%Z
  end.

Definition failing (backend : Backend) : Prop :=
  forall request, failed (backend request).

(** A backend that is down: every request times out. *)
Definition backend_down : Backend := fun _ => Raise ReadTimeout.

(** A backend that answers every request with a server error. *)
Definition backend_500 : Backend :=
  fun _ => Return (mkResponse 500 (Raise ValueError)).

(** The engines a program can build: a new engine, then agents added,
    conversations started and conversations processed, in any order and in
    any surroundings. *)
Inductive reachable : multi_agent_system.ConversationEngine -> Prop :=
| reach_init (url : string) :
    reachable (multi_agent_system.ConversationEngine_init url)
| reach_add_agent self agent :
    reachable self ->
    reachable (multi_agent_system.add_agent self agent)
| reach_start self env conversation_id initial_topic :
    reachable self ->
    reachable (fst (multi_agent_system.start_conversation
                      self env conversation_id initial_topic))
| reach_process self fuel envs conversation_id max_exchanges :
    reachable self ->
    reachable (state_of (multi_agent_system.process_conversation
                           fuel envs self conversation_id max_exchanges)).

(** No two consecutive messages of a conversation have the same speaker. *)
Definition no_consecutive_speaker
    (conversation : list multi_agent_system.AgentMessage.t) : Prop :=
  forall i m1 m2,
    nth_error conversation i = Some m1 ->
    nth_error conversation (S i) = Some m2 ->
    multi_agent_system.AgentMessage.agent_id m1 <>
    multi_agent_system.AgentMessage.agent_id m2.

(** What holds of every engine a program can build: the agents are stored
    under their ids, no conversation has two consecutive messages of one
    speaker, and every speaker is a registered agent. *)
Definition engine_inv (self : multi_agent_system.ConversationEngine) : Prop :=
  NoDup (map fst (multi_agent_system.agents self)) /\
  Forall (fun ka => multi_agent_system.Agent.id (snd ka) = fst ka)
         (multi_agent_system.agents self) /\
  forall conversation_id conversation,
    get (multi_agent_system.conversations self) conversation_id
      = Some conversation ->
    no_consecutive_speaker conversation /\
    Forall (fun m => In (multi_agent_system.AgentMessage.agent_id m)
                        (map fst (multi_agent_system.agents self)))
           conversation.

(** The messages of a conversation, none for an unknown one. *)
Definition messages (self : multi_agent_system.ConversationEngine)
    (conversation_id : string) : list multi_agent_system.AgentMessage.t :=
  match get (multi_agent_system.conversations self) conversation_id with
  | Some c => c
  | None => []
  end.

(** Agents and surroundings to run the engine on. *)
Definition agent_A : multi_agent_system.Agent.t :=
  multi_agent_system.Agent.mk "agent_1_0" "Explorer-1_0"
    ["curious"; "bold"] "patterns" "gemma2:2b" "direct" [].

Definition agent_B : multi_agent_system.Agent.t :=
  multi_agent_system.Agent.mk "agent_1_1" "Thinker-1_1"
    ["philosophical"; "cautious"] "origins" "phi3:mini" "questioning" [].

Definition start_at (ms : Z) : multi_agent_system.start_env :=
  multi_agent_system.mkStartEnv 0 0 ms ms.

(** Pass [k] of a conversation whose backend is down, at clock
    [2000 + 3000 * k]. *)
Definition turns_down (k : nat) : multi_agent_system.turn_env :=
  multi_agent_system.mkTurnEnv k
    (multi_agent_system.mkResponseEnv 0.9%Q backend_down k)
    (2000 + 3000 * Z.of_nat k) (2000 + 3000 * Z.of_nat k).

(** A dreamer with a cap on its thoughts, and pass [k] of its loop when the
    backend is down, at clock [5000 * k]. *)
Definition dreamer (max_thoughts : Z) : dreaming_ai.DreamingAI :=
  dreaming_ai.mkDreamingAI max_thoughts
    (dreaming_ai.mkReasoningEngine "http://localhost:11434" "gemma2:2b")
    dreaming_ai.MemorySystem_init true [].

Definition dream_down (k : nat) : dreaming_ai.dream_env :=
  dreaming_ai.mkDreamEnv (dreaming_ai.mkThoughtEnv k 0.9%Q backend_down)
    (5000 * Z.of_nat k) (5000 * Z.of_nat k).

Definition engine_one_agent : multi_agent_system.ConversationEngine :=
  multi_agent_system.add_agent
    (multi_agent_system.ConversationEngine_init "http://localhost:11434")
    agent_A.

Definition engine_two_agents : multi_agent_system.ConversationEngine :=
  multi_agent_system.add_agent engine_one_agent agent_B.

(** The conversation "c" started at clock 1000 on a topic. *)
Definition started (engine : multi_agent_system.ConversationEngine)
    : multi_agent_system.ConversationEngine :=
  fst (multi_agent_system.start_conversation engine (start_at 1000) "c"
         (Some "ocean + time")).

(** The memories a program can build: a new one, then thoughts and golden
    thoughts added in any order. *)
Inductive memory_reachable : dreaming_ai.MemorySystem -> Prop :=
| mem_init : memory_reachable dreaming_ai.MemorySystem_init
| mem_add_thought self thought :
    memory_reachable self ->
    memory_reachable (dreaming_ai.add_thought self thought)
| mem_add_golden_thought self thought context :
    memory_reachable self ->
    memory_reachable (dreaming_ai.add_golden_thought self thought context).

(** The last record of a sequence that carries a given id. *)
Definition last_with_id (i : string) (records : list dreaming_ai.Thought)
    : option dreaming_ai.Thought :=
  last_opt (with_id i records).

(** Row [a] is at least as good as row [b]: a higher score, or the same score
    and no earlier a time. *)
Definition golden_order (a b : dreaming_ai.golden_row) : Prop :=
  (dreaming_ai.g_interest_score b < dreaming_ai.g_interest_score a)%Q \/
  ((dreaming_ai.g_interest_score a == dreaming_ai.g_interest_score b)%Q /\
   (dreaming_ai.g_timestamp b <= dreaming_ai.g_timestamp a)%Z).

(** Each thought of a session names the thought before it as its parent. *)
Definition lineage (session : list dreaming_ai.Thought) : Prop :=
  forall i t1 t2,
    nth_error session i = Some t1 ->
    nth_error session (S i) = Some t2 ->
    dreaming_ai.parent_id t2 = Some (dreaming_ai.id t1).

(** A backend that raises nothing but subclasses of [Exception], in the
    request and in the decoding of the body. *)
Definition raises_Exception_only (backend : Backend) : Prop :=
  forall request,
    match backend request with
    | Raise e => is_Exception e = true
    | Return response =>
        match json response with
        | Raise e => is_Exception e = true
        | Return _ => True
        end
    end.

(** A backend that answers every request of the single loop with a text. *)
Definition backend_says (text : string) : Backend :=
  fun _ => Return (mkResponse 200 (Return (JDict [("response", JStr text)]))).

(** A backend that answers every chat request with a text. *)
Definition backend_chats (text : string) : Backend :=
  fun _ =>
    Return (mkResponse 200
      (Return (JDict [("choices",
         JList [JDict [("message", JDict [("content", JStr text)])]])]))).

(** A dreamer that is not dreaming yet, and pass [k] of its loop when the
    backend answers with a text, at clock [5000 * k]. *)
Definition idle_dreamer (max_thoughts : Z) : dreaming_ai.DreamingAI :=
  dreaming_ai.mkDreamingAI max_thoughts
    (dreaming_ai.mkReasoningEngine "http://localhost:11434" "gemma2:2b")
    dreaming_ai.MemorySystem_init false [].

Definition dream_says (text : string) (k : nat) : dreaming_ai.dream_env :=
  dreaming_ai.mkDreamEnv
    (dreaming_ai.mkThoughtEnv k 0.9%Q (backend_says text))
    (5000 * Z.of_nat k) (5000 * Z.of_nat k).

(** The thought that pass number [thought_count] of the reasoning loop builds
    from a text, at a reading of the clock. *)
Definition reasoning_thought (self : dreaming_ai.DreamingAI) (ms now : Z)
    (thought_count : Z) (text : string) : dreaming_ai.Thought :=
  dreaming_ai.mkThought (dreaming_ai.thought_id ms thought_count) now text
    "reasoning"
    (option_map dreaming_ai.id
       (last_opt (dreaming_ai.get_recent_thoughts (dreaming_ai.memory self) 10)))
    0%Q [].

(** What [_process_thought] records of a thought: its score and, for a gold
    strike, its new type. *)
Definition processed (thought : dreaming_ai.Thought) : dreaming_ai.Thought :=
  let score := dreaming_ai.calculate_interest_score (dreaming_ai.content thought) in
  dreaming_ai.mkThought (dreaming_ai.id thought) (dreaming_ai.timestamp thought)
    (dreaming_ai.content thought)
    (if dreaming_ai.is_gold_strike (dreaming_ai.content thought) score
     then "gold_strike" else dreaming_ai.thought_type thought)
    (dreaming_ai.parent_id thought) score (dreaming_ai.tags thought).

(** Engine [self'] has what engine [self] had and possibly more: each
    conversation and the queue of [self] are the beginning of those of
    [self']. *)
Definition extends (self self' : multi_agent_system.ConversationEngine)
    : Prop :=
  (forall conversation_id,
     exists more,
       messages self' conversation_id
       = (messages self conversation_id ++ more)%list) /\
  exists more,
    multi_agent_system.message_queue self'
    = (multi_agent_system.message_queue self ++ more)%list.

(** Pass [k] of a conversation whose backend answers with a text. *)
Definition turns_chat (text : string) (k : nat) : multi_agent_system.turn_env :=
  multi_agent_system.mkTurnEnv k
    (multi_agent_system.mkResponseEnv 0.9%Q (backend_chats text) k)
    (2000 + 3000 * Z.of_nat k) (2000 + 3000 * Z.of_nat k).

(** A new system, before [_create_agents]: the configuration read, an engine
    without agents, empty tables. *)
Definition new_system (models : list string) (agent_count : Z)
    : multi_agent_system.MultiAgentSystem :=
  multi_agent_system.mkMultiAgentSystem models agent_count
    (multi_agent_system.ConversationEngine_init "http://localhost:11434")
    (multi_agent_system.mkMultiAgentMemory [] []).

(** Pass [i] of [_create_agents], all within the millisecond 1000. *)
Definition creates (i : nat) : multi_agent_system.create_env :=
  multi_agent_system.mkCreateEnv 1000
    (multi_agent_system.mkAgentEnv i (fun k => (i + 7 * k)%nat) i (S i)) 1000.

(** What [_create_agents] leaves of the agent of pass [i]: the agent is
    registered under the id of the pass, with the model of its turn in the
    round, and has a row in the table [agents]. *)
Definition created (envs : nat -> multi_agent_system.create_env)
    (self : multi_agent_system.MultiAgentSystem) (i : nat) : Prop :=
  let agent_id :=
    multi_agent_system.new_agent_id
      (multi_agent_system.create_ms (envs i)) i in
  exists agent,
    get (multi_agent_system.agents
           (multi_agent_system.conversation_engine self)) agent_id
      = Some agent /\
    multi_agent_system.Agent.id agent = agent_id /\
    multi_agent_system.model_for (multi_agent_system.models self) i
      = Return (multi_agent_system.Agent.model agent) /\
    exists row,
      In row (multi_agent_system.agents_table
                (multi_agent_system.memory self)) /\
      multi_agent_system.row_id row = agent_id /\
      multi_agent_system.row_model row
        = multi_agent_system.Agent.model agent.

(** A method that answers every call with the same text. *)
Definition always_answers (text : string) : multi_agent_system.response_method :=
  fun _ _ _ _ => Return text.

(** The speakers of a conversation, in order. *)
Definition speakers (self : multi_agent_system.ConversationEngine)
    (conversation_id : string) : list string :=
  map multi_agent_system.AgentMessage.agent_id (messages self conversation_id).

(** The concept that draw [k] of a seeder picks. *)
Definition concept_drawn (env : dreaming_ai.seeder_env) (k : nat)
    : result string :=
  choice (dreaming_ai.draw_concept env k)
    (dreaming_ai.abstract_concepts ++ dreaming_ai.concrete_concepts)%list.

(** A seeder that combines concepts and draws the same one three times
    before another. *)
Definition seeder_repeats : dreaming_ai.seeder_env :=
  dreaming_ai.mkSeederEnv 0 (fun k => if (k <? 3)%nat then 21 else 15)%nat
    0 0 "10:15" "Monday" "10:15:42".

End Spec.

(** * Properties *)

(** ** The built-ins *)

Section PyFacts.

Import Py.
Local Open Scope string_scope.

Lemma prefix_app (sub s : string) :
  prefix sub s = true <-> exists post, s = sub ++ post.
Proof.
  revert s; induction sub as [|c sub IH]; intros s; simpl.
  - split; [intros _; now exists s | now destruct s].
  - destruct s as [|d s]; simpl.
    + split; [discriminate | intros [post H]; discriminate].
    + destruct (ascii_dec c d) as [->|Hcd].
      * rewrite IH; split; intros [post H]; exists post; congruence.
      * split; [discriminate | intros [post H]; congruence].
Qed.

(** [contains] is the substring test of [in]. *)
Lemma contains_spec (sub s : string) :
  contains sub s = true <-> exists pre post, s = pre ++ sub ++ post.
Proof.
  induction s as [|d s IH]; cbn [contains].
  - rewrite orb_false_r, prefix_app; split.
    + intros [post H]; now exists "", post.
    + intros [pre [post H]]; destruct pre; simpl in H; [now exists post | discriminate].
  - rewrite orb_true_iff, prefix_app, IH; split.
    + intros [[post H] | [pre [post H]]].
      * now exists "", post.
      * exists (String d pre), post; simpl; now rewrite H.
    + intros [pre [post H]]; destruct pre as [|c pre]; simpl in H.
      * left; now exists post.
      * right; exists pre, post; congruence.
Qed.

Lemma has_char_app (c : ascii) (s1 s2 : string) :
  has_char c (s1 ++ s2) = has_char c s1 || has_char c s2.
Proof.
  induction s1 as [|d s1 IH]; simpl; [reflexivity|].
  now rewrite IH, orb_assoc.
Qed.

Lemma contains_has_char (c : ascii) (sub s : string) :
  contains sub s = true -> has_char c sub = true -> has_char c s = true.
Proof.
  rewrite contains_spec; intros [pre [post ->]] H.
  rewrite !has_char_app, H; now rewrite orb_true_r.
Qed.

Lemma lower_ascii_not_upper (c d : ascii) :
  (65 <=? nat_of_ascii d)%nat && (nat_of_ascii d <=? 90)%nat = true ->
  Ascii.eqb (lower_ascii c) d = false.
Proof.
  intros Hd; apply Ascii.eqb_neq; intros <-.
  revert Hd.
  destruct c as [[] [] [] [] [] [] [] []]; vm_compute; discriminate.
Qed.

(** A lowered text holds no capital letter. *)
Lemma lower_no_upper (d : ascii) (s : string) :
  (65 <=? nat_of_ascii d)%nat && (nat_of_ascii d <=? 90)%nat = true ->
  has_char d (lower s) = false.
Proof.
  intros Hd; induction s as [|c s IH]; simpl; [reflexivity|].
  now rewrite IH, lower_ascii_not_upper.
Qed.

(** A keyword with a capital letter is never found in a lowered text. *)
Lemma contains_lower_upper (d : ascii) (keyword s : string) :
  (65 <=? nat_of_ascii d)%nat && (nat_of_ascii d <=? 90)%nat = true ->
  has_char d keyword = true ->
  contains keyword (lower s) = false.
Proof.
  intros Hd Hk.
  destruct (contains keyword (lower s)) eqn:E; [|reflexivity].
  apply (contains_has_char d) in E; [|exact Hk].
  now rewrite lower_no_upper in E.
Qed.

End PyFacts.

(** ** InterestDetector *)

Section InterestDetector.

Import Py dreaming_ai.
Local Open Scope string_scope.

Lemma Qgtb_lt (x y : Q) : Qgtb x y = true <-> (y < x)%Q.
Proof.
  unfold Qgtb; rewrite negb_true_iff; split.
  - intros H; apply Qnot_le_lt; intros Hle.
    apply Qle_bool_iff in Hle; congruence.
  - intros H; destruct (Qle_bool x y) eqn:E; [|reflexivity].
    apply Qle_bool_iff in E; exfalso; exact (Qlt_not_le _ _ H E).
Qed.

(** C1.  [is_gold_strike thought score] holds exactly when the score is above
    0.6 or one of the gold-strike indicators occurs in the lowered text; the
    text "this is a eureka moment" is gold at every score. *)
Theorem is_gold_strike_disjunction :
  (forall thought score,
     is_gold_strike thought score = true <->
     (0.6 < score)%Q \/
     exists indicator,
       In indicator gold_strike_indicators /\
       contains indicator (lower thought) = true) /\
  (forall score, is_gold_strike "this is a eureka moment" score = true).
Proof.
  split.
  - intros thought score; unfold is_gold_strike.
    rewrite orb_true_iff, Qgtb_lt, existsb_exists; reflexivity.
  - intros score; unfold is_gold_strike.
    apply orb_true_iff; right; vm_compute; reflexivity.
Qed.

Lemma add_keywords_nonneg (w : Q) (keywords : list string) (text : string)
    (score : Q) :
  (0 <= w)%Q -> (0 <= score)%Q -> (0 <= add_keywords w keywords text score)%Q.
Proof.
  intros Hw; unfold add_keywords; revert score.
  induction keywords as [|k ks IH]; intros score Hs; simpl; [exact Hs|].
  apply IH; destruct (contains k text); [|exact Hs].
  replace 0%Q with (0 + 0)%Q by reflexivity; now apply Qplus_le_compat.
Qed.

Lemma count_term_nonneg (n : nat) (w : Q) :
  (0 <= w)%Q -> (0 <= inject_Z (Z.of_nat n) * w)%Q.
Proof.
  intros Hw; apply Qmult_le_0_compat; [|exact Hw].
  change 0%Q with (inject_Z 0); rewrite <- Zle_Qle; lia.
Qed.

Lemma Qplus_nonneg (x y : Q) : (0 <= x)%Q -> (0 <= y)%Q -> (0 <= x + y)%Q.
Proof.
  intros Hx Hy; replace 0%Q with (0 + 0)%Q by reflexivity.
  now apply Qplus_le_compat.
Qed.

(** C2.  The interest score of every text lies between 0 and 1. *)
Theorem calculate_interest_score_bounds (thought : string) :
  (0 <= calculate_interest_score thought)%Q /\
  (calculate_interest_score thought <= 1)%Q.
Proof.
  unfold calculate_interest_score; split.
  - apply Q.min_glb; [|discriminate].
    repeat apply Qplus_nonneg;
      try (apply count_term_nonneg; discriminate).
    destruct (100 <? len thought)%nat.
    + apply Qplus_nonneg; [|discriminate].
      repeat apply add_keywords_nonneg; discriminate.
    + repeat apply add_keywords_nonneg; discriminate.
  - apply Q.le_min_r.
Qed.

End InterestDetector.

(** ** The score against the additive model *)

Section AdditiveModel.

Import Py dreaming_ai Spec.
Local Open Scope string_scope.

(** A keyword loop adds its weight once for each keyword found. *)
Lemma add_keywords_count (w : Q) (keywords : list string) (text : string)
    (score : Q) :
  (add_keywords w keywords text score ==
   score + inject_Z (Z.of_nat (List.length
             (filter (fun k => contains k text) keywords))) * w)%Q.
Proof.
  unfold add_keywords; revert score.
  induction keywords as [|k ks IH]; intros score; simpl.
  - ring.
  - rewrite IH; destruct (contains k text); simpl List.length; [|reflexivity].
    rewrite Nat2Z.inj_succ, <- Z.add_1_r, inject_Z_plus; ring.
Qed.

(** The generic keywords are in lower case: matching them in the lowered text
    is the case-insensitive match. *)
Lemma interest_keywords_ci (text : string) :
  filter (fun k => contains k (lower text)) interest_keywords =
  filter (fun k => occurs_ci k text) interest_keywords.
Proof.
  apply filter_ext_in; intros k Hk; unfold occurs_ci.
  unfold interest_keywords in Hk; simpl in Hk.
  repeat (destruct Hk as [<- | Hk]; [reflexivity|]); contradiction.
Qed.

(** The indicator "now I see" has a capital letter: the lowered text never
    holds it. *)
Lemma now_I_see_never_found (text : string) :
  contains "now I see" (lower text) = false.
Proof.
  apply (contains_lower_upper "I"); reflexivity.
Qed.

(** Away from the texts that say "now I see" in some casing, the indicators
    match as the case-insensitive match does. *)
Lemma gold_strike_indicators_ci (text : string) :
  contains "now i see" (lower text) = false ->
  filter (fun k => contains k (lower text)) gold_strike_indicators =
  filter (fun k => occurs_ci k text) gold_strike_indicators.
Proof.
  intros Hnow; apply filter_ext_in; intros k Hk; unfold occurs_ci.
  unfold gold_strike_indicators in Hk; simpl in Hk.
  repeat (destruct Hk as [<- | Hk];
          [first [reflexivity
                 | rewrite now_I_see_never_found; symmetry; exact Hnow]|]).
  contradiction.
Qed.

(** The score is the additive model on every text that does not say
    "now I see". *)
Lemma calculate_interest_score_additive (text : string) :
  contains "now i see" (lower text) = false ->
  (calculate_interest_score text == additive_model text)%Q.
Proof.
  intros Hnow; unfold calculate_interest_score, additive_model, occurring.
  apply Q.min_compat; [|reflexivity].
  rewrite <- interest_keywords_ci, <- (gold_strike_indicators_ci _ Hnow).
  destruct (100 <? len text)%nat;
    rewrite !add_keywords_count; ring.
Qed.

(** A text with no keyword, no mark and at most 100 characters scores 0. *)
Lemma plain_text_scores_zero :
  (calculate_interest_score "plain text" == 0)%Q.
Proof. reflexivity. Qed.

(** C3.  On the text "now I see" the additive model gives 0.5 for the
    breakthrough keyword "now I see", which the text holds letter for letter,
    and [calculate_interest_score] gives 0: the indicator is written with a
    capital letter and looked up in the lowered text. *)
Theorem now_I_see_scores_zero :
  contains "now I see" "now I see" = true /\
  In "now I see" gold_strike_indicators /\
  (calculate_interest_score "now I see" == 0)%Q /\
  (additive_model "now I see" == 0.5)%Q /\
  ~ (calculate_interest_score "now I see" == additive_model "now I see")%Q.
Proof.
  split; [reflexivity|]; split; [simpl; tauto|].
  split; [reflexivity|]; split; [reflexivity|].
  intros H; vm_compute in H; discriminate.
Qed.

End AdditiveModel.

(** ** MemorySystem *)

Section MemorySystem.

Import Py dreaming_ai Spec.
Local Open Scope string_scope.

Lemma lastn_length {A} (n : nat) (l : list A) :
  List.length (lastn n l) = Nat.min n (List.length l).
Proof. unfold lastn; rewrite length_skipn; lia. Qed.

Lemma lastn_all {A} (n : nat) (l : list A) :
  (List.length l <= n)%nat -> lastn n l = l.
Proof.
  intros H; unfold lastn.
  replace (List.length l - n)%nat with 0%nat by lia; reflexivity.
Qed.

Lemma lastn_app_lastn {A} (n : nat) (a b : list A) :
  lastn n (lastn n a ++ b) = lastn n (a ++ b).
Proof.
  destruct (Nat.le_gt_cases (List.length a) n) as [Hle | Hgt].
  - now rewrite (lastn_all a Hle).
  - unfold lastn at 1 3.
    rewrite !length_app, lastn_length.
    replace (Nat.min n (List.length a) + List.length b - n)%nat
      with (List.length b) by lia.
    replace (List.length a + List.length b - n)%nat
      with (List.length b + (List.length a - n))%nat by lia.
    rewrite <- skipn_skipn, (skipn_app (List.length a - n) a b).
    replace (List.length a - n - List.length a)%nat with 0%nat by lia.
    reflexivity.
Qed.

Lemma lastn_lastn {A} (i j : nat) (l : list A) :
  lastn i (lastn j l) = lastn (Nat.min i j) l.
Proof.
  unfold lastn at 1; rewrite lastn_length.
  unfold lastn; rewrite skipn_skipn; f_equal; lia.
Qed.

(** The buffer keeps the [max_short_term] most recent records. *)
Lemma add_thought_buffer (self : MemorySystem) (thought : Thought) :
  (List.length (short_term_memory self) <= Z.to_nat (max_short_term self))%nat ->
  short_term_memory (add_thought self thought) =
  lastn (Z.to_nat (max_short_term self)) (short_term_memory self ++ [thought]).
Proof.
  intros H; unfold add_thought; simpl.
  rewrite length_app; simpl List.length.
  destruct (Z.gtb_spec (Z.of_nat (List.length (short_term_memory self) + 1))
                       (max_short_term self)) as [Hgt | Hle].
  - unfold lastn, pop0; rewrite length_app; simpl List.length.
    replace (List.length (short_term_memory self) + 1
             - Z.to_nat (max_short_term self))%nat with 1%nat by lia.
    reflexivity.
  - symmetry; apply lastn_all; rewrite length_app; simpl; lia.
Qed.

Lemma add_thought_max (self : MemorySystem) (thought : Thought) :
  max_short_term (add_thought self thought) = max_short_term self.
Proof. reflexivity. Qed.

Lemma add_all_buffer (records : list Thought) (self : MemorySystem) :
  (List.length (short_term_memory self) <= Z.to_nat (max_short_term self))%nat ->
  max_short_term (add_all self records) = max_short_term self /\
  short_term_memory (add_all self records) =
  lastn (Z.to_nat (max_short_term self)) (short_term_memory self ++ records).
Proof.
  revert self; induction records as [|r rs IH]; intros self H; simpl.
  - split; [reflexivity|]. rewrite app_nil_r; symmetry; now apply lastn_all.
  - unfold add_all in *; simpl.
    destruct (IH (add_thought self r)) as [Hmax Hbuf].
    + rewrite add_thought_buffer, add_thought_max, lastn_length by exact H; lia.
    + rewrite Hmax, Hbuf, add_thought_max, add_thought_buffer by exact H.
      split; [reflexivity|].
      now rewrite lastn_app_lastn, <- app_assoc.
Qed.

(** For a limit of at least 1, [get_recent_thoughts] is the last [limit]
    entries of the buffer. *)
Lemma get_recent_thoughts_lastn (self : MemorySystem) (limit : Z) :
  (1 <= limit)%Z ->
  get_recent_thoughts self limit = lastn (Z.to_nat limit) (short_term_memory self).
Proof.
  intros H; unfold get_recent_thoughts, slice_from, lastn.
  destruct (Z.ltb_spec (- limit) 0); [|lia].
  f_equal; lia.
Qed.

(** After more than [cap] additions to a memory whose buffer was empty, a
    limit [n] of at least 1 gives the [min n cap] most recent records, and
    only those. *)
Lemma get_recent_thoughts_after_adds (self : MemorySystem)
    (records : list Thought) (n : Z) :
  short_term_memory self = [] ->
  (1 <= n)%Z ->
  (max_short_term self < Z.of_nat (List.length records))%Z ->
  let cap := max_short_term self in
  get_recent_thoughts (add_all self records) n =
    lastn (Z.to_nat (Z.min n cap)) records /\
  List.length (get_recent_thoughts (add_all self records) n) =
    Z.to_nat (Z.min n cap).
Proof.
  intros Hempty Hn Hk cap.
  destruct (add_all_buffer records self) as [_ Hbuf];
    [rewrite Hempty; simpl; lia|].
  assert (E : get_recent_thoughts (add_all self records) n =
              lastn (Z.to_nat (Z.min n cap)) records).
  { rewrite get_recent_thoughts_lastn, Hbuf, lastn_lastn, Hempty by exact Hn.
    simpl app; f_equal; subst cap; lia. }
  split; [exact E|].
  rewrite E, lastn_length; subst cap; lia.
Qed.

(** The default capacity: 25 additions, the 7 most recent asked for. *)
Example get_recent_thoughts_7_of_25 :
  get_recent_thoughts (add_all MemorySystem_init (samples 25)) 7
  = lastn 7 (samples 25).
Proof.
  apply (@get_recent_thoughts_after_adds MemorySystem_init (samples 25) 7);
    [reflexivity | lia | simpl; lia].
Qed.

End MemorySystem.

Section MemoryClaims.

Import Py dreaming_ai Spec.
Local Open Scope string_scope.

(** With a limit of 0 the slice [[-0:]] is the whole buffer. *)
Lemma get_recent_thoughts_zero (self : MemorySystem) :
  get_recent_thoughts self 0 = short_term_memory self.
Proof.
  unfold get_recent_thoughts, slice_from; simpl.
  rewrite Z.min_l by lia; reflexivity.
Qed.

(** C6.  After 21 additions to a new memory, whose capacity is 20,
    [get_recent_thoughts] with a limit of 0 returns the 20 records of the
    buffer, where [min 0 20] records are none. *)
Theorem get_recent_thoughts_zero_limit :
  let memory := add_all MemorySystem_init (samples 21) in
  get_recent_thoughts memory 0 = lastn 20 (samples 21) /\
  List.length (get_recent_thoughts memory 0) = 20%nat /\
  Z.to_nat (Z.min 0 (max_short_term memory)) = 0%nat.
Proof. vm_compute; repeat split. Qed.

Lemma with_id_insert_or_replace (row : Thought) (table : list Thought) :
  with_id (id row) (insert_or_replace id row table) = [row].
Proof.
  unfold with_id, insert_or_replace.
  rewrite filter_app; simpl; rewrite String.eqb_refl.
  replace (filter _ (filter _ table)) with (@nil Thought); [reflexivity|].
  symmetry; induction table as [|r t IH]; simpl; [reflexivity|].
  destruct (String.eqb (id r) (id row)) eqn:E; simpl; [exact IH|].
  now rewrite E.
Qed.

(** After [add_thought], the table holds exactly one row with the id of the
    record, and the row is the record. *)
Lemma add_thought_row (self : MemorySystem) (thought : Thought) :
  with_id (id thought) (thoughts (add_thought self thought)) = [thought].
Proof. apply with_id_insert_or_replace. Qed.

(** C7.  Two additions with one id and two contents leave in the table
    [thoughts] exactly one row with that id, the second record; the first
    record is no longer a row. *)
Theorem add_thought_upsert (self : MemorySystem) (first second : Thought) :
  id first = id second ->
  content first <> content second ->
  let self' := add_thought (add_thought self first) second in
  with_id (id second) (thoughts self') = [second] /\
  ~ In first (thoughts self').
Proof.
  intros Hid Hcontent self'; subst self'.
  pose proof (add_thought_row (add_thought self first) second) as Hrow.
  split; [exact Hrow|].
  intros Hin.
  assert (Hf : In first (with_id (id second)
                 (thoughts (add_thought (add_thought self first) second)))).
  { unfold with_id; apply filter_In; split; [exact Hin|].
    rewrite Hid; apply String.eqb_refl. }
  rewrite Hrow in Hf; destruct Hf as [E | []].
  apply Hcontent; now rewrite E.
Qed.

Lemma add_thought_upsert_witness :
  let first := sample 1 "first text" in
  let second := sample 1 "second text" in
  let self' := add_thought (add_thought MemorySystem_init first) second in
  with_id (id second) (thoughts self') = [second] /\
  ~ In first (thoughts self').
Proof.
  apply (@add_thought_upsert MemorySystem_init
           (sample 1 "first text") (sample 1 "second text")).
  - reflexivity.
  - simpl; discriminate.
Defined.

(** C10.  [add_thought] with a record whose id is already in the buffer
    appends a further entry: the buffer is the old one followed by the
    record, without its oldest entry when that exceeds the capacity.  Below
    the capacity the buffer is one longer, [get_recent_thoughts] returns at
    least two entries with the id, and the table holds one row with it. *)
Theorem add_thought_repeats_id_in_buffer (self : MemorySystem)
    (thought : Thought) :
  In (id thought) (map id (short_term_memory self)) ->
  let self' := add_thought self thought in
  let appended := (short_term_memory self ++ [thought])%list in
  short_term_memory self' =
    (if (Z.of_nat (List.length appended) >? max_short_term self)%Z
     then pop0 appended else appended) /\
  List.length (with_id (id thought) (thoughts self')) = 1%nat /\
  ((Z.of_nat (List.length (short_term_memory self)) < max_short_term self)%Z ->
   List.length (short_term_memory self') =
     S (List.length (short_term_memory self)) /\
   (2 <= List.length
           (with_id (id thought)
              (get_recent_thoughts self'
                 (Z.of_nat (List.length (short_term_memory self')))))))%nat.
Proof.
  intros Hin self' appended; subst self' appended.
  split; [reflexivity|]; split; [now rewrite add_thought_row|].
  intros Hroom.
  assert (E : short_term_memory (add_thought self thought) =
              (short_term_memory self ++ [thought])%list).
  { unfold add_thought; simpl.
    rewrite length_app; simpl List.length.
    destruct (Z.gtb_spec (Z.of_nat (List.length (short_term_memory self) + 1))
                         (max_short_term self)); [lia | reflexivity]. }
  split; [rewrite E, length_app; simpl; lia|].
  rewrite get_recent_thoughts_lastn
    by (rewrite E, length_app; simpl; lia).
  rewrite lastn_all by lia.
  rewrite E; unfold with_id; rewrite filter_app, length_app; simpl.
  rewrite String.eqb_refl; simpl.
  apply in_map_iff in Hin; destruct Hin as [old [Hid Hold]].
  assert (Hf : In old (filter (fun r => String.eqb (id r) (id thought))
                         (short_term_memory self))).
  { apply filter_In; split; [exact Hold|]. rewrite Hid; apply String.eqb_refl. }
  destruct (filter _ (short_term_memory self)); [destruct Hf | simpl; lia].
Qed.

Lemma add_thought_repeats_id_in_buffer_witness :
  let self := add_thought MemorySystem_init (sample 1 "first text") in
  let thought := sample 1 "second text" in
  let self' := add_thought self thought in
  List.length (with_id (id thought) (thoughts self')) = 1%nat /\
  List.length (short_term_memory self') = 2%nat /\
  (2 <= List.length (with_id (id thought) (get_recent_thoughts self' 2)))%nat.
Proof.
  destruct (@add_thought_repeats_id_in_buffer
              (add_thought MemorySystem_init (sample 1 "first text"))
              (sample 1 "second text") (or_introl eq_refl))
    as [_ [Hrow Hroom]].
  destruct (Hroom ltac:(simpl; lia)) as [Hlen Htwo].
  split; [exact Hrow|]; split; [exact Hlen | exact Htwo].
Defined.

End MemoryClaims.

(** ** Dictionaries and lists *)

Section DictFacts.

Import Py.
Local Open Scope string_scope.

Context {V : Type}.
Implicit Types (d : dict V) (k : string) (v : V).

Lemma get_set d k k' v :
  get (set d k v) k' = if String.eqb k k' then Some v else get d k'.
Proof.
  induction d as [|[k0 v0] d IH]; simpl.
  - reflexivity.
  - destruct (String.eqb_spec k0 k) as [->|Hne]; simpl.
    + destruct (String.eqb k k'); reflexivity.
    + rewrite IH. destruct (String.eqb_spec k0 k') as [->|Hne'].
      * destruct (String.eqb_spec k k'); [congruence | reflexivity].
      * reflexivity.
Qed.

Lemma get_In d k v : get d k = Some v -> In (k, v) d.
Proof.
  induction d as [|[k0 v0] d IH]; simpl; [discriminate|].
  destruct (String.eqb_spec k0 k) as [->|Hne].
  - intros [= ->]; now left.
  - intros H; right; auto.
Qed.

Lemma get_None_keys d k : get d k = None -> ~ In k (map fst d).
Proof.
  induction d as [|[k0 v0] d IH]; simpl; [tauto|].
  destruct (String.eqb_spec k0 k) as [->|Hne]; [discriminate|].
  intros H [E | Hin]; [congruence | now apply IH].
Qed.

(** Assigning to a key that is present keeps the keys and their order. *)
Lemma set_keys_present d k v :
  In k (map fst d) -> map fst (set d k v) = map fst d.
Proof.
  induction d as [|[k0 v0] d IH]; simpl; [tauto|].
  destruct (String.eqb_spec k0 k) as [->|Hne]; simpl; [reflexivity|].
  intros [E | Hin]; [congruence | now rewrite IH].
Qed.

(** Assigning to a new key adds it after the others. *)
Lemma set_keys_absent d k v :
  ~ In k (map fst d) -> map fst (set d k v) = (map fst d ++ [k])%list.
Proof.
  induction d as [|[k0 v0] d IH]; simpl; [reflexivity|].
  destruct (String.eqb_spec k0 k) as [->|Hne]; simpl; [tauto|].
  intros H; rewrite IH; tauto.
Qed.

Lemma set_keys_incl d k k' v :
  In k' (map fst d) -> In k' (map fst (set d k v)).
Proof.
  destruct (in_dec string_dec k (map fst d)) as [Hin | Hout].
  - now rewrite set_keys_present.
  - rewrite set_keys_absent by exact Hout; intros H; apply in_or_app; now left.
Qed.

Lemma set_keys_NoDup d k v :
  NoDup (map fst d) -> NoDup (map fst (set d k v)).
Proof.
  intros Hnd; destruct (in_dec string_dec k (map fst d)) as [Hin | Hout].
  - now rewrite set_keys_present.
  - rewrite set_keys_absent by exact Hout.
    apply NoDup_app; repeat split; try assumption.
    + constructor; [tauto | constructor].
    + intros x Hx [<- | []]; tauto.
Qed.

Lemma set_In d k v k' v' :
  In (k', v') (set d k v) -> (k' = k /\ v' = v) \/ In (k', v') d.
Proof.
  induction d as [|[k0 v0] d IH]; simpl.
  - intros [[= -> ->] | []]; now left.
  - destruct (String.eqb_spec k0 k) as [->|Hne]; simpl.
    + intros [[= -> ->] | Hin]; [now left | right; now right].
    + intros [E | Hin]; [right; now left|].
      destruct (IH Hin) as [H | H]; [now left | right; now right].
Qed.

Lemma last_opt_app {A} (l : list A) (x : A) : last_opt (l ++ [x]) = Some x.
Proof. unfold last_opt; now rewrite rev_app_distr. Qed.

Lemma last_opt_In {A} (l : list A) (x : A) : last_opt l = Some x -> In x l.
Proof.
  unfold last_opt; intros H; apply in_rev.
  destruct (rev l); [discriminate | injection H as ->; now left].
Qed.

Lemma last_opt_nonempty {A} (l : list A) :
  l <> [] -> exists x, last_opt l = Some x.
Proof.
  destruct l as [|a l] using rev_ind; [congruence|].
  intros _; exists a; apply last_opt_app.
Qed.

Lemma choice_In {A} (r : nat) (l : list A) (a : A) :
  choice r l = Return a -> In a l.
Proof.
  unfold choice; destruct (nth_error l (r mod List.length l)) eqn:E;
    [|discriminate].
  intros [= <-]; eapply nth_error_In; exact E.
Qed.

Lemma choice_nonempty {A} (r : nat) (l : list A) :
  l <> [] -> exists a, choice r l = Return a /\ In a l.
Proof.
  intros Hl; unfold choice.
  destruct (nth_error l (r mod List.length l)) eqn:E.
  - exists a; split; [reflexivity | eapply nth_error_In; exact E].
  - apply nth_error_None in E.
    assert (List.length l <> 0)%nat by (destruct l; simpl; congruence).
    pose proof (Nat.mod_upper_bound r (List.length l)); lia.
Qed.

End DictFacts.

(** ** Backend failure *)

Section BackendFailure.

Import Py Spec.
Local Open Scope string_scope.

(** The [try] block around a request that fails: the branch of the status
    other than 200, or the [except] clause. *)
Lemma try_failed_request {A} (r : result Response)
    (ok : Response -> result A) (other : result A) (handler : exn -> result A) :
  failed r ->
  try_except_Exception
    (response <- r ;;
     if (status_code response =? 200)%Z then ok response else other)
    handler =
  match r with
  | Return _ => try_except_Exception other handler
  | Raise e => handler e
  end.
Proof.
  destruct r as [response | e]; simpl; intros H.
  - destruct (Z.eqb_spec (status_code response) 200); [contradiction | reflexivity].
  - now rewrite H.
Qed.

Lemma choice_reasoning_mode (r : nat) :
  exists m, choice r dreaming_ai.reasoning_modes = Return m.
Proof.
  destruct (@choice_nonempty _ r dreaming_ai.reasoning_modes) as [m [H _]];
    [discriminate | now exists m].
Qed.

Lemma choice_fallback (r : nat) :
  exists s, choice r multi_agent_system.fallbacks = Return s /\
            In s multi_agent_system.fallbacks /\ truthy s = true.
Proof.
  destruct (@choice_nonempty _ r multi_agent_system.fallbacks) as [s [H Hin]];
    [discriminate|].
  exists s; repeat split; try assumption.
  unfold multi_agent_system.fallbacks in Hin; simpl in Hin.
  repeat (destruct Hin as [<- | Hin]; [reflexivity|]); contradiction.
Qed.

(** A timeout gives the sentence of the [except] clause, a status 500 the
    sentence of the [else] branch. *)
Example generate_thought_backend_down :
  dreaming_ai.generate_thought
    (dreaming_ai.reasoning_engine (dreamer 4))
    (dreaming_ai.mkThoughtEnv 0 0.9%Q backend_down) (samples 2) None
  = Return dreaming_ai.filler_exception.
Proof. reflexivity. Qed.

Example generate_thought_backend_500 :
  dreaming_ai.generate_thought
    (dreaming_ai.reasoning_engine (dreamer 4))
    (dreaming_ai.mkThoughtEnv 0 0.9%Q backend_500) (samples 2)
    (Some "logical_deduction")
  = Return dreaming_ai.filler_api_error.
Proof. reflexivity. Qed.

(** When the backend fails, [generate_thought] returns one of its two canned
    sentences. *)
Lemma generate_thought_failing (self : dreaming_ai.ReasoningEngine)
    (env : dreaming_ai.thought_env) (context : list dreaming_ai.Thought)
    (mode : option string) :
  failing (dreaming_ai.backend env) ->
  dreaming_ai.generate_thought self env context mode
    = Return dreaming_ai.filler_api_error \/
  dreaming_ai.generate_thought self env context mode
    = Return dreaming_ai.filler_exception.
Proof.
  intros Hfail; unfold dreaming_ai.generate_thought.
  assert (Hmode : exists m,
            match mode with
            | None => choice (dreaming_ai.draw_mode env) dreaming_ai.reasoning_modes
            | Some m => Return m
            end = Return m).
  { destruct mode as [m|]; [now exists m | apply choice_reasoning_mode]. }
  destruct Hmode as [m ->]; cbn [bind].
  rewrite try_failed_request by apply Hfail.
  match goal with |- context [dreaming_ai.backend env ?req] =>
    destruct (dreaming_ai.backend env req) end; [left | right]; reflexivity.
Qed.

(** Before any message was said, [generate_response] under a failing backend
    returns one of the six fallback sentences. *)
Lemma generate_response_failing (self : multi_agent_system.ConversationEngine)
    (env : multi_agent_system.response_env) (agent : multi_agent_system.Agent.t) :
  failing (multi_agent_system.backend env) ->
  exists s,
    multi_agent_system.generate_response self env agent [] = Return s /\
    In s multi_agent_system.fallbacks /\ truthy s = true.
Proof.
  intros Hfail; unfold multi_agent_system.generate_response.
  change (slice_from (-5) (@nil multi_agent_system.AgentMessage.t))
    with (@nil multi_agent_system.AgentMessage.t).
  cbn [multi_agent_system.build_context fold_left bind].
  rewrite try_failed_request by apply Hfail.
  destruct (choice_fallback (multi_agent_system.draw_fallback env))
    as [s [Hs [Hin Ht]]].
  exists s; split; [|now split].
  unfold multi_agent_system._fallback_response; rewrite Hs.
  match goal with |- context [multi_agent_system.backend env ?req] =>
    destruct (multi_agent_system.backend env req) end; reflexivity.
Qed.

Lemma fold_left_raised {A B} (f : result A -> B -> result A) (l : list B)
    (e : exn) :
  (forall b, f (Raise e) b = Raise e) -> fold_left f l (Raise e) = Raise e.
Proof.
  intros Hf; induction l as [|b l IH]; simpl; [reflexivity|].
  now rewrite Hf.
Qed.

(** Building the context of a history that has a message raises [TypeError]. *)
Lemma build_context_raises (self : multi_agent_system.ConversationEngine)
    (recent_messages : list multi_agent_system.AgentMessage.t) :
  recent_messages <> [] ->
  multi_agent_system.build_context self recent_messages = Raise TypeError.
Proof.
  destruct recent_messages as [|msg rest]; [congruence|]; intros _.
  unfold multi_agent_system.build_context; cbn [fold_left bind].
  cbn [multi_agent_system.Agent_init].
  now apply fold_left_raised.
Qed.

Lemma slice_from_nonempty {A} (n : Z) (l : list A) :
  (n < 0)%Z -> l <> [] -> slice_from n l <> [].
Proof.
  intros Hn Hl; unfold slice_from.
  destruct (Z.ltb_spec n 0); [|lia].
  intros E; apply (f_equal (@List.length A)) in E.
  rewrite length_skipn in E; simpl in E.
  assert (List.length l <> 0)%nat by (destruct l; simpl; congruence).
  lia.
Qed.

(** Once a conversation has a message, [generate_response] raises
    [TypeError], before the request is made and whatever the backend would
    answer. *)
Lemma generate_response_raises (self : multi_agent_system.ConversationEngine)
    (env : multi_agent_system.response_env) (agent : multi_agent_system.Agent.t)
    (history : list multi_agent_system.AgentMessage.t) :
  history <> [] ->
  multi_agent_system.generate_response self env agent history = Raise TypeError.
Proof.
  intros Hne; unfold multi_agent_system.generate_response.
  rewrite build_context_raises; [reflexivity|].
  apply slice_from_nonempty; [lia | exact Hne].
Qed.

End BackendFailure.

(** ** ConversationEngine: one pass of the loop *)

Section Turn.

Import Py Spec multi_agent_system.
Local Open Scope string_scope.

Lemma no_consecutive_speaker_app (conversation : list AgentMessage.t)
    (msg : AgentMessage.t) :
  no_consecutive_speaker conversation ->
  (forall m, last_opt conversation = Some m ->
             AgentMessage.agent_id m <> AgentMessage.agent_id msg) ->
  no_consecutive_speaker (conversation ++ [msg]).
Proof.
  intros Hc Hlast i m1 m2 H1 H2.
  assert (Hi : (S i < List.length (conversation ++ [msg]))%nat)
    by (apply nth_error_Some; congruence).
  rewrite length_app in Hi; simpl in Hi.
  destruct (Nat.eq_dec (S i) (List.length conversation)) as [E | Hne].
  - rewrite nth_error_app2, E, Nat.sub_diag in H2 by lia.
    injection H2 as <-.
    destruct conversation as [|x c _] using rev_ind; [discriminate|].
    rewrite length_app in E; simpl in E.
    rewrite nth_error_app1 in H1 by (rewrite length_app; simpl; lia).
    rewrite nth_error_app2 in H1 by lia.
    replace (i - List.length c)%nat with 0%nat in H1 by lia.
    injection H1 as <-.
    apply Hlast, last_opt_app.
  - rewrite nth_error_app1 in H1, H2 by lia.
    exact (Hc i m1 m2 H1 H2).
Qed.

Lemma no_consecutive_speaker_short (conversation : list AgentMessage.t) :
  (List.length conversation <= 1)%nat -> no_consecutive_speaker conversation.
Proof.
  intros H i m1 m2 _ H2.
  assert (S i < List.length conversation)%nat by (apply nth_error_Some; congruence).
  lia.
Qed.

(** A candidate speaker is a stored agent other than the last speaker. *)
Lemma available_agents_In (self : ConversationEngine)
    (last_speaker : option string) (key : string) (agent : Agent.t) :
  In (key, agent) (available_agents self last_speaker) ->
  In (key, agent) (agents self) /\
  forall s, last_speaker = Some s -> Agent.id agent <> s.
Proof.
  unfold available_agents; rewrite filter_In; simpl; intros [Hin Hf].
  split; [exact Hin|].
  intros s ->; apply negb_true_iff in Hf; now apply String.eqb_neq.
Qed.

(** The ways a pass can end: [break], nothing appended for an empty answer,
    or the message of a candidate speaker appended. *)
Lemma turn_cases (self : ConversationEngine) (env : turn_env)
    (conversation_id : string) (exchanges : Z) :
  match turn self env conversation_id exchanges with
  | Return Break => True
  | Return (Continue self' exchanges') =>
      (self' = self /\ exchanges' = exchanges) \/
      exists key agent msg,
        In (key, agent)
           (available_agents self
              (option_map AgentMessage.agent_id
                 (last_opt (messages self conversation_id)))) /\
        AgentMessage.agent_id msg = Agent.id agent /\
        AgentMessage.id msg = response_msg_id (turn_ms env) exchanges /\
        self' = remember (publish self conversation_id msg) key agent msg /\
        exchanges' = (exchanges + 1)%Z
  | Raise e => is_Exception e = false
  end.
Proof.
  unfold turn, turn_body; fold (messages self conversation_id).
  set (conv := messages self conversation_id).
  set (avail := available_agents self
                  (option_map AgentMessage.agent_id (last_opt conv))).
  destruct avail as [|a0 rest] eqn:Ea; [exact I|].
  rewrite <- Ea; clear Ea.
  destruct (choice (draw_next env) avail) as [[key agent] | e] eqn:Ec;
    cbn [bind].
  2:{ simpl; destruct (is_Exception e) eqn:E; [exact I | exact E]. }
  simpl snd; simpl fst.
  destruct (generate_response self (respond env) agent conv) as [s | e];
    cbn [bind].
  2:{ simpl; destruct (is_Exception e) eqn:E; [exact I | exact E]. }
  destruct (truthy s); simpl.
  - right; exists key, agent.
    exists (AgentMessage.mk (response_msg_id (turn_ms env) exchanges)
              (turn_now env) (Agent.id agent) s
              (option_map AgentMessage.id (last_opt conv))
              conversation_id 0%Q).
    split; [exact (choice_In _ _ Ec) | repeat split].
  - now left.
Qed.

Lemma Forall_set {V} (P : string * V -> Prop) (d : dict V) (k : string) (v : V) :
  Forall P d -> P (k, v) -> Forall P (set d k v).
Proof.
  intros Hd Hv; apply Forall_forall; intros [k' v'] Hin.
  destruct (set_In _ _ _ _ _ Hin) as [[-> ->] | Hold]; [exact Hv|].
  rewrite Forall_forall in Hd; now apply Hd.
Qed.

(** Appending the message of a candidate speaker keeps the invariant. *)
Lemma engine_inv_exchange (self : ConversationEngine) (conversation_id : string)
    (key : string) (agent : Agent.t) (msg : AgentMessage.t) :
  engine_inv self ->
  In (key, agent)
     (available_agents self
        (option_map AgentMessage.agent_id
           (last_opt (messages self conversation_id)))) ->
  AgentMessage.agent_id msg = Agent.id agent ->
  engine_inv (remember (publish self conversation_id msg) key agent msg).
Proof.
  intros [Hnd [Hids Hconv]] Hav Hmsg.
  apply available_agents_In in Hav; destruct Hav as [Hin Hlast].
  assert (Hkey : Agent.id agent = key).
  { rewrite Forall_forall in Hids; exact (Hids _ Hin). }
  assert (Hk : In key (map fst (agents self))).
  { apply in_map_iff; now exists (key, agent). }
  unfold engine_inv, remember, publish; simpl.
  rewrite set_keys_present by exact Hk.
  split; [exact Hnd|]; split; [apply Forall_set; [exact Hids | exact Hkey]|].
  intros cid conv; rewrite get_set.
  destruct (String.eqb_spec conversation_id cid) as [<-|Hne]; [|apply Hconv].
  intros [= <-]; fold (messages self conversation_id).
  assert (Hold : no_consecutive_speaker (messages self conversation_id) /\
                 Forall (fun m => In (AgentMessage.agent_id m)
                                     (map fst (agents self)))
                        (messages self conversation_id)).
  { unfold messages.
    destruct (get (conversations self) conversation_id) as [c|] eqn:E.
    - exact (Hconv _ _ E).
    - split; [apply no_consecutive_speaker_short; simpl; lia | constructor]. }
  destruct Hold as [Halt Hsp]; split.
  - apply no_consecutive_speaker_app; [exact Halt|].
    intros m Hm Heq; apply (Hlast (AgentMessage.agent_id m)).
    + now rewrite Hm.
    + congruence.
  - apply Forall_app; split; [exact Hsp|].
    constructor; [|constructor]. rewrite Hmsg, Hkey; exact Hk.
Qed.

Lemma engine_inv_turn (self self' : ConversationEngine) (env : turn_env)
    (conversation_id : string) (exchanges exchanges' : Z) :
  engine_inv self ->
  turn self env conversation_id exchanges = Return (Continue self' exchanges') ->
  engine_inv self'.
Proof.
  intros Hinv Hturn.
  pose proof (turn_cases self env conversation_id exchanges) as H.
  rewrite Hturn in H.
  destruct H as [[-> _] | [key [agent [msg [Hav [Hmsg [_ [-> _]]]]]]]];
    [exact Hinv | now apply engine_inv_exchange].
Qed.

Lemma engine_inv_process_while (fuel : nat) (envs : nat -> turn_env) (k : nat)
    (self : ConversationEngine) (conversation_id : string)
    (exchanges max_exchanges : Z) :
  engine_inv self ->
  engine_inv (state_of (process_while fuel envs k self conversation_id
                          exchanges max_exchanges)).
Proof.
  revert k self exchanges; induction fuel as [|fuel IH];
    intros k self exchanges Hinv; simpl.
  - destruct (exchanges <? max_exchanges)%Z; exact Hinv.
  - destruct (exchanges <? max_exchanges)%Z; [|exact Hinv].
    destruct (turn self (envs k) conversation_id exchanges)
      as [[|self' exchanges'] | e] eqn:Hturn; simpl; try exact Hinv.
    apply IH; eapply engine_inv_turn; eassumption.
Qed.

End Turn.

(** ** ConversationEngine: the invariant of the engines a program can build *)

Section Reachable.

Import Py Spec multi_agent_system.
Local Open Scope string_scope.

Lemma engine_inv_init (url : string) : engine_inv (ConversationEngine_init url).
Proof.
  unfold engine_inv; simpl; split; [constructor|]; split; [constructor|].
  discriminate.
Qed.

Lemma engine_inv_add_agent (self : ConversationEngine) (agent : Agent.t) :
  engine_inv self -> engine_inv (add_agent self agent).
Proof.
  intros [Hnd [Hids Hconv]]; unfold engine_inv, add_agent; simpl.
  split; [now apply set_keys_NoDup|].
  split; [apply Forall_set; [exact Hids | reflexivity]|].
  intros cid conv Hget; destruct (Hconv _ _ Hget) as [Halt Hsp].
  split; [exact Halt|].
  eapply Forall_impl; [|exact Hsp]; intros m; apply set_keys_incl.
Qed.

(** Storing a conversation that alternates and whose speakers are registered
    keeps the invariant. *)
Lemma engine_inv_store (self : ConversationEngine) (conversation_id : string)
    (conversation queue : list AgentMessage.t) :
  engine_inv self ->
  no_consecutive_speaker conversation ->
  Forall (fun m => In (AgentMessage.agent_id m) (map fst (agents self)))
         conversation ->
  engine_inv
    (mkConversationEngine (ollama_url self) (agents self)
       (set (conversations self) conversation_id conversation)
       queue (is_running self)).
Proof.
  intros [Hnd [Hids Hconv]] Halt Hsp; unfold engine_inv; simpl.
  split; [exact Hnd|]; split; [exact Hids|].
  intros cid conv; rewrite get_set.
  destruct (String.eqb conversation_id cid); [|apply Hconv].
  intros [= <-]; now split.
Qed.

Lemma values_In {V} (d : dict V) (v : V) :
  In v (values d) -> exists k, In (k, v) d.
Proof.
  unfold values; rewrite in_map_iff; intros [[k v'] [E Hin]].
  simpl in E; subst v'; now exists k.
Qed.

(** Publishing the seed message of an agent picked among the registered ones
    in a conversation that is still empty keeps the invariant. *)
Lemma engine_inv_seed (self : ConversationEngine) (conversation_id : string)
    (r : nat) (message_of : Agent.t -> AgentMessage.t) (A : Type)
    (a : A) (raised : exn -> A) :
  engine_inv self ->
  get (conversations self) conversation_id = Some [] ->
  (forall agent, AgentMessage.agent_id (message_of agent) = Agent.id agent) ->
  engine_inv
    (fst (match (first_agent <- choice r (values (agents self)) ;;
                 Return (message_of first_agent)) with
          | Return initial_message =>
              (publish self conversation_id initial_message, a)
          | Raise e => (self, raised e)
          end)).
Proof.
  intros Hinv Hget Hmsg.
  destruct (choice r (values (agents self))) as [first_agent | e] eqn:Ec;
    cbn [bind fst]; [|exact Hinv].
  unfold publish; rewrite Hget; simpl app.
  apply engine_inv_store; [exact Hinv | |].
  - apply no_consecutive_speaker_short; simpl; lia.
  - constructor; [|constructor]; rewrite Hmsg.
    apply choice_In, values_In in Ec; destruct Ec as [k Hin].
    destruct Hinv as [_ [Hids _]]; rewrite Forall_forall in Hids.
    specialize (Hids _ Hin); simpl in Hids; rewrite Hids.
    apply in_map_iff; now exists (k, first_agent).
Qed.

Lemma engine_inv_start_conversation (self : ConversationEngine)
    (env : start_env) (conversation_id : string)
    (initial_topic : option string) :
  engine_inv self ->
  engine_inv (fst (start_conversation self env conversation_id initial_topic)).
Proof.
  intros Hinv; unfold start_conversation.
  destruct (mem (conversations self) conversation_id); [exact Hinv|].
  set (self1 := mkConversationEngine (ollama_url self) (agents self)
                  (set (conversations self) conversation_id [])
                  (message_queue self) (is_running self)).
  assert (Hempty : engine_inv self1).
  { apply engine_inv_store;
      [exact Hinv | apply no_consecutive_speaker_short; simpl; lia | constructor]. }
  assert (Hget : get (conversations self1) conversation_id = Some []).
  { simpl; now rewrite get_set, String.eqb_refl. }
  destruct initial_topic as [topic|]; [destruct (truthy topic)|];
    try (destruct (_generate_conversation_seed (draw_seed env)) as [seed | e]);
    cbn [bind]; try exact Hempty;
    now apply (@engine_inv_seed self1 conversation_id (draw_first env)
                 (fun first_agent => AgentMessage.mk _ _ _ _ _ _ _)).
Qed.

Lemma state_of_process_conversation (fuel : nat) (envs : nat -> turn_env)
    (self : ConversationEngine) (conversation_id : string) (max_exchanges : Z) :
  state_of (process_conversation fuel envs self conversation_id max_exchanges)
  = self \/
  state_of (process_conversation fuel envs self conversation_id max_exchanges)
  = state_of (process_while fuel envs 0 self conversation_id 0 max_exchanges).
Proof.
  unfold process_conversation.
  destruct (negb (mem (conversations self) conversation_id)); [now left|].
  right; now destruct (process_while fuel envs 0 self conversation_id 0
                         max_exchanges).
Qed.

(** Every engine a program can build satisfies the invariant. *)
Lemma reachable_inv (self : ConversationEngine) :
  reachable self -> engine_inv self.
Proof.
  induction 1 as [url | self agent _ IH | self env cid topic _ IH
                 | self fuel envs cid n _ IH].
  - apply engine_inv_init.
  - now apply engine_inv_add_agent.
  - now apply engine_inv_start_conversation.
  - destruct (state_of_process_conversation fuel envs self cid n) as [-> | ->];
      [exact IH | now apply engine_inv_process_while].
Qed.

End Reachable.

Section SchedulerClaims.

Import Py Spec multi_agent_system.
Local Open Scope string_scope.

Lemma mem_get {V} (d : dict V) (k : string) (v : V) :
  get d k = Some v -> mem d k = true.
Proof. unfold mem; now intros ->. Qed.

(** With one registered agent, the last speaker of a conversation that has
    messages is that agent: no candidate is left. *)
Lemma available_agents_single (self : ConversationEngine)
    (conversation_id : string) (conversation : list AgentMessage.t) :
  engine_inv self ->
  List.length (agents self) = 1%nat ->
  get (conversations self) conversation_id = Some conversation ->
  conversation <> [] ->
  available_agents self
    (option_map AgentMessage.agent_id (last_opt conversation)) = [].
Proof.
  intros [_ [Hids Hconv]] Hone Hget Hne.
  destruct (last_opt_nonempty Hne) as [m Hm]; rewrite Hm; simpl.
  destruct (Hconv _ _ Hget) as [_ Hsp].
  rewrite Forall_forall in Hsp; specialize (Hsp m (last_opt_In _ Hm)).
  unfold available_agents.
  destruct (agents self) as [|[k a] [|? ?]]; try discriminate.
  simpl in *. destruct Hsp as [<- | []].
  inversion Hids as [|? ? Hid _]; simpl in Hid; subst.
  now rewrite String.eqb_refl.
Qed.

(** C8.  With exactly one registered agent, [process_conversation] on a
    started conversation (one that has its seed message) returns at once for
    every bound on the exchanges: the first pass finds no candidate and
    breaks without an exception, the engine, and with it the conversation, is
    unchanged, and the closing line reports a completion with 0 exchanges. *)
Theorem process_conversation_single_agent (self : ConversationEngine)
    (fuel : nat) (envs : nat -> turn_env) (conversation_id : string)
    (max_exchanges : Z) (conversation : list AgentMessage.t) :
  reachable self ->
  List.length (agents self) = 1%nat ->
  get (conversations self) conversation_id = Some conversation ->
  conversation <> [] ->
  turn_body self (envs 0%nat) conversation_id 0 = Return Break /\
  process_conversation (S fuel) envs self conversation_id max_exchanges
  = Finished self (Completed 0).
Proof.
  intros Hreach Hone Hget Hne.
  assert (Hbody : turn_body self (envs 0%nat) conversation_id 0 = Return Break).
  { unfold turn_body; rewrite Hget.
    now rewrite (available_agents_single conversation_id
                   (reachable_inv Hreach) Hone Hget Hne). }
  split; [exact Hbody|].
  unfold process_conversation; rewrite (mem_get _ _ Hget); simpl.
  destruct (0 <? max_exchanges)%Z; [|reflexivity].
  unfold turn; now rewrite Hbody.
Qed.

(** The seed message of a new conversation is named after the clock alone. *)
Lemma start_conversation_seed_id (self : ConversationEngine) (env : start_env)
    (conversation_id : string) (initial_topic : option string) :
  mem (conversations self) conversation_id = false ->
  agents self <> [] ->
  exists m,
    messages (fst (start_conversation self env conversation_id initial_topic))
             conversation_id = [m] /\
    AgentMessage.id m = seed_msg_id (start_ms env).
Proof.
  intros Hmem Hagents; unfold start_conversation; rewrite Hmem.
  assert (Hseed : exists seed,
            match initial_topic with
            | Some topic =>
                if truthy topic then Return topic
                else _generate_conversation_seed (draw_seed env)
            | None => _generate_conversation_seed (draw_seed env)
            end = Return seed).
  { assert (Hs : exists seed,
              _generate_conversation_seed (draw_seed env) = Return seed).
    { destruct (@choice_nonempty _ (draw_seed env) seeds) as [sd [H _]];
        [discriminate | now exists sd]. }
    destruct initial_topic as [topic|]; [|exact Hs].
    destruct (truthy topic); [now exists topic | exact Hs]. }
  destruct Hseed as [seed ->]; cbn [bind]; simpl agents.
  destruct (@choice_nonempty _ (draw_first env) (values (agents self)))
    as [first_agent [-> _]].
  { unfold values; destruct (agents self); [congruence | discriminate]. }
  cbn [bind fst]; eexists; split;
    [unfold messages, publish; simpl;
     rewrite !get_set, String.eqb_refl; reflexivity
    | reflexivity].
Qed.

(** C9.  Two conversations started at the same millisecond get seed messages
    with the same id. *)
Theorem message_ids_collide :
  let started_a :=
    fst (start_conversation engine_two_agents (start_at 1000) "conv_a"
           (Some "ocean + time")) in
  let started_b :=
    fst (start_conversation started_a (start_at 1000) "conv_b"
           (Some "chaos + order")) in
  reachable started_b /\
  map AgentMessage.id (messages started_b "conv_a") = ["msg_1000"] /\
  map AgentMessage.id (messages started_b "conv_b") = ["msg_1000"] /\
  map AgentMessage.content (messages started_b "conv_a")
    <> map AgentMessage.content (messages started_b "conv_b") /\
  map AgentMessage.id (message_queue started_b) = ["msg_1000"; "msg_1000"].
Proof.
  split; [|vm_compute; repeat split; discriminate].
  repeat constructor.
Qed.

End SchedulerClaims.

(** ** Sessions under a failing backend *)

Section Sessions.

Import Py Spec.
Local Open Scope string_scope.

Lemma process_thought_state (self : dreaming_ai.DreamingAI)
    (thought : dreaming_ai.Thought) :
  let self' := dreaming_ai._process_thought self thought in
  dreaming_ai.is_dreaming self' = dreaming_ai.is_dreaming self /\
  dreaming_ai.max_thoughts_per_session self'
    = dreaming_ai.max_thoughts_per_session self /\
  map dreaming_ai.content (dreaming_ai.thoughts_generated self')
    = (map dreaming_ai.content (dreaming_ai.thoughts_generated self)
       ++ [dreaming_ai.content thought])%list.
Proof.
  unfold dreaming_ai._process_thought; simpl; repeat split.
  rewrite map_app; simpl.
  now destruct (dreaming_ai.is_gold_strike _ _).
Qed.

(** Under a failing backend a pass of the reasoning loop raises nothing and
    records one more thought, a canned sentence. *)
Lemma dream_iteration_failing (self : dreaming_ai.DreamingAI)
    (env : dreaming_ai.dream_env) (thought_count : Z) :
  failing (dreaming_ai.backend (dreaming_ai.think env)) ->
  exists thought,
    dreaming_ai.dream_iteration self env thought_count
      = Return (dreaming_ai._process_thought self thought,
                (thought_count + 1)%Z) /\
    (dreaming_ai.content thought = dreaming_ai.filler_api_error \/
     dreaming_ai.content thought = dreaming_ai.filler_exception).
Proof.
  intros Hfail; unfold dreaming_ai.dream_iteration.
  destruct (@generate_thought_failing (dreaming_ai.reasoning_engine self)
              (dreaming_ai.think env)
              (dreaming_ai.get_recent_thoughts (dreaming_ai.memory self) 10)
              None Hfail) as [-> | ->];
    cbn [bind try_except_Exception];
    eexists; (split; [reflexivity|]); simpl; auto.
Qed.

(** Under a failing backend the reasoning loop runs to its cap. *)
Lemma dream_while_failing (fuel : nat) (envs : nat -> dreaming_ai.dream_env)
    (k : nat) (self : dreaming_ai.DreamingAI) (thought_count : Z) :
  dreaming_ai.is_dreaming self = true ->
  (forall j, failing (dreaming_ai.backend (dreaming_ai.think (envs j)))) ->
  (dreaming_ai.max_thoughts_per_session self - thought_count
   <= Z.of_nat fuel)%Z ->
  exists self',
    dreaming_ai.dream_while fuel envs k self thought_count
      = Finished self'
          (Z.max thought_count (dreaming_ai.max_thoughts_per_session self)) /\
    List.length (dreaming_ai.thoughts_generated self')
      = (List.length (dreaming_ai.thoughts_generated self)
         + Z.to_nat (dreaming_ai.max_thoughts_per_session self - thought_count))%nat.
Proof.
  intros Hd Hfail; revert k self thought_count Hd.
  induction fuel as [|fuel IH]; intros k self thought_count Hd Hfuel;
    cbn [dreaming_ai.dream_while]; rewrite Hd; cbn [andb];
    destruct (Z.ltb_spec thought_count
                (dreaming_ai.max_thoughts_per_session self)) as [Hlt | Hge];
    try lia;
    try (exists self; split; [f_equal; lia | lia]).
  destruct (@dream_iteration_failing self (envs k) thought_count (Hfail k))
    as [thought [-> _]].
  destruct (process_thought_state self thought) as [Hd' [Hmax Hgen]].
  destruct (IH (S k) (dreaming_ai._process_thought self thought)
               (thought_count + 1)%Z) as [self' [Hrun Hlen]].
  - now rewrite Hd'.
  - rewrite Hmax; lia.
  - exists self'; rewrite Hrun, Hlen, Hmax; split; [f_equal; lia|].
    apply (f_equal (@List.length _)) in Hgen.
    rewrite length_app, !length_map in Hgen; cbn [List.length] in Hgen; lia.
Qed.

Import multi_agent_system.

(** With two registered agents there is a candidate after every speaker. *)
Lemma available_agents_two (self : ConversationEngine)
    (last_speaker : option string) :
  engine_inv self ->
  (2 <= List.length (agents self))%nat ->
  available_agents self last_speaker <> [].
Proof.
  intros [Hnd [Hids _]] Htwo; unfold available_agents.
  destruct (agents self) as [|[k1 a1] [|[k2 a2] rest]]; simpl in Htwo; try lia.
  inversion Hids as [|? ? H1 Hids']; inversion Hids' as [|? ? H2 _]; subst.
  simpl in H1, H2.
  inversion Hnd as [|? ? Hnot _]; subst; simpl in Hnot.
  destruct last_speaker as [s|]; simpl; [|discriminate].
  destruct (String.eqb_spec (Agent.id a1) s) as [E1|]; simpl; [|discriminate].
  destruct (String.eqb_spec (Agent.id a2) s) as [E2|]; simpl; [|discriminate].
  exfalso; apply Hnot; left; congruence.
Qed.

(** Once a conversation has a message, a pass of the loop breaks: without a
    candidate, or on the [TypeError] of [generate_response]. *)
Lemma turn_breaks (self : ConversationEngine) (env : turn_env)
    (conversation_id : string) (exchanges : Z) :
  messages self conversation_id <> [] ->
  turn self env conversation_id exchanges = Return Break.
Proof.
  intros Hne; unfold turn, turn_body; fold (messages self conversation_id).
  destruct (available_agents self _) as [|a0 rest] eqn:Ea; [reflexivity|].
  rewrite <- Ea.
  destruct (choice (draw_next env) (available_agents self _))
    as [next | e] eqn:Ec; cbn [bind].
  - now rewrite generate_response_raises.
  - unfold choice in Ec; destruct (nth_error _ _); [discriminate|].
    now injection Ec as <-.
Qed.

(** No exchange is ever added to a conversation that has a message. *)
Lemma process_conversation_no_exchange (fuel : nat) (envs : nat -> turn_env)
    (self : ConversationEngine) (conversation_id : string)
    (max_exchanges : Z) :
  messages self conversation_id <> [] ->
  process_conversation (S fuel) envs self conversation_id max_exchanges
  = Finished self (Completed 0).
Proof.
  intros Hne; unfold process_conversation.
  assert (Hmem : mem (conversations self) conversation_id = true).
  { unfold messages in Hne; unfold mem.
    destruct (get (conversations self) conversation_id); congruence. }
  rewrite Hmem; simpl.
  destruct (0 <? max_exchanges)%Z; [|reflexivity].
  now rewrite turn_breaks.
Qed.

End Sessions.

Section DegradationClaims.

Import Py Spec.
Local Open Scope string_scope.

(** Under a failing backend the whole reasoning loop, seed included, runs to
    its cap of thoughts. *)
Lemma dream_loop_failing (fuel : nat) (seed : string)
    (seed_env : dreaming_ai.dream_env) (envs : nat -> dreaming_ai.dream_env)
    (self : dreaming_ai.DreamingAI) :
  dreaming_ai.is_dreaming self = true ->
  (forall j, failing (dreaming_ai.backend (dreaming_ai.think (envs j)))) ->
  (dreaming_ai.max_thoughts_per_session self - 1 <= Z.of_nat fuel)%Z ->
  exists self',
    dreaming_ai._dream_loop fuel seed seed_env envs self
      = Finished self' (Z.max 1 (dreaming_ai.max_thoughts_per_session self)) /\
    List.length (dreaming_ai.thoughts_generated self')
      = (List.length (dreaming_ai.thoughts_generated self) + 1
         + Z.to_nat (dreaming_ai.max_thoughts_per_session self - 1))%nat.
Proof.
  intros Hd Hfail Hfuel; unfold dreaming_ai._dream_loop.
  set (seed_thought := dreaming_ai.mkThought _ _ _ _ _ _ _).
  destruct (process_thought_state self seed_thought) as [Hd' [Hmax Hgen]].
  destruct (@dream_while_failing fuel envs 0
              (dreaming_ai._process_thought self seed_thought) (0 + 1)%Z)
    as [self' [Hrun Hlen]].
  - now rewrite Hd'.
  - exact Hfail.
  - rewrite Hmax; lia.
  - exists self'; rewrite Hrun, Hlen, Hmax; split; [reflexivity|].
    apply (f_equal (@List.length _)) in Hgen.
    rewrite length_app, !length_map in Hgen; cbn [List.length] in Hgen.
    rewrite Hgen; reflexivity.
Qed.

(** A dreamer capped at 4 thoughts, with the backend down: the seed and three
    canned thoughts. *)
Example dream_loop_backend_down :
  exists self',
    dreaming_ai._dream_loop 3 "ocean + time" (dream_down 0) dream_down
      (dreamer 4) = Finished self' 4%Z /\
    List.length (dreaming_ai.thoughts_generated self') = 4%nat.
Proof.
  apply (@dream_loop_failing 3 "ocean + time" (dream_down 0) dream_down
           (dreamer 4)).
  - reflexivity.
  - intros j request; reflexivity.
  - simpl; lia.
Qed.

(** C4.  In the conversation "c" started between two agents, with a backend
    that times out, [generate_response] for the agent that did not seed
    raises [TypeError] where a fallback sentence is expected, and
    [process_conversation] with a bound of 3 exchanges leaves the engine as
    it was, completed with 0 exchanges. *)
Theorem generate_response_raises_TypeError :
  let engine := started engine_two_agents in
  multi_agent_system.generate_response engine
    (multi_agent_system.respond (turns_down 0)) agent_B (messages engine "c")
    = Raise TypeError /\
  failing (multi_agent_system.backend
             (multi_agent_system.respond (turns_down 0))) /\
  multi_agent_system.process_conversation 3 turns_down engine "c" 3
    = Finished engine (multi_agent_system.Completed 0).
Proof.
  split; [reflexivity|]; split; [intros request; reflexivity | reflexivity].
Qed.

End DegradationClaims.

(** ** ConversationEngine: the scheduling of the speakers *)

Section Alternation.

Import Py Spec multi_agent_system.
Local Open Scope string_scope.

(** At [generate_response] the loop with the method as a parameter is the
    loop of [process_conversation]. *)
Lemma process_while_with_generate_response (fuel : nat)
    (envs : nat -> turn_env) (k : nat) (self : ConversationEngine)
    (conversation_id : string) (exchanges max_exchanges : Z) :
  process_while_with generate_response fuel envs k self conversation_id
    exchanges max_exchanges
  = process_while fuel envs k self conversation_id exchanges max_exchanges.
Proof.
  revert k self exchanges; induction fuel as [|fuel IH]; intros k self exchanges;
    cbn [process_while_with process_while]; [reflexivity|].
  destruct (exchanges <? max_exchanges)%Z; [|reflexivity].
  change (turn_with generate_response self (envs k) conversation_id exchanges)
    with (turn self (envs k) conversation_id exchanges).
  destruct (turn self (envs k) conversation_id exchanges)
    as [[|self' exchanges'] | e]; [reflexivity | apply IH | reflexivity].
Qed.

Lemma process_conversation_with_generate_response (fuel : nat)
    (envs : nat -> turn_env) (self : ConversationEngine)
    (conversation_id : string) (max_exchanges : Z) :
  process_conversation_with generate_response fuel envs self conversation_id
    max_exchanges
  = process_conversation fuel envs self conversation_id max_exchanges.
Proof.
  unfold process_conversation_with, process_conversation.
  now rewrite process_while_with_generate_response.
Qed.

(** The ways a pass can end, whatever the method answers: [break], nothing
    appended for an empty answer, or the message of a candidate speaker
    appended. *)
Lemma turn_with_cases (generate : response_method) (self : ConversationEngine)
    (env : turn_env) (conversation_id : string) (exchanges : Z) :
  match turn_with generate self env conversation_id exchanges with
  | Return Break => True
  | Return (Continue self' exchanges') =>
      (self' = self /\ exchanges' = exchanges) \/
      exists key agent msg,
        In (key, agent)
           (available_agents self
              (option_map AgentMessage.agent_id
                 (last_opt (messages self conversation_id)))) /\
        AgentMessage.agent_id msg = Agent.id agent /\
        self' = remember (publish self conversation_id msg) key agent msg /\
        exchanges' = (exchanges + 1)%Z
  | Raise e => is_Exception e = false
  end.
Proof.
  unfold turn_with, turn_body_with; fold (messages self conversation_id).
  set (conv := messages self conversation_id).
  set (avail := available_agents self
                  (option_map AgentMessage.agent_id (last_opt conv))).
  destruct avail as [|a0 rest] eqn:Ea; [exact I|].
  rewrite <- Ea; clear Ea.
  destruct (choice (draw_next env) avail) as [[key agent] | e] eqn:Ec;
    cbn [bind].
  2:{ simpl; destruct (is_Exception e) eqn:E; [exact I | exact E]. }
  simpl snd; simpl fst.
  destruct (generate self (respond env) agent conv) as [s | e]; cbn [bind].
  2:{ simpl; destruct (is_Exception e) eqn:E; [exact I | exact E]. }
  destruct (truthy s); simpl.
  - right; exists key, agent.
    exists (AgentMessage.mk (response_msg_id (turn_ms env) exchanges)
              (turn_now env) (Agent.id agent) s
              (option_map AgentMessage.id (last_opt conv))
              conversation_id 0%Q).
    split; [exact (choice_In _ _ Ec) | repeat split].
  - now left.
Qed.

Lemma engine_inv_process_while_with (generate : response_method) (fuel : nat)
    (envs : nat -> turn_env) (k : nat) (self : ConversationEngine)
    (conversation_id : string) (exchanges max_exchanges : Z) :
  engine_inv self ->
  engine_inv (state_of (process_while_with generate fuel envs k self
                          conversation_id exchanges max_exchanges)).
Proof.
  revert k self exchanges; induction fuel as [|fuel IH];
    intros k self exchanges Hinv; cbn [process_while_with].
  - destruct (exchanges <? max_exchanges)%Z; exact Hinv.
  - destruct (exchanges <? max_exchanges)%Z; [|exact Hinv].
    pose proof (turn_with_cases generate self (envs k) conversation_id
                  exchanges) as Hturn.
    destruct (turn_with generate self (envs k) conversation_id exchanges)
      as [[|self' exchanges'] | e]; cbn [state_of]; try exact Hinv.
    apply IH.
    destruct Hturn as [[-> _] | [key [agent [msg [Hav [Hmsg [-> _]]]]]]];
      [exact Hinv | now apply engine_inv_exchange].
Qed.

Lemma engine_inv_process_conversation_with (generate : response_method)
    (fuel : nat) (envs : nat -> turn_env) (self : ConversationEngine)
    (conversation_id : string) (max_exchanges : Z) :
  engine_inv self ->
  engine_inv (state_of (process_conversation_with generate fuel envs self
                          conversation_id max_exchanges)).
Proof.
  intros Hinv; unfold process_conversation_with.
  destruct (negb (mem (conversations self) conversation_id)); [exact Hinv|].
  pose proof (@engine_inv_process_while_with generate fuel envs 0 self
                conversation_id 0 max_exchanges Hinv) as H.
  now destruct (process_while_with generate fuel envs 0 self conversation_id
                  0 max_exchanges).
Qed.

(** C5.  In an engine built by adding agents and starting and processing
    conversations:
    - with two agents or more, the speaker that a pass of the loop picks
      for a conversation exists, is a registered agent and is not the
      speaker of the last message, whatever the draw;
    - whatever the method [generate_response] answers at each pass, for any
      bound on the exchanges and however the loop is left, the conversation
      that the loop of [process_conversation] leaves has no two consecutive
      messages of one agent;
    - so it is with the method of the source. *)
Theorem process_conversation_alternates (self : ConversationEngine)
    (conversation_id : string) :
  reachable self ->
  ((2 <= List.length (agents self))%nat ->
   forall draw,
   exists next,
     choice draw
       (available_agents self
          (option_map AgentMessage.agent_id
             (last_opt (messages self conversation_id))))
     = Return next /\
     In next (agents self) /\
     forall m, last_opt (messages self conversation_id) = Some m ->
               Agent.id (snd next) <> AgentMessage.agent_id m) /\
  (forall generate fuel envs max_exchanges conversation,
     get (conversations
            (state_of (process_conversation_with generate fuel envs self
                         conversation_id max_exchanges)))
         conversation_id = Some conversation ->
     no_consecutive_speaker conversation) /\
  (forall fuel envs max_exchanges conversation,
     get (conversations
            (state_of (process_conversation fuel envs self conversation_id
                         max_exchanges)))
         conversation_id = Some conversation ->
     no_consecutive_speaker conversation).
Proof.
  intros Hreach; pose proof (reachable_inv Hreach) as Hinv.
  assert (Hloop : forall generate fuel envs max_exchanges conversation,
             get (conversations
                    (state_of (process_conversation_with generate fuel envs
                                 self conversation_id max_exchanges)))
                 conversation_id = Some conversation ->
             no_consecutive_speaker conversation).
  { intros generate fuel envs max_exchanges conversation Hget.
    pose proof (@engine_inv_process_conversation_with generate fuel envs self
                  conversation_id max_exchanges Hinv) as [_ [_ Hconv]].
    exact (proj1 (Hconv _ _ Hget)). }
  split; [|split; [exact Hloop|]].
  - intros Htwo draw.
    set (last_speaker := option_map AgentMessage.agent_id
                           (last_opt (messages self conversation_id))).
    destruct (@choice_nonempty _ draw (available_agents self last_speaker)
                (@available_agents_two self last_speaker Hinv Htwo))
      as [[key agent] [Hchoice Hin]].
    exists (key, agent); split; [exact Hchoice|].
    apply available_agents_In in Hin; destruct Hin as [Hin Hlast].
    split; [exact Hin|].
    intros m Hm; apply Hlast; unfold last_speaker; now rewrite Hm.
  - intros fuel envs max_exchanges conversation.
    rewrite <- process_conversation_with_generate_response; apply Hloop.
Qed.

End Alternation.

Section Witnesses.

Import Py Spec multi_agent_system.
Local Open Scope string_scope.

Lemma process_conversation_alternates_witness :
  choice 0
    (available_agents (started engine_two_agents)
       (option_map AgentMessage.agent_id
          (last_opt (messages (started engine_two_agents) "c"))))
  = Return ("agent_1_1", agent_B) /\
  speakers
    (state_of (process_conversation_with (always_answers "Hello.") 3 turns_down
                 (started engine_two_agents) "c" 3))
    "c"
  = ["agent_1_0"; "agent_1_1"; "agent_1_0"; "agent_1_1"] /\
  no_consecutive_speaker
    (messages
       (state_of (process_conversation_with (always_answers "Hello.") 3
                    turns_down (started engine_two_agents) "c" 3))
       "c") /\
  no_consecutive_speaker
    (messages
       (state_of (process_conversation 3 turns_down (started engine_two_agents)
                    "c" 3))
       "c").
Proof.
  destruct (@process_conversation_alternates (started engine_two_agents) "c")
    as [Hnext [Hwith Hsource]]; [repeat constructor|].
  split; [|split; [|split]].
  - destruct (Hnext ltac:(vm_compute; lia) 0%nat) as [next [Hchoice _]].
    vm_compute in Hchoice |- *; reflexivity.
  - vm_compute; reflexivity.
  - apply (Hwith (always_answers "Hello.") 3%nat turns_down 3%Z).
    vm_compute; reflexivity.
  - apply (Hsource 3%nat turns_down 3%Z).
    vm_compute; reflexivity.
Defined.

Lemma process_conversation_single_agent_witness :
  turn_body (started engine_one_agent) (turns_down 0) "c" 0 = Return Break /\
  process_conversation 1 turns_down (started engine_one_agent) "c" 20
  = Finished (started engine_one_agent) (Completed 0).
Proof.
  eapply (@process_conversation_single_agent (started engine_one_agent)
            0 turns_down "c" 20).
  - repeat constructor.
  - reflexivity.
  - vm_compute; reflexivity.
  - discriminate.
Defined.

End Witnesses.

(** * Further properties of the code *)

(** ** InterestDetector: longer texts *)

Section ScoreGrowth.

Import Py dreaming_ai Spec.
Local Open Scope string_scope.

Lemma lower_app (s1 s2 : string) : lower (s1 ++ s2) = lower s1 ++ lower s2.
Proof. induction s1 as [|c s1 IH]; simpl; [reflexivity | now rewrite IH]. Qed.

Lemma len_app (s1 s2 : string) : len (s1 ++ s2) = (len s1 + len s2)%nat.
Proof. unfold len; induction s1 as [|c s1 IH]; simpl; [reflexivity | now rewrite IH]. Qed.

Lemma count_app (c : ascii) (s1 s2 : string) :
  count c (s1 ++ s2) = (count c s1 + count c s2)%nat.
Proof. induction s1 as [|d s1 IH]; simpl; [reflexivity | rewrite IH; lia]. Qed.

Lemma string_app_assoc (s1 s2 s3 : string) : (s1 ++ s2) ++ s3 = s1 ++ s2 ++ s3.
Proof. induction s1 as [|c s1 IH]; simpl; [reflexivity | now rewrite IH]. Qed.

(** What is found in a text is found in the text with more around it. *)
Lemma contains_around (sub pre s post : string) :
  contains sub s = true -> contains sub (pre ++ s ++ post) = true.
Proof.
  rewrite !contains_spec; intros [a [b ->]].
  exists (pre ++ a), (b ++ post).
  now rewrite !string_app_assoc.
Qed.

Lemma add_keywords_mono (w : Q) (keywords : list string) (a b : string)
    (s s' : Q) :
  (0 <= w)%Q ->
  (forall k, contains k a = true -> contains k b = true) ->
  (s <= s')%Q ->
  (add_keywords w keywords a s <= add_keywords w keywords b s')%Q.
Proof.
  intros Hw Hab; unfold add_keywords; revert s s'.
  induction keywords as [|k ks IH]; intros s s' Hs; simpl; [exact Hs|].
  apply IH.
  destruct (contains k a) eqn:Ea.
  - rewrite (Hab k Ea); now apply Qplus_le_compat; [|apply Qle_refl].
  - destruct (contains k b); [|exact Hs].
    setoid_replace s with (s + 0)%Q by ring.
    apply Qplus_le_compat; assumption.
Qed.

Lemma count_term_mono (n m : nat) (w : Q) :
  (n <= m)%nat -> (0 <= w)%Q ->
  (inject_Z (Z.of_nat n) * w <= inject_Z (Z.of_nat m) * w)%Q.
Proof.
  intros Hnm Hw; apply Qmult_le_compat_r; [|exact Hw].
  rewrite <- Zle_Qle; lia.
Qed.

Lemma Qle_plus_nonneg (x y z : Q) :
  (x <= y)%Q -> (0 <= z)%Q -> (x <= y + z)%Q.
Proof.
  intros Hxy Hz; setoid_replace x with (x + 0)%Q by ring.
  now apply Qplus_le_compat.
Qed.

(** X1.  Text added before or after a text never lowers its interest
    score. *)
Theorem calculate_interest_score_grows (pre text post : string) :
  (calculate_interest_score text
   <= calculate_interest_score (pre ++ text ++ post))%Q.
Proof.
  unfold calculate_interest_score.
  apply Q.min_le_compat_r.
  rewrite !lower_app.
  repeat apply Qplus_le_compat;
    try (apply count_term_mono; [rewrite !count_app; lia | discriminate]).
  assert (Hk : (add_keywords 0.5 gold_strike_indicators (lower text)
                  (add_keywords 0.1 interest_keywords (lower text) 0)
                <= add_keywords 0.5 gold_strike_indicators
                     (lower pre ++ lower text ++ lower post)
                     (add_keywords 0.1 interest_keywords
                        (lower pre ++ lower text ++ lower post) 0))%Q).
  { apply add_keywords_mono;
      [discriminate | intros k; apply contains_around|].
    apply add_keywords_mono;
      [discriminate | intros k; apply contains_around | apply Qle_refl]. }
  destruct (Nat.ltb_spec 100 (len text)) as [Hlong | Hshort].
  - destruct (Nat.ltb_spec 100 (len (pre ++ text ++ post))) as [_ | Hno].
    + apply Qplus_le_compat; [exact Hk | apply Qle_refl].
    + rewrite !len_app in Hno; lia.
  - destruct (100 <? len (pre ++ text ++ post))%nat; [|exact Hk].
    apply Qle_plus_nonneg; [exact Hk | discriminate].
Qed.

(** X2.  A text that is a gold strike at some score is a gold strike, at
    that score or a higher one, with any text added before or after it. *)
Theorem is_gold_strike_grows (pre text post : string) (score score' : Q) :
  (score <= score')%Q ->
  is_gold_strike text score = true ->
  is_gold_strike (pre ++ text ++ post) score' = true.
Proof.
  intros Hs; unfold is_gold_strike; rewrite !orb_true_iff, !Qgtb_lt.
  intros [Hscore | Hfound].
  - left; eapply Qlt_le_trans; eassumption.
  - right; rewrite existsb_exists in *.
    destruct Hfound as [k [Hin Hk]]; exists k; split; [exact Hin|].
    rewrite !lower_app; now apply contains_around.
Qed.

Lemma is_gold_strike_grows_witness :
  is_gold_strike ("well, " ++ "eureka" ++ "!") 0.3%Q = true.
Proof.
  apply (@is_gold_strike_grows "well, " "eureka" "!" 0%Q 0.3%Q).
  - discriminate.
  - reflexivity.
Defined.

Lemma add_keywords_found (w : Q) (keywords : list string) (text : string)
    (s : Q) (k : string) :
  (0 <= w)%Q -> In k keywords -> contains k text = true ->
  (s + w <= add_keywords w keywords text s)%Q.
Proof.
  intros Hw Hin Hk; rewrite add_keywords_count.
  apply Qplus_le_compat; [apply Qle_refl|].
  assert (Hf : In k (filter (fun k => contains k text) keywords))
    by (apply filter_In; now split).
  setoid_replace w with (inject_Z (Z.of_nat 1) * w)%Q at 1
    by (simpl; ring).
  apply (@count_term_mono 1 _ w); [|exact Hw].
  destruct (filter _ keywords); [destruct Hf | simpl; lia].
Qed.

(** X3.  A text in which a gold-strike indicator is found scores at least
    0.5; so every text that [is_gold_strike] flags at its own score scores
    at least 0.5. *)
Theorem gold_strike_scores_half (text : string) :
  is_gold_strike text (calculate_interest_score text) = true ->
  (0.5 <= calculate_interest_score text)%Q.
Proof.
  unfold is_gold_strike; rewrite orb_true_iff, Qgtb_lt, existsb_exists.
  intros [Hscore | [k [Hin Hk]]].
  - apply Qlt_le_weak; eapply Qle_lt_trans; [|exact Hscore]; discriminate.
  - unfold calculate_interest_score.
    apply Q.min_glb; [|discriminate].
    assert (Hg : (0.5 <= add_keywords 0.5 gold_strike_indicators (lower text)
                           (add_keywords 0.1 interest_keywords (lower text) 0))%Q).
    { eapply Qle_trans;
        [|apply (@add_keywords_found 0.5 gold_strike_indicators (lower text)
                   _ k); [discriminate | exact Hin | exact Hk]].
      setoid_replace (0.5)%Q with (0 + 0.5)%Q at 1 by ring.
      apply Qplus_le_compat; [|apply Qle_refl].
      apply add_keywords_nonneg; discriminate. }
    repeat (apply Qle_plus_nonneg; [|apply count_term_nonneg; discriminate]).
    destruct (100 <? len text)%nat; [|exact Hg].
    apply Qle_plus_nonneg; [exact Hg | discriminate].
Qed.

Lemma gold_strike_scores_half_witness :
  (0.5 <= calculate_interest_score "a profound thought")%Q.
Proof.
  apply (@gold_strike_scores_half "a profound thought"); reflexivity.
Defined.

End ScoreGrowth.

(** ** ReasoningEngine *)

Section ReasoningEngineFacts.

Import Py dreaming_ai Spec.
Local Open Scope string_scope.

Lemma lastn_slice {A} (n : nat) (l : list A) :
  (0 < n)%nat -> slice_from (- Z.of_nat n) l = lastn n l.
Proof.
  intros Hn; unfold slice_from, lastn.
  destruct (Z.ltb_spec (- Z.of_nat n) 0); [|lia].
  f_equal; lia.
Qed.

Lemma lastn_nil_iff {A} (n : nat) (l : list A) :
  (0 < n)%nat -> lastn n l = [] <-> l = [].
Proof.
  intros Hn; split; [|intros ->; reflexivity].
  intros E; apply (f_equal (@List.length A)) in E.
  rewrite lastn_length in E; simpl in E.
  destruct l; [reflexivity | simpl in E; lia].
Qed.

(** X4.  [generate_thought] reads the last five thoughts of its context and
    no other: the context and its last five thoughts give the same
    result. *)
Theorem generate_thought_last_five (self : ReasoningEngine)
    (env : thought_env) (context : list Thought) (mode : option string) :
  generate_thought self env context mode
  = generate_thought self env (lastn 5 context) mode.
Proof.
  unfold generate_thought.
  change (-5)%Z with (- Z.of_nat 5)%Z.
  rewrite !lastn_slice by lia.
  rewrite lastn_lastn; simpl Nat.min.
  destruct context as [|t context]; [reflexivity|].
  destruct (lastn 5 (t :: context)) as [|t' rest] eqn:E; [|reflexivity].
  apply lastn_nil_iff in E; [discriminate | lia].
Qed.

(** The [try] block of [generate_thought] for an answer with status 200. *)
Lemma try_ok_request {A} (response : Response) (ok : Response -> result A)
    (other : result A) (handler : exn -> result A) :
  status_code response = 200%Z ->
  try_except_Exception
    (response <- Return response ;;
     if (status_code response =? 200)%Z then ok response else other)
    handler
  = try_except_Exception (ok response) handler.
Proof. intros H; cbn [bind]; now rewrite H. Qed.

(** X5.  Whatever the backend answers, as long as what it raises derives
    from [Exception], [generate_thought] returns a text and raises nothing:
    a body that is not JSON, not an object, or whose field "response" is
    not a string gives the sentence of the [except] clause.  An answer with
    status 200 and a string under "response" gives that string, stripped. *)
Theorem generate_thought_returns (self : ReasoningEngine) (env : thought_env)
    (context : list Thought) (mode : option string) :
  raises_Exception_only (backend env) ->
  (exists text, generate_thought self env context mode = Return text) /\
  (forall body text,
     (forall request,
        backend env request = Return (mkResponse 200 (Return (JDict body)))) ->
     get body "response" = Some (JStr text) ->
     generate_thought self env context mode = Return (strip text)).
Proof.
  intros Hb; unfold generate_thought.
  assert (Hmode : exists m,
            match mode with
            | None => choice (draw_mode env) reasoning_modes
            | Some m => Return m
            end = Return m).
  { destruct mode as [m|]; [now exists m | apply choice_reasoning_mode]. }
  destruct Hmode as [m ->]; cbn [bind].
  split.
  - match goal with |- context [backend env ?req] =>
      specialize (Hb req); destruct (backend env req) as [response | e]
    end; cbn [bind try_except_Exception].
    + destruct (status_code response =? 200)%Z;
        [|eexists; reflexivity].
      destruct (json response) as [j | e]; cbn [bind].
      * destruct j as [| | | |l|d]; cbn [json_get bind];
          try (eexists; reflexivity).
        destruct (match get d "response" with Some v => v | None => JStr "" end);
          cbn [json_strip]; eexists; reflexivity.
      * cbn [bind try_except_Exception]; rewrite Hb; eexists; reflexivity.
    + rewrite Hb; eexists; reflexivity.
  - intros body text Hanswer Hget.
    rewrite Hanswer; cbn [bind status_code json json_get Z.eqb Pos.eqb].
    now rewrite Hget.
Qed.

Lemma generate_thought_returns_witness :
  generate_thought (reasoning_engine (dreamer 4))
    (mkThoughtEnv 0 0.9%Q (backend_says "  a new idea  ")) (samples 7) None
  = Return "a new idea".
Proof.
  destruct (@generate_thought_returns (reasoning_engine (dreamer 4))
              (mkThoughtEnv 0 0.9%Q (backend_says "  a new idea  "))
              (samples 7) None) as [_ H].
  - intros request; exact I.
  - apply (H [("response", JStr "  a new idea  ")] "  a new idea  ").
    + intros request; reflexivity.
    + reflexivity.
Defined.

End ReasoningEngineFacts.

(** ** MemorySystem: the tables and the buffer over time *)

Section MemoryInvariants.

Import Py dreaming_ai Spec.
Local Open Scope string_scope.

Lemma filter_keys_In {R} (key : R -> string) (f : R -> bool) (l : list R)
    (k : string) :
  In k (map key (filter f l)) -> In k (map key l).
Proof.
  rewrite !in_map_iff; intros [r [E Hin]]; exists r; split; [exact E|].
  apply filter_In in Hin; tauto.
Qed.

Lemma filter_keys_NoDup {R} (key : R -> string) (f : R -> bool) (l : list R) :
  NoDup (map key l) -> NoDup (map key (filter f l)).
Proof.
  induction l as [|r l IH]; simpl; intros Hnd; [constructor|].
  inversion Hnd as [|? ? Hnot Hnd']; subst.
  destruct (f r); simpl; [|now apply IH].
  constructor; [|now apply IH].
  intros Hin; apply Hnot; eapply filter_keys_In; exact Hin.
Qed.

(** [INSERT OR REPLACE] keeps the primary key unique. *)
Lemma insert_or_replace_NoDup {R} (key : R -> string) (row : R)
    (table : list R) :
  NoDup (map key table) -> NoDup (map key (insert_or_replace key row table)).
Proof.
  intros Hnd; unfold insert_or_replace; rewrite map_app; simpl.
  apply NoDup_app; repeat split.
  - now apply filter_keys_NoDup.
  - constructor; [tauto | constructor].
  - intros k Hk [<- | []].
    apply in_map_iff in Hk; destruct Hk as [r [E Hin]].
    apply filter_In in Hin; destruct Hin as [_ Hf].
    rewrite E, String.eqb_refl in Hf; discriminate.
Qed.

(** [INSERT OR REPLACE] loses no key. *)
Lemma insert_or_replace_keys {R} (key : R -> string) (row : R)
    (table : list R) (k : string) :
  In k (map key table) -> In k (map key (insert_or_replace key row table)).
Proof.
  unfold insert_or_replace; rewrite map_app, in_app_iff; simpl.
  rewrite !in_map_iff; intros [r [E Hin]].
  destruct (String.eqb_spec (key r) (key row)) as [Heq | Hne].
  - right; left; congruence.
  - left; exists r; split; [exact E|].
    apply filter_In; split; [exact Hin|].
    now apply negb_true_iff, String.eqb_neq.
Qed.

Lemma pop0_In {A} (l : list A) (x : A) : In x (pop0 l) -> In x l.
Proof. destruct l; simpl; [tauto | now right]. Qed.

(** X6.  In every memory built from a new one by [add_thought] and
    [add_golden_thought], the buffer holds at most 20 thoughts, no two rows
    of a table share an id, and every thought of the buffer has a row with
    its id in the table [thoughts]. *)
Theorem memory_invariant (self : MemorySystem) :
  memory_reachable self ->
  (List.length (short_term_memory self) <= 20)%nat /\
  NoDup (map id (thoughts self)) /\
  NoDup (map g_id (golden_thoughts self)) /\
  forall thought, In thought (short_term_memory self) ->
                  In (id thought) (map id (thoughts self)).
Proof.
  intros Hreach.
  assert (H : max_short_term self = 20%Z /\
              (List.length (short_term_memory self) <= 20)%nat /\
              NoDup (map id (thoughts self)) /\
              NoDup (map g_id (golden_thoughts self)) /\
              forall thought, In thought (short_term_memory self) ->
                              In (id thought) (map id (thoughts self))).
  { induction Hreach as [| self t _ IH | self t context _ IH].
    - simpl; repeat split; try constructor; try lia; intros ? [].
    - destruct IH as [Hmax [Hlen [Ht [Hg Hsub]]]].
      split; [exact Hmax|]; split.
      + rewrite add_thought_buffer, lastn_length by (rewrite Hmax; lia).
        rewrite Hmax; lia.
      + split; [now apply insert_or_replace_NoDup|]; split; [exact Hg|].
        intros x Hx; simpl.
        assert (Hx' : In x (short_term_memory self ++ [t])).
        { unfold add_thought in Hx; simpl in Hx.
          destruct (_ >? _)%Z; [now apply pop0_In | exact Hx]. }
        apply in_app_iff in Hx'; destruct Hx' as [Hold | [<- | []]].
        * apply insert_or_replace_keys; now apply Hsub.
        * unfold insert_or_replace; rewrite map_app; apply in_or_app; right.
          now left.
    - destruct IH as [Hmax [Hlen [Ht [Hg Hsub]]]]; simpl.
      repeat split; try assumption.
      now apply insert_or_replace_NoDup. }
  tauto.
Qed.

Lemma memory_invariant_witness :
  let self := add_all MemorySystem_init (samples 25) in
  (List.length (short_term_memory self) <= 20)%nat /\
  NoDup (map id (thoughts self)) /\
  NoDup (map g_id (golden_thoughts self)) /\
  forall thought, In thought (short_term_memory self) ->
                  In (id thought) (map id (thoughts self)).
Proof.
  apply (@memory_invariant (add_all MemorySystem_init (samples 25))).
  unfold samples; simpl map; unfold add_all; simpl fold_left.
  repeat constructor.
Defined.

Lemma with_id_other (row : Thought) (table : list Thought) (i : string) :
  id row <> i ->
  with_id i (insert_or_replace id row table) = with_id i table.
Proof.
  intros Hne; unfold with_id, insert_or_replace.
  rewrite filter_app; simpl.
  destruct (String.eqb_spec (id row) i) as [E|_]; [contradiction|].
  rewrite app_nil_r.
  induction table as [|r t IH]; simpl; [reflexivity|].
  destruct (String.eqb_spec (id r) (id row)) as [E | Hr]; simpl.
  - destruct (String.eqb_spec (id r) i) as [E'|_]; [congruence | exact IH].
  - destruct (String.eqb (id r) i); [now rewrite IH | exact IH].
Qed.

Lemma last_opt_cons {A} (x : A) (l : list A) :
  last_opt (x :: l) = match last_opt l with Some y => Some y | None => Some x end.
Proof.
  destruct l as [|y l _] using rev_ind; [reflexivity|].
  now rewrite app_comm_cons, !last_opt_app.
Qed.

Lemma last_opt_None {A} (l : list A) : last_opt l = None -> l = [].
Proof.
  destruct l as [|y l _] using rev_ind; [reflexivity|].
  rewrite last_opt_app; discriminate.
Qed.

Lemma last_with_id_cons (i : string) (r : Thought) (rs : list Thought) :
  last_with_id i (r :: rs)
  = match last_with_id i rs with
    | Some y => Some y
    | None => if String.eqb (id r) i then Some r else None
    end.
Proof.
  unfold last_with_id, with_id; simpl.
  destruct (String.eqb (id r) i).
  - apply last_opt_cons.
  - now destruct (last_opt _).
Qed.

(** X7.  After a sequence of additions the table [thoughts] holds, for each
    id, the last record of the sequence with that id and no other row with
    it; the rows of an id that the sequence does not name are as before. *)
Theorem add_thought_last_write_wins (records : list Thought)
    (self : MemorySystem) (i : string) :
  with_id i (thoughts (add_all self records))
  = match last_with_id i records with
    | Some record => [record]
    | None => with_id i (thoughts self)
    end.
Proof.
  revert self; induction records as [|r rs IH]; intros self; [reflexivity|].
  change (add_all self (r :: rs)) with (add_all (add_thought self r) rs).
  rewrite IH, last_with_id_cons.
  destruct (last_with_id i rs); [reflexivity|].
  destruct (String.eqb_spec (id r) i) as [E | Hne].
  - subst i; apply add_thought_row.
  - now apply with_id_other.
Qed.

End MemoryInvariants.

(** ** MemorySystem.get_golden_thoughts *)

Section GoldenOrder.

Import Py dreaming_ai Spec.
Local Open Scope string_scope.

Lemma golden_before_order (a b : golden_row) :
  golden_before a b = true <-> golden_order a b.
Proof.
  unfold golden_before, golden_order.
  destruct (g_interest_score a ?= g_interest_score b)%Q eqn:E.
  - apply Qeq_alt in E; rewrite Z.leb_le; split.
    + intros H; right; now split.
    + intros [H | [_ H]]; [|exact H].
      rewrite E in H; exfalso; exact (Qlt_irrefl _ H).
  - apply Qlt_alt in E; split; [discriminate|].
    intros [H | [H _]].
    + exfalso; exact (Qlt_irrefl _ (Qlt_trans _ _ _ E H)).
    + rewrite H in E; exfalso; exact (Qlt_irrefl _ E).
  - apply Qgt_alt in E; split; [intros _; now left | reflexivity].
Qed.

Lemma golden_before_total (a b : golden_row) :
  golden_before a b = false -> golden_order b a.
Proof.
  unfold golden_before, golden_order.
  destruct (g_interest_score a ?= g_interest_score b)%Q eqn:E.
  - apply Qeq_alt in E; rewrite Z.leb_gt; intros H.
    right; split; [now symmetry | lia].
  - apply Qlt_alt in E; intros _; now left.
  - discriminate.
Qed.

Lemma golden_order_trans (a b c : golden_row) :
  golden_order a b -> golden_order b c -> golden_order a c.
Proof.
  unfold golden_order; intros [Hab | [Eab Tab]] [Hbc | [Ebc Tbc]].
  - left; eapply Qlt_trans; eassumption.
  - left; now rewrite <- Ebc.
  - left; now rewrite Eab.
  - right; split; [now rewrite Eab | lia].
Qed.

Lemma insert_golden_perm (row : golden_row) (sorted : list golden_row) :
  Permutation (insert_golden row sorted) (row :: sorted).
Proof.
  induction sorted as [|x l IH]; simpl; [reflexivity|].
  destruct (golden_before x row); [|reflexivity].
  rewrite IH; apply perm_swap.
Qed.

Lemma insert_golden_sorted (row : golden_row) (sorted : list golden_row) :
  StronglySorted golden_order sorted ->
  StronglySorted golden_order (insert_golden row sorted).
Proof.
  induction 1 as [|x l Hl IH Hx]; simpl.
  - constructor; constructor.
  - destruct (golden_before x row) eqn:E.
    + constructor; [exact IH|].
      rewrite (insert_golden_perm row l).
      constructor; [now apply golden_before_order | exact Hx].
    + apply golden_before_total in E.
      constructor; [now constructor|].
      constructor; [exact E|].
      eapply Forall_impl; [|exact Hx].
      intros y Hy; eapply golden_order_trans; eassumption.
Qed.

Lemma fold_insert_golden (rows sorted : list golden_row) :
  StronglySorted golden_order sorted ->
  let result := fold_left (fun sorted row => insert_golden row sorted)
                          rows sorted in
  StronglySorted golden_order result /\ Permutation result (sorted ++ rows).
Proof.
  revert sorted; induction rows as [|r rows IH]; intros sorted Hs; simpl.
  - split; [exact Hs | now rewrite app_nil_r].
  - destruct (IH (insert_golden r sorted) (insert_golden_sorted r Hs))
      as [Hsorted Hperm].
    split; [exact Hsorted|].
    rewrite Hperm, insert_golden_perm.
    now rewrite <- Permutation_middle.
Qed.

(** X8.  [get_golden_thoughts] returns every row of the table
    [golden_thoughts] exactly once, best first: a row comes before every row
    with a lower score, and before every row with the same score and an
    earlier time. *)
Theorem get_golden_thoughts_sorted (self : MemorySystem) :
  Permutation (get_golden_thoughts self) (golden_thoughts self) /\
  StronglySorted golden_order (get_golden_thoughts self).
Proof.
  destruct (@fold_insert_golden (golden_thoughts self) []) as [Hs Hp];
    [constructor|].
  split; [exact Hp | exact Hs].
Qed.

End GoldenOrder.

(** ** DreamingAI: a session *)

Section Session.

Import Py dreaming_ai Spec.
Local Open Scope string_scope.

(** [_process_thought] records the processed thought in the session, in the
    buffer and in the table, and writes a golden row for a gold strike. *)
Lemma process_thought_records (self : DreamingAI) (thought : Thought) :
  let self' := _process_thought self thought in
  let memory0 :=
    if is_gold_strike (content thought)
         (calculate_interest_score (content thought))
    then add_golden_thought (memory self) (processed thought)
           "Autonomous discovery during dreaming"
    else memory self in
  thoughts_generated self' = (thoughts_generated self ++ [processed thought])%list /\
  memory self' = add_thought memory0 (processed thought) /\
  is_dreaming self' = is_dreaming self /\
  max_thoughts_per_session self' = max_thoughts_per_session self.
Proof.
  unfold _process_thought, processed; simpl.
  destruct (is_gold_strike _ _); repeat split.
Qed.

(** The ways a pass of the reasoning loop can end. *)
Lemma dream_iteration_cases (self : DreamingAI) (env : dream_env)
    (thought_count : Z) :
  match dream_iteration self env thought_count with
  | Return (self', thought_count') =>
      (self' = self /\ thought_count' = thought_count) \/
      exists text,
        self' = _process_thought self
                  (reasoning_thought self (now_ms env) (now env)
                     thought_count text) /\
        thought_count' = (thought_count + 1)%Z
  | Raise e => is_Exception e = false
  end.
Proof.
  unfold dream_iteration.
  destruct (generate_thought _ _ _ _) as [text | e]; cbn [bind].
  - destruct (truthy text); cbn [try_except_Exception].
    + right; exists text; split; reflexivity.
    + now left.
  - cbn [try_except_Exception].
    destruct (is_Exception e) eqn:E; [now left | exact E].
Qed.

(** What holds at the start of the loop and is kept by each recorded
    thought holds however the loop is left. *)
Lemma dream_while_inv (P : DreamingAI -> Z -> Prop) (fuel : nat)
    (envs : nat -> dream_env) (k : nat) (self : DreamingAI)
    (thought_count : Z) :
  (forall self c ms now text,
     P self c -> (c < max_thoughts_per_session self)%Z ->
     P (_process_thought self (reasoning_thought self ms now c text))
       (c + 1)%Z) ->
  P self thought_count ->
  exists c,
    P (state_of (dream_while fuel envs k self thought_count)) c.
Proof.
  intros Hstep; revert k self thought_count.
  induction fuel as [|fuel IH]; intros k self c HP; cbn [dream_while].
  - destruct (_ && _); exists c; exact HP.
  - destruct (is_dreaming self); cbn [andb]; [|exists c; exact HP].
    destruct (Z.ltb_spec c (max_thoughts_per_session self)) as [Hlt | Hge];
      [|exists c; exact HP].
    pose proof (dream_iteration_cases self (envs k) c) as Hc.
    destruct (dream_iteration self (envs k) c) as [[self' c'] | e];
      [|exists c; exact HP].
    destruct Hc as [[-> ->] | [text [-> ->]]]; apply IH; [exact HP|].
    now apply Hstep.
Qed.

Lemma state_of_start_dreaming (fuel : nat) (seed : string)
    (seed_env : dream_env) (envs : nat -> dream_env) (self : DreamingAI) :
  is_dreaming self = false ->
  let started :=
    mkDreamingAI (max_thoughts_per_session self) (reasoning_engine self)
      (memory self) true [] in
  let left := state_of (_dream_loop fuel seed seed_env envs started) in
  let r := start_dreaming fuel seed seed_env envs self in
  (state_of r = left \/ state_of r = stop_dreaming left) /\
  match r with
  | OutOfFuel _ => True
  | _ => is_dreaming (state_of r) = false
  end.
Proof.
  intros Hidle; unfold start_dreaming; rewrite Hidle; cbn zeta.
  assert (Hstop : forall s, is_dreaming (stop_dreaming s) = false).
  { intros s; unfold stop_dreaming.
    destruct (is_dreaming s) eqn:E; simpl; [reflexivity | exact E]. }
  destruct (_dream_loop fuel seed seed_env envs _) as [s a | e s | s];
    [| destruct e |]; simpl; auto.
Qed.

Lemma stop_dreaming_keeps (self : DreamingAI) :
  thoughts_generated (stop_dreaming self) = thoughts_generated self /\
  memory (stop_dreaming self) = memory self /\
  max_thoughts_per_session (stop_dreaming self) = max_thoughts_per_session self.
Proof. unfold stop_dreaming; destruct (is_dreaming self); repeat split. Qed.

(** X9.  A session started on a dreamer that is not dreaming records the
    seed and then at most as many thoughts as the cap allows: between 1 and
    [max 1 cap] thoughts, whatever the backend answers; and when
    [start_dreaming] returns, or is left by an exception, the dreamer is no
    longer dreaming. *)
Theorem start_dreaming_session (fuel : nat) (seed : string)
    (seed_env : dream_env) (envs : nat -> dream_env) (self : DreamingAI) :
  is_dreaming self = false ->
  let r := start_dreaming fuel seed seed_env envs self in
  (1 <= List.length (thoughts_generated (state_of r))
     <= Z.to_nat (Z.max 1 (max_thoughts_per_session self)))%nat /\
  match r with
  | OutOfFuel _ => True
  | _ => is_dreaming (state_of r) = false
  end.
Proof.
  intros Hidle r.
  destruct (@state_of_start_dreaming fuel seed seed_env envs self Hidle)
    as [Hstate Hstop].
  split; [|exact Hstop].
  set (M := max_thoughts_per_session self).
  pose (P := fun (s : DreamingAI) (c : Z) =>
               max_thoughts_per_session s = M /\
               Z.of_nat (List.length (thoughts_generated s)) = c /\
               (1 <= c <= Z.max 1 M)%Z).
  assert (Hleft : exists c,
            P (state_of (_dream_loop fuel seed seed_env envs
                 (mkDreamingAI M (reasoning_engine self) (memory self)
                    true []))) c).
  { unfold _dream_loop; apply dream_while_inv.
    - intros s c ms now text [Hmax [Hlen Hc]] Hlt.
      destruct (process_thought_records s
                  (reasoning_thought s ms now c text)) as [Hg [_ [_ Hm]]].
      unfold P; rewrite Hg, Hm, length_app; simpl List.length.
      split; [exact Hmax|]; split; lia.
    - destruct (process_thought_records
                  (mkDreamingAI M (reasoning_engine self) (memory self) true [])
                  (mkThought (seed_id (now_ms seed_env)) (now seed_env) seed
                     "seed" None 0%Q [])) as [Hg [_ [_ Hm]]].
      unfold P; rewrite Hg, Hm; simpl; split; [reflexivity|]; split; lia. }
  destruct Hleft as [c [_ [Hlen Hc]]].
  fold M in Hstate; subst r.
  destruct Hstate as [-> | ->];
    [|rewrite (proj1 (stop_dreaming_keeps _))]; lia.
Qed.

Lemma start_dreaming_session_witness :
  let r := start_dreaming 5 "ocean + time" (dream_says "an idea" 0)
             (dream_says "an idea") (idle_dreamer 3) in
  (1 <= List.length (thoughts_generated (state_of r)) <= 3)%nat /\
  is_dreaming (state_of r) = false.
Proof.
  destruct (@start_dreaming_session 5 "ocean + time" (dream_says "an idea" 0)
              (dream_says "an idea") (idle_dreamer 3) eq_refl) as [Hn Hs].
  split; [exact Hn | exact Hs].
Defined.

End Session.

Section SessionLineage.

Import Py dreaming_ai Spec.
Local Open Scope string_scope.

Lemma last_opt_app_nonempty {A} (a b : list A) :
  b <> [] -> last_opt (a ++ b) = last_opt b.
Proof.
  destruct b as [|x b _] using rev_ind; [congruence|]; intros _.
  now rewrite app_assoc, !last_opt_app.
Qed.

Lemma last_opt_lastn {A} (n : nat) (l : list A) :
  (0 < n)%nat -> last_opt (lastn n l) = last_opt l.
Proof.
  intros Hn; destruct l as [|x l]; [reflexivity|].
  unfold lastn.
  set (k := (List.length (x :: l) - n)%nat).
  rewrite <- (@last_opt_app_nonempty _ (firstn k (x :: l)) (skipn k (x :: l))).
  - now rewrite firstn_skipn.
  - intros E; apply (f_equal (@List.length A)) in E.
    rewrite length_skipn in E; subst k.
    assert (0 < List.length (x :: l))%nat by (simpl; lia).
    change (List.length (@nil A)) with 0%nat in E; lia.
Qed.

(** The buffer ends with the thought just added, when it has room for one. *)
Lemma add_thought_last (self : MemorySystem) (thought : Thought) :
  (1 <= max_short_term self)%Z ->
  last_opt (short_term_memory (add_thought self thought)) = Some thought.
Proof.
  intros Hcap; unfold add_thought; simpl.
  rewrite length_app; simpl List.length.
  destruct (Z.gtb_spec (Z.of_nat (List.length (short_term_memory self) + 1))
                       (max_short_term self)) as [Hgt | _];
    [|apply last_opt_app].
  destruct (short_term_memory self) as [|x stm]; simpl in *; [lia|].
  apply last_opt_app.
Qed.

Lemma lineage_app (session : list Thought) (thought : Thought) :
  lineage session ->
  (forall t, last_opt session = Some t -> parent_id thought = Some (id t)) ->
  lineage (session ++ [thought]).
Proof.
  intros Hc Hlast i t1 t2 H1 H2.
  assert (Hi : (S i < List.length (session ++ [thought]))%nat)
    by (apply nth_error_Some; congruence).
  rewrite length_app in Hi; simpl in Hi.
  destruct (Nat.eq_dec (S i) (List.length session)) as [E | Hne].
  - rewrite nth_error_app2, E, Nat.sub_diag in H2 by lia.
    injection H2 as <-.
    destruct session as [|x c _] using rev_ind; [discriminate|].
    rewrite length_app in E; simpl in E.
    rewrite nth_error_app1 in H1 by (rewrite length_app; simpl; lia).
    rewrite nth_error_app2 in H1 by lia.
    replace (i - List.length c)%nat with 0%nat in H1 by lia.
    injection H1 as <-.
    apply Hlast, last_opt_app.
  - rewrite nth_error_app1 in H1, H2 by lia.
    exact (Hc i t1 t2 H1 H2).
Qed.

Lemma process_thought_memory (self : DreamingAI) (thought : Thought) :
  (1 <= max_short_term (memory self))%Z ->
  let self' := _process_thought self thought in
  max_short_term (memory self') = max_short_term (memory self) /\
  last_opt (short_term_memory (memory self')) = Some (processed thought).
Proof.
  intros Hcap self'; subst self'.
  destruct (process_thought_records self thought) as [_ [-> _]].
  destruct (is_gold_strike _ _); simpl max_short_term;
    (split; [reflexivity | now apply add_thought_last]).
Qed.

(** X10.  In a session started on a dreamer that is not dreaming, with a
    buffer of capacity 1 or more, the thoughts form one chain: the first is
    the seed, with the seed text and no parent, and each later thought names
    the id of the thought recorded before it as its parent. *)
Theorem start_dreaming_lineage (fuel : nat) (seed : string)
    (seed_env : dream_env) (envs : nat -> dream_env) (self : DreamingAI) :
  is_dreaming self = false ->
  (1 <= max_short_term (memory self))%Z ->
  let session :=
    thoughts_generated
      (state_of (start_dreaming fuel seed seed_env envs self)) in
  lineage session /\
  exists first rest,
    session = first :: rest /\
    content first = seed /\ parent_id first = None.
Proof.
  intros Hidle Hcap session.
  destruct (@state_of_start_dreaming fuel seed seed_env envs self Hidle)
    as [Hstate _].
  pose (P := fun (s : DreamingAI) (_ : Z) =>
               (1 <= max_short_term (memory s))%Z /\
               lineage (thoughts_generated s) /\
               last_opt (short_term_memory (memory s))
                 = last_opt (thoughts_generated s) /\
               exists first rest,
                 thoughts_generated s = first :: rest /\
                 content first = seed /\ parent_id first = None).
  assert (Hleft : exists c,
            P (state_of (_dream_loop fuel seed seed_env envs
                 (mkDreamingAI (max_thoughts_per_session self)
                    (reasoning_engine self) (memory self) true []))) c).
  { unfold _dream_loop; apply dream_while_inv.
    - intros s c ms now text [Hc [Hlin [Hlast [first [rest [Hg [Hs Hp]]]]]]] _.
      set (t := reasoning_thought s ms now c text).
      destruct (process_thought_records s t) as [Hg' _].
      destruct (process_thought_memory s t Hc) as [Hcap' Hlast'].
      unfold P; rewrite Hg', Hcap', Hlast', last_opt_app.
      split; [exact Hc|]; split; [|split; [reflexivity|]].
      + apply lineage_app; [exact Hlin|].
        intros x Hx; unfold processed, t, reasoning_thought; simpl.
        rewrite get_recent_thoughts_lastn, last_opt_lastn, Hlast, Hx by lia.
        reflexivity.
      + exists first, (rest ++ [processed t])%list; rewrite Hg.
        repeat split; assumption.
    - set (s0 := mkDreamingAI _ _ _ _ _).
      set (t := mkThought _ _ _ _ _ _ _).
      destruct (process_thought_records s0 t) as [Hg' _].
      destruct (process_thought_memory s0 t Hcap) as [Hcap' Hlast'].
      unfold P; rewrite Hg', Hcap', Hlast'; simpl.
      split; [exact Hcap|]; split; [|split; [reflexivity|]].
      + intros i t1 t2 _ H2; destruct i; discriminate.
      + exists (processed t), []; repeat split. }
  destruct Hleft as [c [_ [Hlin [_ Hfirst]]]].
  subst session.
  destruct Hstate as [-> | ->];
    [|rewrite (proj1 (stop_dreaming_keeps _))]; now split.
Qed.

Lemma start_dreaming_lineage_witness :
  let session :=
    thoughts_generated
      (state_of (start_dreaming 5 "ocean + time" (dream_says "an idea" 0)
                   (dream_says "an idea") (idle_dreamer 3))) in
  lineage session /\
  exists first rest,
    session = first :: rest /\
    content first = "ocean + time" /\ parent_id first = None.
Proof.
  apply (@start_dreaming_lineage 5 "ocean + time" (dream_says "an idea" 0)
           (dream_says "an idea") (idle_dreamer 3)).
  - reflexivity.
  - simpl; lia.
Defined.

Lemma add_thought_keeps_golden (self : MemorySystem) (thought : Thought) :
  golden_thoughts (add_thought self thought) = golden_thoughts self.
Proof. reflexivity. Qed.

(** X11.  Every thought of a session started on a dreamer that is not
    dreaming carries the interest score of its text; it is typed
    [gold_strike] exactly when [is_gold_strike] holds of its text and score;
    it has a row with its id in the table [thoughts], and a gold strike has
    one in the table [golden_thoughts] as well. *)
Theorem start_dreaming_records (fuel : nat) (seed : string)
    (seed_env : dream_env) (envs : nat -> dream_env) (self : DreamingAI)
    (thought : Thought) :
  is_dreaming self = false ->
  let left := state_of (start_dreaming fuel seed seed_env envs self) in
  In thought (thoughts_generated left) ->
  interest_score thought = calculate_interest_score (content thought) /\
  (thought_type thought = "gold_strike" <->
   is_gold_strike (content thought) (interest_score thought) = true) /\
  In (id thought) (map id (thoughts (memory left))) /\
  (thought_type thought = "gold_strike" ->
   In (id thought) (map g_id (golden_thoughts (memory left)))).
Proof.
  intros Hidle left Hin.
  destruct (@state_of_start_dreaming fuel seed seed_env envs self Hidle)
    as [Hstate _].
  pose (ok := fun (m : MemorySystem) (t : Thought) =>
                (exists t0, t = processed t0 /\ thought_type t0 <> "gold_strike") /\
                In (id t) (map id (thoughts m)) /\
                (thought_type t = "gold_strike" ->
                 In (id t) (map g_id (golden_thoughts m)))).
  pose (P := fun (s : DreamingAI) (_ : Z) =>
               Forall (ok (memory s)) (thoughts_generated s)).
  assert (Hstep : forall s t,
            thought_type t <> "gold_strike" ->
            Forall (ok (memory s)) (thoughts_generated s) ->
            Forall (ok (memory (_process_thought s t)))
                   (thoughts_generated (_process_thought s t))).
  { intros s t Ht Hs.
    destruct (process_thought_records s t) as [-> [-> _]].
    apply Forall_app; split.
    - eapply Forall_impl; [|exact Hs].
      intros x [Hx [Hrow Hgold]]; split; [exact Hx|]; split.
      + simpl; apply insert_or_replace_keys.
        now destruct (is_gold_strike _ _).
      + intros Hg; specialize (Hgold Hg); rewrite add_thought_keeps_golden.
        destruct (is_gold_strike _ _); [|exact Hgold].
        simpl; now apply insert_or_replace_keys.
    - constructor; [|constructor]; split; [now exists t|]; split.
      + simpl; unfold insert_or_replace; rewrite map_app.
        apply in_or_app; right; now left.
      + rewrite add_thought_keeps_golden; unfold processed; simpl.
        destruct (is_gold_strike _ _) eqn:E; [|intros Hg; contradiction].
        intros _; simpl; unfold insert_or_replace; rewrite map_app.
        apply in_or_app; right; now left. }
  assert (Hleft : exists c,
            P (state_of (_dream_loop fuel seed seed_env envs
                 (mkDreamingAI (max_thoughts_per_session self)
                    (reasoning_engine self) (memory self) true []))) c).
  { unfold _dream_loop; apply dream_while_inv.
    - intros s c ms now text Hs _; apply Hstep; [discriminate | exact Hs].
    - apply Hstep; [discriminate | constructor]. }
  destruct Hleft as [c Hall].
  assert (Hok : ok (memory left) thought).
  { unfold P in Hall; rewrite Forall_forall in Hall; subst left.
    destruct Hstate as [E | E]; rewrite E in Hin |- *.
    - now apply Hall.
    - destruct (stop_dreaming_keeps
                  (state_of (_dream_loop fuel seed seed_env envs
                     (mkDreamingAI (max_thoughts_per_session self)
                        (reasoning_engine self) (memory self) true []))))
        as [Hg [Hm _]].
      rewrite Hm; rewrite Hg in Hin; now apply Hall. }
  destruct Hok as [[t0 [-> Ht0]] [Hrow Hgold]].
  split; [reflexivity|]; split; [|split; assumption].
  unfold processed; simpl.
  destruct (is_gold_strike _ _); split; try reflexivity; try discriminate.
  intros H; contradiction.
Qed.

Lemma start_dreaming_records_witness :
  let left :=
    state_of (start_dreaming 5 "ocean + time" (dream_says "eureka" 0)
                (dream_says "eureka") (idle_dreamer 3)) in
  let thought := processed (reasoning_thought
                   (_process_thought (dreamer 3)
                      (mkThought (seed_id 0) 0 "ocean + time" "seed" None 0%Q []))
                   0 0 1 "eureka") in
  thought_type thought = "gold_strike" /\
  In (id thought) (map g_id (golden_thoughts (memory left))).
Proof.
  destruct (@start_dreaming_records 5 "ocean + time" (dream_says "eureka" 0)
              (dream_says "eureka") (idle_dreamer 3)
              (processed (reasoning_thought
                 (_process_thought (dreamer 3)
                    (mkThought (seed_id 0) 0 "ocean + time" "seed" None 0%Q []))
                 0 0 1 "eureka")) eq_refl)
    as [_ [_ [_ Hgold]]].
  - vm_compute; tauto.
  - split; [reflexivity | apply Hgold; reflexivity].
Defined.

End SessionLineage.

(** ** ConversationEngine: starting conversations and adding agents *)

Section Starting.

Import Py Spec multi_agent_system.
Local Open Scope string_scope.

Lemma mem_set {V} (d : dict V) (k : string) (v : V) : mem (set d k v) k = true.
Proof. unfold mem; now rewrite get_set, String.eqb_refl. Qed.

Lemma mem_set_keeps {V} (d : dict V) (k k' : string) (v : V) :
  mem d k' = true -> mem (set d k v) k' = true.
Proof.
  unfold mem; rewrite get_set; destruct (String.eqb k k'); [reflexivity | tauto].
Qed.

(** Once [start_conversation] was called for an id, the id is known. *)
Lemma start_conversation_mem (self : ConversationEngine) (env : start_env)
    (conversation_id : string) (initial_topic : option string) :
  mem (conversations
         (fst (start_conversation self env conversation_id initial_topic)))
      conversation_id = true.
Proof.
  unfold start_conversation.
  destruct (mem (conversations self) conversation_id) eqn:E; [exact E|].
  match goal with |- context [match ?b with Return _ => _ | Raise _ => _ end] =>
    destruct b end; cbn [fst]; unfold publish; cbn [conversations];
    apply mem_set.
Qed.

(** X12.  [start_conversation] is idempotent: called again for the same id,
    with any topic and at any time, it returns the id and changes nothing,
    so the seed message is not repeated. *)
Theorem start_conversation_idempotent (self : ConversationEngine)
    (env env' : start_env) (conversation_id : string)
    (initial_topic initial_topic' : option string) :
  let started :=
    fst (start_conversation self env conversation_id initial_topic) in
  start_conversation started env' conversation_id initial_topic'
  = (started, Return conversation_id).
Proof.
  intros started; unfold start_conversation at 1.
  subst started; now rewrite start_conversation_mem.
Qed.

Lemma seed_message_returns (env : start_env) (initial_topic : option string) :
  exists seed,
    match initial_topic with
    | Some topic =>
        if truthy topic then Return topic
        else _generate_conversation_seed (draw_seed env)
    | None => _generate_conversation_seed (draw_seed env)
    end = Return seed /\
    match initial_topic with
    | Some (String c topic) => seed = String c topic
    | _ => In seed seeds
    end.
Proof.
  destruct (@choice_nonempty _ (draw_seed env) seeds) as [sd [H Hin]];
    [discriminate|].
  destruct initial_topic as [[|c topic]|]; simpl.
  - now exists sd.
  - now exists (String c topic).
  - now exists sd.
Qed.

Lemma choice_nil {A} (r : nat) : choice r (@nil A) = Raise IndexError.
Proof. unfold choice; now destruct (r mod _)%nat. Qed.

(** X13.  On an engine without agents [start_conversation] raises
    [IndexError] after it has registered the id: the conversation is left
    known and empty, nothing is put on the queue, and a later call for the
    same id, agents added or not, returns without seeding it. *)
Theorem start_conversation_without_agents (self : ConversationEngine)
    (env : start_env) (conversation_id : string)
    (initial_topic : option string) :
  agents self = [] ->
  mem (conversations self) conversation_id = false ->
  let r := start_conversation self env conversation_id initial_topic in
  snd r = Raise IndexError /\
  get (conversations (fst r)) conversation_id = Some [] /\
  message_queue (fst r) = message_queue self /\
  forall agent env' topic',
    start_conversation (add_agent (fst r) agent) env' conversation_id topic'
    = (add_agent (fst r) agent, Return conversation_id).
Proof.
  intros Hagents Hmem r.
  assert (Hr : r = (mkConversationEngine (ollama_url self) (agents self)
                      (set (conversations self) conversation_id [])
                      (message_queue self) (is_running self),
                    Raise IndexError)).
  { subst r; unfold start_conversation; rewrite Hmem.
    destruct (seed_message_returns env initial_topic) as [seed [-> _]].
    cbn [bind]; simpl agents; rewrite Hagents.
    change (values (@nil (string * Agent.t))) with (@nil Agent.t).
    now rewrite choice_nil. }
  rewrite Hr; cbn [fst snd conversations message_queue].
  split; [reflexivity|]; split; [now rewrite get_set, String.eqb_refl|].
  split; [reflexivity|].
  intros agent env' topic'; unfold start_conversation, add_agent.
  cbn [conversations]; now rewrite mem_set.
Qed.

Lemma start_conversation_without_agents_witness :
  let r := start_conversation (ConversationEngine_init "http://localhost:1234")
             (start_at 1000) "c" None in
  snd r = Raise IndexError /\
  get (conversations (fst r)) "c" = Some [] /\
  process_conversation 3 (turns_chat "Hello.")
    (add_agent (fst r) agent_A) "c" 3
  = Finished (state_of (process_conversation 3 (turns_chat "Hello.")
                          (add_agent (fst r) agent_A) "c" 3))
             (Completed 1).
Proof.
  destruct (@start_conversation_without_agents
              (ConversationEngine_init "http://localhost:1234")
              (start_at 1000) "c" None eq_refl eq_refl) as [Hr [Hg _]].
  split; [exact Hr|]; split; [exact Hg | reflexivity].
Defined.

(** X14.  With an agent registered, [start_conversation] for a new id
    returns the id and makes the conversation one seed message: its text is
    the topic when one is given and not empty, else one of the ten canned
    openings; its speaker is a registered agent; it answers no message and
    carries the conversation's id.  The message is added at the end of the
    queue, and the agents and the other conversations are as before. *)
Theorem start_conversation_seeds (self : ConversationEngine) (env : start_env)
    (conversation_id : string) (initial_topic : option string) :
  agents self <> [] ->
  mem (conversations self) conversation_id = false ->
  let r := start_conversation self env conversation_id initial_topic in
  exists seed,
    snd r = Return conversation_id /\
    get (conversations (fst r)) conversation_id = Some [seed] /\
    message_queue (fst r) = (message_queue self ++ [seed])%list /\
    agents (fst r) = agents self /\
    (forall other, other <> conversation_id ->
       get (conversations (fst r)) other = get (conversations self) other) /\
    match initial_topic with
    | Some (String c topic) => AgentMessage.content seed = String c topic
    | _ => In (AgentMessage.content seed) seeds
    end /\
    (exists agent, In agent (values (agents self)) /\
                   AgentMessage.agent_id seed = Agent.id agent) /\
    AgentMessage.response_to seed = None /\
    AgentMessage.conversation_id seed = conversation_id /\
    AgentMessage.id seed = seed_msg_id (start_ms env).
Proof.
  intros Hagents Hmem r; subst r; unfold start_conversation; rewrite Hmem.
  destruct (seed_message_returns env initial_topic) as [seed [-> Hseed]].
  cbn [bind]; simpl agents.
  destruct (@choice_nonempty _ (draw_first env) (values (agents self)))
    as [first_agent [-> Hin]].
  { unfold values; destruct (agents self); [congruence | discriminate]. }
  cbn [bind fst snd]; eexists; split; [reflexivity|].
  unfold publish; cbn [conversations message_queue agents].
  rewrite !get_set, String.eqb_refl; simpl app.
  repeat split.
  - intros other Hne; rewrite !get_set.
    destruct (String.eqb_spec conversation_id other); [congruence | reflexivity].
  - exact Hseed.
  - now exists first_agent.
Qed.

Lemma start_conversation_seeds_witness :
  exists seed,
    get (conversations (started engine_two_agents)) "c" = Some [seed] /\
    AgentMessage.content seed = "ocean + time".
Proof.
  destruct (@start_conversation_seeds engine_two_agents (start_at 1000) "c"
              (Some "ocean + time")) as [seed [_ [Hg [_ [_ [_ [Hc _]]]]]]].
  - discriminate.
  - reflexivity.
  - exists seed; split; [exact Hg | exact Hc].
Defined.

(** X15.  [add_agent] stores the agent under its id: looking the id up gives
    the agent, the other ids give what they gave, and the conversations and
    the queue are untouched.  An id that was registered keeps its place, so
    the number and the order of the agents do not change; a new id comes
    last. *)
Theorem add_agent_registers (self : ConversationEngine) (agent : Agent.t) :
  let self' := add_agent self agent in
  get (agents self') (Agent.id agent) = Some agent /\
  (forall other, other <> Agent.id agent ->
     get (agents self') other = get (agents self) other) /\
  map fst (agents self')
    = (if mem (agents self) (Agent.id agent)
       then map fst (agents self)
       else map fst (agents self) ++ [Agent.id agent])%list /\
  conversations self' = conversations self /\
  message_queue self' = message_queue self.
Proof.
  unfold add_agent; cbn [agents conversations message_queue].
  split; [now rewrite get_set, String.eqb_refl|].
  split.
  { intros other Hne; rewrite get_set.
    destruct (String.eqb_spec (Agent.id agent) other); [congruence | reflexivity]. }
  split; [|now split].
  unfold mem; destruct (get (agents self) (Agent.id agent)) as [a|] eqn:E.
  - apply set_keys_present.
    apply get_In in E; apply in_map_iff; now exists (Agent.id agent, a).
  - apply set_keys_absent; now apply get_None_keys.
Qed.

End Starting.

(** ** ConversationEngine: what the conversations hold *)

Section Conversations.

Import Py Spec multi_agent_system.
Local Open Scope string_scope.

(** A pass that goes on left the engine as it was, or appended a response to
    a conversation that had no message yet. *)
Lemma turn_appends (self self' : ConversationEngine) (env : turn_env)
    (conversation_id : string) (exchanges exchanges' : Z) :
  turn self env conversation_id exchanges
    = Return (Continue self' exchanges') ->
  self' = self \/
  exists key agent text,
    messages self conversation_id = [] /\
    self' = remember
              (publish self conversation_id
                 (AgentMessage.mk (response_msg_id (turn_ms env) exchanges)
                    (turn_now env) (Agent.id agent) text None
                    conversation_id 0%Q))
              key agent
              (AgentMessage.mk (response_msg_id (turn_ms env) exchanges)
                 (turn_now env) (Agent.id agent) text None
                 conversation_id 0%Q).
Proof.
  unfold turn, turn_body; fold (messages self conversation_id).
  set (conv := messages self conversation_id).
  destruct (available_agents self _) as [|a0 rest] eqn:Ea; [discriminate|].
  rewrite <- Ea.
  destruct (choice (draw_next env) (available_agents self _))
    as [[key agent] | e]; cbn [bind snd fst].
  2:{ simpl; destruct (is_Exception e); discriminate. }
  destruct conv as [|m conv'] eqn:Ec.
  - destruct (generate_response self (respond env) agent []) as [text | e];
      cbn [bind].
    2:{ simpl; destruct (is_Exception e); discriminate. }
    destruct (truthy text); simpl; intros [= <- <-]; [|now left].
    right; exists key, agent, text; split; reflexivity.
  - rewrite generate_response_raises by discriminate; discriminate.
Qed.

Lemma messages_publish (self : ConversationEngine) (conversation_id other : string)
    (msg : AgentMessage.t) :
  messages (publish self conversation_id msg) other
  = if String.eqb conversation_id other
    then (messages self conversation_id ++ [msg])%list
    else messages self other.
Proof.
  unfold messages at 1, publish; cbn [conversations]; rewrite get_set.
  destruct (String.eqb conversation_id other); reflexivity.
Qed.

Lemma messages_remember (self : ConversationEngine) (key other : string)
    (agent : Agent.t) (msg : AgentMessage.t) :
  messages (remember self key agent msg) other = messages self other.
Proof. reflexivity. Qed.

(** What holds of an engine and is kept when a first response is appended to
    an empty conversation holds however [process_conversation] is left. *)
Lemma process_conversation_inv (P : ConversationEngine -> Prop) (fuel : nat)
    (envs : nat -> turn_env) (self : ConversationEngine)
    (conversation_id : string) (max_exchanges : Z) :
  (forall s key agent msg,
     P s -> messages s conversation_id = [] ->
     AgentMessage.conversation_id msg = conversation_id ->
     P (remember (publish s conversation_id msg) key agent msg)) ->
  P self ->
  P (state_of (process_conversation fuel envs self conversation_id
                 max_exchanges)).
Proof.
  intros Hstep HP.
  destruct (state_of_process_conversation fuel envs self conversation_id
              max_exchanges) as [-> | ->]; [exact HP|].
  generalize 0%nat as k, 0%Z as exchanges; revert self HP.
  induction fuel as [|fuel IH]; intros self HP k exchanges; cbn [process_while].
  - now destruct (_ <? _)%Z.
  - destruct (_ <? _)%Z; [|exact HP].
    destruct (turn self (envs k) conversation_id exchanges)
      as [[|self' exchanges'] | e] eqn:Hturn; simpl; try exact HP.
    apply IH.
    destruct (turn_appends _ _ _ _ Hturn) as [-> | [key [agent [text [He ->]]]]];
      [exact HP | now apply Hstep].
Qed.

Lemma extends_refl (self : ConversationEngine) : extends self self.
Proof.
  split; [intros cid|]; exists []; now rewrite app_nil_r.
Qed.

Lemma extends_trans (a b c : ConversationEngine) :
  extends a b -> extends b c -> extends a c.
Proof.
  intros [Hab Qab] [Hbc Qbc]; split.
  - intros cid; destruct (Hab cid) as [m1 E1]; destruct (Hbc cid) as [m2 E2].
    exists (m1 ++ m2)%list; now rewrite E2, E1, app_assoc.
  - destruct Qab as [m1 E1]; destruct Qbc as [m2 E2].
    exists (m1 ++ m2)%list; now rewrite E2, E1, app_assoc.
Qed.

Lemma extends_exchange (self : ConversationEngine) (conversation_id key : string)
    (agent : Agent.t) (msg : AgentMessage.t) :
  extends self (remember (publish self conversation_id msg) key agent msg).
Proof.
  split.
  - intros cid; rewrite messages_remember, messages_publish.
    destruct (String.eqb_spec conversation_id cid) as [<-|_].
    + now exists [msg].
    + exists []; now rewrite app_nil_r.
  - now exists [msg].
Qed.

(** X16.  The engine only appends: after [add_agent], [start_conversation]
    or [process_conversation], however it is left, every conversation and
    the queue begin with the messages they had, in the same order. *)
Theorem engine_appends_only (self : ConversationEngine) :
  (forall agent, extends self (add_agent self agent)) /\
  (forall env conversation_id initial_topic,
     extends self
       (fst (start_conversation self env conversation_id initial_topic))) /\
  (forall fuel envs conversation_id max_exchanges,
     extends self
       (state_of (process_conversation fuel envs self conversation_id
                    max_exchanges))).
Proof.
  split.
  { intros agent; split; [intros cid|]; exists []; now rewrite app_nil_r. }
  split.
  - intros env cid topic; unfold start_conversation.
    destruct (mem (conversations self) cid) eqn:Hmem; [apply extends_refl|].
    assert (Hnone : messages self cid = []).
    { unfold messages, mem in *; now destruct (get (conversations self) cid). }
    set (self1 := mkConversationEngine _ _ _ _ _).
    assert (H1 : extends self self1).
    { split; [intros other | exists []; simpl; now rewrite app_nil_r].
      unfold messages, self1; cbn [conversations]; rewrite get_set.
      destruct (String.eqb_spec cid other) as [<-|_].
      - fold (messages self cid); rewrite Hnone; now exists [].
      - exists []; now rewrite app_nil_r. }
    match goal with |- context [match ?b with Return _ => _ | Raise _ => _ end] =>
      destruct b as [msg | e] end; cbn [fst]; [|exact H1].
    apply (extends_trans H1); split.
    + intros other; rewrite messages_publish.
      destruct (String.eqb_spec cid other) as [<-|_].
      * now exists [msg].
      * exists []; now rewrite app_nil_r.
    + now exists [msg].
  - intros fuel envs cid n.
    apply (@process_conversation_inv (extends self)); [|apply extends_refl].
    intros s key agent msg Hs _ _.
    apply (extends_trans Hs), extends_exchange.
Qed.

(** X17.  In every engine a program can build, each message of a
    conversation carries the id of that conversation and was put on the
    queue. *)
Theorem conversation_messages_published (self : ConversationEngine)
    (conversation_id : string) (msg : AgentMessage.t) :
  reachable self ->
  In msg (messages self conversation_id) ->
  AgentMessage.conversation_id msg = conversation_id /\
  In msg (message_queue self).
Proof.
  intros Hreach; revert conversation_id msg.
  induction Hreach as [url | self agent _ IH | self env cid topic _ IH
                      | self fuel envs cid n _ IH].
  - intros c m [].
  - exact IH.
  - unfold start_conversation.
    destruct (mem (conversations self) cid) eqn:Hmem; [exact IH|].
    set (self1 := mkConversationEngine _ _ _ _ _).
    assert (H1 : forall c m, In m (messages self1 c) ->
                   AgentMessage.conversation_id m = c /\
                   In m (message_queue self1)).
    { intros c m; unfold messages, self1; cbn [conversations message_queue].
      rewrite get_set; destruct (String.eqb cid c); [intros [] | apply IH]. }
    assert (Hempty : messages self1 cid = []).
    { unfold messages, self1; cbn [conversations].
      now rewrite get_set, String.eqb_refl. }
    destruct (seed_message_returns env topic) as [seed [-> _]]; cbn [bind].
    destruct (choice _ _) as [first_agent | e]; cbn [bind fst]; [|exact H1].
    intros c m; rewrite messages_publish.
    unfold publish; cbn [message_queue]; rewrite in_app_iff.
    destruct (String.eqb_spec cid c) as [<-|_].
    + rewrite Hempty; intros [<- | []]; split; [reflexivity | right; now left].
    + intros Hm; destruct (H1 c m Hm); split; [assumption | now left].
  - apply (@process_conversation_inv
             (fun s => forall c m, In m (messages s c) ->
                         AgentMessage.conversation_id m = c /\
                         In m (message_queue s))); [|exact IH].
    intros s key agent msg Hs Hempty Hcid c m.
    rewrite messages_remember, messages_publish.
    unfold remember, publish; cbn [message_queue]; rewrite in_app_iff.
    destruct (String.eqb_spec cid c) as [<-|_].
    + rewrite Hempty; intros [<- | []]; split; [exact Hcid | right; now left].
    + intros Hm; destruct (Hs c m Hm); split; [assumption | now left].
Qed.

Lemma conversation_messages_published_witness :
  exists msg,
    In msg (messages (started engine_two_agents) "c") /\
    AgentMessage.conversation_id msg = "c" /\
    In msg (message_queue (started engine_two_agents)).
Proof.
  eexists; split; [left; reflexivity|].
  apply (@conversation_messages_published (started engine_two_agents) "c").
  - repeat constructor.
  - left; reflexivity.
Defined.

(** X18.  In every engine a program can build, a conversation has at most
    one message: its seed, or the one response that an empty conversation
    can get.  No conversation ever gets a second message. *)
Theorem conversation_at_most_one_message (self : ConversationEngine)
    (conversation_id : string) :
  reachable self ->
  (List.length (messages self conversation_id) <= 1)%nat.
Proof.
  intros Hreach; revert conversation_id.
  induction Hreach as [url | self agent _ IH | self env cid topic _ IH
                      | self fuel envs cid n _ IH].
  - intros c; simpl; lia.
  - exact IH.
  - unfold start_conversation.
    destruct (mem (conversations self) cid) eqn:Hmem; [exact IH|].
    set (self1 := mkConversationEngine _ _ _ _ _).
    assert (H1 : forall c, (List.length (messages self1 c) <= 1)%nat).
    { intros c; unfold messages, self1; cbn [conversations].
      rewrite get_set; destruct (String.eqb cid c); [simpl; lia | apply IH]. }
    assert (Hempty : messages self1 cid = []).
    { unfold messages, self1; cbn [conversations].
      now rewrite get_set, String.eqb_refl. }
    match goal with |- context [match ?b with Return _ => _ | Raise _ => _ end] =>
      destruct b as [msg | e] end; cbn [fst]; [|exact H1].
    intros c; rewrite messages_publish.
    destruct (String.eqb cid c); [rewrite Hempty; simpl; lia | apply H1].
  - apply (@process_conversation_inv
             (fun s => forall c, (List.length (messages s c) <= 1)%nat));
      [|exact IH].
    intros s key agent msg Hs Hempty _ c.
    rewrite messages_remember, messages_publish.
    destruct (String.eqb cid c); [rewrite Hempty; simpl; lia | apply Hs].
Qed.

Lemma conversation_at_most_one_message_witness :
  (List.length
     (messages
        (state_of (process_conversation 5 (turns_chat "Hello.")
                     (started engine_two_agents) "c" 5)) "c") <= 1)%nat.
Proof.
  apply (@conversation_at_most_one_message
           (state_of (process_conversation 5 (turns_chat "Hello.")
                        (started engine_two_agents) "c" 5)) "c").
  repeat constructor.
Defined.

End Conversations.

Section FirstResponse.

Import Py Spec multi_agent_system.
Local Open Scope string_scope.

Ltac json_cases :=
  repeat match goal with
         | |- context [json_get ?j _ _] =>
             is_var j; destruct j; cbn [json_get bind try_except_Exception
                                        is_Exception]
         | |- context [json_item0 ?j] =>
             is_var j; destruct j; cbn [json_item0 bind try_except_Exception
                                        is_Exception]
         | |- context [json_strip ?j] =>
             is_var j; destruct j; cbn [json_strip bind try_except_Exception
                                        is_Exception]
         | |- context [match ?l with [] => _ | _ :: _ => _ end] =>
             is_var l; destruct l; cbn [json_item0 bind try_except_Exception
                                        is_Exception]
         | |- context [match ?s with EmptyString => _ | String _ _ => _ end] =>
             is_var s; destruct s; cbn [json_item0 bind try_except_Exception
                                        is_Exception]
         | |- context [json_get (match ?o with Some _ => _ | None => _ end) _ _] =>
             let v := fresh "v" in
             destruct o as [v|]; cbn [json_get bind try_except_Exception
                                       is_Exception]
         | |- context [json_item0 (match ?o with Some _ => _ | None => _ end)] =>
             let v := fresh "v" in
             destruct o as [v|]; cbn [json_item0 bind try_except_Exception
                                       is_Exception]
         | |- context [json_strip (match ?o with Some _ => _ | None => _ end)] =>
             let v := fresh "v" in
             destruct o as [v|]; cbn [json_strip bind try_except_Exception
                                       is_Exception]
         end.

(** X19.  For the first response of a conversation, whatever the backend
    answers, as long as what it raises derives from [Exception],
    [generate_response] returns a text and raises nothing.  A request that
    fails, and an answer with status 200 whose body is not JSON or not an
    object, give one of the six fallback sentences.  An answer with status
    200 whose first choice holds a message with a string content gives that
    string, stripped.  An answer with status 200 and an object in which
    "choices", the "message" of the first choice or the "content" of the
    message is missing gives the empty text of the defaults, which is none
    of the fallback sentences. *)
Theorem generate_response_first (self : ConversationEngine)
    (env : response_env) (agent : Agent.t) :
  raises_Exception_only (backend env) ->
  (exists text, generate_response self env agent [] = Return text) /\
  (failing (backend env) ->
   exists text,
     generate_response self env agent [] = Return text /\ In text fallbacks) /\
  (forall response,
     (forall request, backend env request = Return response) ->
     match json response with
     | Return (JDict _) => False
     | _ => True
     end ->
     exists text,
       generate_response self env agent [] = Return text /\ In text fallbacks) /\
  (forall body choice more message text,
     (forall request,
        backend env request = Return (mkResponse 200 (Return (JDict body)))) ->
     get body "choices" = Some (JList (JDict choice :: more)) ->
     get choice "message" = Some (JDict message) ->
     get message "content" = Some (JStr text) ->
     generate_response self env agent [] = Return (strip text)) /\
  (forall body,
     (forall request,
        backend env request = Return (mkResponse 200 (Return (JDict body)))) ->
     get body "choices" = None \/
     (exists choice more,
        get body "choices" = Some (JList (JDict choice :: more)) /\
        (get choice "message" = None \/
         exists message,
           get choice "message" = Some (JDict message) /\
           get message "content" = None)) ->
     generate_response self env agent [] = Return EmptyString) /\
  ~ In EmptyString fallbacks.
Proof.
  intros Hb; split; [|split; [|split; [|split; [|split]]]].
  - unfold generate_response.
    change (slice_from (-5) (@nil AgentMessage.t)) with (@nil AgentMessage.t).
    cbn [build_context fold_left bind].
    destruct (choice_fallback (draw_fallback env)) as [s [Hs _]].
    unfold _fallback_response; rewrite Hs.
    match goal with |- context [backend env ?req] =>
      specialize (Hb req); destruct (backend env req) as [response | e]
    end; cbn [bind try_except_Exception].
    + destruct (status_code response =? 200)%Z; [|eexists; reflexivity].
      destruct (json response) as [j | e];
        cbn [bind try_except_Exception];
        [|rewrite Hb; eexists; reflexivity].
      destruct j as [| | | |l|d]; cbn [json_get bind try_except_Exception
                                       is_Exception];
        try (eexists; reflexivity).
      json_cases; eexists; reflexivity.
    + rewrite Hb; eexists; reflexivity.
  - intros Hfail.
    destruct (@generate_response_failing self env agent Hfail)
      as [text [Hgen [Hin _]]].
    now exists text.
  - intros response Hanswer Hbody.
    destruct (choice_fallback (draw_fallback env)) as [s [Hs [Hin _]]].
    exists s; split; [|exact Hin].
    unfold generate_response.
    change (slice_from (-5) (@nil AgentMessage.t)) with (@nil AgentMessage.t).
    cbn [build_context fold_left bind].
    unfold _fallback_response; rewrite Hs.
    match goal with |- context [backend env ?req] =>
      specialize (Hb req); rewrite (Hanswer req) in Hb |- *
    end; cbn [bind try_except_Exception].
    destruct (status_code response =? 200)%Z; [|reflexivity].
    destruct (json response) as [j | e]; cbn [bind try_except_Exception];
      [|now rewrite Hb].
    destruct j; cbn [json_get bind try_except_Exception is_Exception];
      solve [reflexivity | destruct Hbody].
  - intros body chosen more message text Hanswer Hc Hm Ht.
    unfold generate_response.
    change (slice_from (-5) (@nil AgentMessage.t)) with (@nil AgentMessage.t).
    cbn [build_context fold_left bind].
    rewrite Hanswer; cbn [bind status_code json json_get Z.eqb Pos.eqb].
    rewrite Hc; cbn [json_item0 bind json_get].
    rewrite Hm; cbn [bind json_get].
    now rewrite Ht.
  - intros body Hanswer Hmissing.
    unfold generate_response.
    change (slice_from (-5) (@nil AgentMessage.t)) with (@nil AgentMessage.t).
    cbn [build_context fold_left bind].
    rewrite Hanswer; cbn [bind status_code json json_get Z.eqb Pos.eqb].
    destruct Hmissing as [Hc | [chosen [more [Hc [Hm | [message [Hm Ht]]]]]]];
      rewrite Hc; cbn [json_item0 bind json_get get];
      try (rewrite Hm; cbn [bind json_get get]);
      try rewrite Ht; reflexivity.
  - unfold fallbacks; cbn [In]; intros H.
    repeat (destruct H as [H | H]; [discriminate H|]); exact H.
Qed.

Lemma generate_response_first_witness :
  generate_response engine_two_agents
    (mkResponseEnv 0.9%Q (backend_chats " Hello there. ") 0) agent_A []
  = Return "Hello there.".
Proof.
  destruct (@generate_response_first engine_two_agents
              (mkResponseEnv 0.9%Q (backend_chats " Hello there. ") 0) agent_A)
    as [_ [_ [_ [H _]]]].
  - intros request; exact I.
  - apply (H [("choices",
                JList [JDict [("message",
                                JDict [("content", JStr " Hello there. ")])]])]
             [("message", JDict [("content", JStr " Hello there. ")])]
             []
             [("content", JStr " Hello there. ")]
             " Hello there. ");
      intros; reflexivity.
Defined.

End FirstResponse.

(** ** Identifiers *)

Section Identifiers.

Import Py Spec.
Local Open Scope string_scope.

Lemma string_of_uint_no_underscore (d : Decimal.uint) :
  has_char "_" (NilEmpty.string_of_uint d) = false.
Proof. induction d; simpl; auto. Qed.

Lemma str_of_int_no_underscore (n : Z) : has_char "_" (str_of_int n) = false.
Proof.
  unfold str_of_int, NilZero.string_of_int, NilZero.string_of_uint.
  destruct (Z.to_int n) as [d | d]; destruct d; simpl;
    auto using string_of_uint_no_underscore.
Qed.

Lemma to_int_not_nil (n : Z) :
  Z.to_int n <> Decimal.Pos Decimal.Nil /\ Z.to_int n <> Decimal.Neg Decimal.Nil.
Proof.
  destruct n as [|p|p]; simpl; split; try discriminate;
    intros [= E]; exact (Unsigned.to_uint_nonnil p E).
Qed.

Lemma str_of_int_inj (n n' : Z) : str_of_int n = str_of_int n' -> n = n'.
Proof.
  unfold str_of_int; intros E.
  destruct (to_int_not_nil n) as [Hp Hn]; destruct (to_int_not_nil n') as [Hp' Hn'].
  pose proof (NilZero.isi (Z.to_int n) Hp Hn) as H.
  pose proof (NilZero.isi (Z.to_int n') Hp' Hn') as H'.
  rewrite E, H' in H; injection H as H.
  now apply to_int_inj.
Qed.

(** Two texts cut at their last underscore. *)
Lemma split_last_underscore (a a' b b' : string) :
  has_char "_" b = false -> has_char "_" b' = false ->
  a ++ "_" ++ b = a' ++ "_" ++ b' -> a = a' /\ b = b'.
Proof.
  intros Hb Hb'; revert a'; induction a as [|c a IH]; intros [|c' a'] E;
    simpl in E.
  - injection E as E; now split.
  - injection E as Ec E; subst b.
    rewrite has_char_app in Hb; simpl in Hb.
    now rewrite orb_true_r in Hb.
  - injection E as Ec E; subst b'.
    rewrite has_char_app in Hb'; simpl in Hb'.
    now rewrite orb_true_r in Hb'.
  - injection E as -> E; destruct (IH a' E) as [-> ->]; now split.
Qed.

Lemma two_parts_inj (stem : string) (n k n' k' : Z) :
  stem ++ str_of_int n ++ "_" ++ str_of_int k
  = stem ++ str_of_int n' ++ "_" ++ str_of_int k' ->
  n = n' /\ k = k'.
Proof.
  intros E.
  assert (E' : (stem ++ str_of_int n) ++ "_" ++ str_of_int k
               = (stem ++ str_of_int n') ++ "_" ++ str_of_int k')
    by (now rewrite !string_app_assoc).
  apply split_last_underscore in E'; try apply str_of_int_no_underscore.
  destruct E' as [Ea Ek]; split; [|now apply str_of_int_inj].
  apply str_of_int_inj.
  revert Ea; clear; induction stem as [|c stem IH]; simpl; [tauto|].
  intros [= E]; auto.
Qed.

Lemma one_part_not_two (stem : string) (n n' k : Z) :
  has_char "_" stem = true ->
  stem ++ str_of_int n <> stem ++ str_of_int n' ++ "_" ++ str_of_int k.
Proof.
  intros _ E.
  assert (E' : str_of_int n = str_of_int n' ++ "_" ++ str_of_int k).
  { revert E; clear; induction stem as [|c stem IH]; simpl; [tauto|].
    intros [= E]; auto. }
  pose proof (str_of_int_no_underscore n) as H.
  rewrite E', has_char_app in H; simpl in H.
  now rewrite orb_true_r in H.
Qed.

(** X20.  An id spells out what it was made of.  Two response ids are equal
    only when they were made at the same millisecond with the same exchange
    counter, and a seed id is never a response id; the same holds of the ids
    of the thoughts of the reasoning loop and their counter. *)
Theorem ids_spell_clock_and_counter :
  (forall ms k ms' k',
     multi_agent_system.response_msg_id ms k
     = multi_agent_system.response_msg_id ms' k' -> ms = ms' /\ k = k') /\
  (forall ms ms' k,
     multi_agent_system.seed_msg_id ms
     <> multi_agent_system.response_msg_id ms' k) /\
  (forall ms k ms' k',
     dreaming_ai.thought_id ms k = dreaming_ai.thought_id ms' k' ->
     ms = ms' /\ k = k') /\
  (forall ms ms' k, dreaming_ai.seed_id ms <> dreaming_ai.thought_id ms' k).
Proof.
  split; [intros ms k ms' k'; apply (two_parts_inj "msg_")|].
  split; [intros ms ms' k; now apply (@one_part_not_two "msg_")|].
  split; [intros ms k ms' k'; apply (two_parts_inj "thought_")|].
  intros ms ms' k; now apply (@one_part_not_two "thought_").
Qed.

End Identifiers.

(** ** AgentPersonalityGenerator *)

Section PersonalityGenerator.

Import Py Spec multi_agent_system.
Local Open Scope string_scope.

Lemma firstn_S_nth {A} (n : nat) (l : list A) (y : A) :
  nth_error l n = Some y -> firstn (S n) l = (firstn n l ++ [y])%list.
Proof.
  revert l; induction n as [|n IH]; intros [|x l] H; try discriminate.
  - now injection H as ->.
  - simpl in H.
    change (x :: firstn (S n) l = x :: (firstn n l ++ [y])%list).
    now rewrite (IH l H).
Qed.

(** One draw: the element drawn and the elements left are the elements
    there were. *)
Lemma sample_step_perm {A} (pool : list A) (j m : nat) (x y : A) :
  nth_error pool j = Some x ->
  nth_error pool (m - 1) = Some y ->
  (j < m)%nat ->
  Permutation (x :: firstn (m - 1) (list_set j y pool)) (firstn m pool).
Proof.
  revert j m; induction pool as [|p ps IH]; intros j m Hx Hy Hj.
  - destruct j; discriminate.
  - destruct m as [|m1]; [lia|].
    replace (S m1 - 1)%nat with m1 in * by lia.
    destruct j as [|j'].
    + injection Hx as ->; cbn [list_set].
      destruct m1 as [|m2]; [reflexivity|].
      simpl in Hy.
      change (Permutation (x :: y :: firstn m2 ps) (x :: firstn (S m2) ps)).
      apply perm_skip.
      rewrite (firstn_S_nth _ _ Hy); apply Permutation_cons_append.
    + destruct m1 as [|m2]; [lia|].
      simpl in Hx, Hy.
      change (Permutation (x :: p :: firstn m2 (list_set j' y ps))
                          (p :: firstn (S m2) ps)).
      rewrite perm_swap; apply perm_skip.
      specialize (IH j' (S m2)).
      replace (S m2 - 1)%nat with m2 in IH by lia.
      apply IH; [assumption | assumption | lia].
Qed.

Lemma list_set_length {A} (j : nat) (y : A) (pool : list A) :
  List.length (list_set j y pool) = List.length pool.
Proof.
  revert j; induction pool as [|p ps IH]; intros [|j]; simpl; auto.
Qed.

(** [random.sample] draws without replacement. *)
Lemma sample_pool_spec {A} (k : nat) (draws : nat -> nat) (i : nat)
    (pool : list A) (m : nat) :
  (k <= m)%nat -> (m <= List.length pool)%nat -> NoDup (firstn m pool) ->
  let r := sample_pool k draws i pool m in
  List.length r = k /\ NoDup r /\ incl r (firstn m pool).
Proof.
  revert i pool m; induction k as [|k IH]; intros i pool m Hk Hm Hnd; simpl.
  - repeat split; [constructor | intros x []].
  - assert (Hj : (draws i mod m < m)%nat) by (apply Nat.mod_upper_bound; lia).
    destruct (nth_error pool (draws i mod m)) as [x|] eqn:Ex.
    2:{ apply nth_error_None in Ex; lia. }
    destruct (nth_error pool (m - 1)) as [y|] eqn:Ey.
    2:{ apply nth_error_None in Ey; lia. }
    pose proof (@sample_step_perm _ pool _ m x y Ex Ey Hj) as Hperm.
    assert (Hnd' : NoDup (x :: firstn (m - 1) (list_set (draws i mod m) y pool))).
    { eapply Permutation_NoDup; [symmetry; exact Hperm | exact Hnd]. }
    inversion Hnd' as [|? ? Hnot Hrest]; subst.
    destruct (IH (S i) (list_set (draws i mod m) y pool) (m - 1)%nat)
      as [Hlen [Hr Hincl]];
      [lia | rewrite list_set_length; lia | exact Hrest|].
    split; [simpl; now rewrite Hlen|]; split.
    + constructor; [|exact Hr]. intros Hin; apply Hnot, Hincl, Hin.
    + intros z [<- | Hz].
      * eapply Permutation_in; [exact Hperm | now left].
      * eapply Permutation_in; [exact Hperm | right; now apply Hincl].
Qed.

Lemma personality_traits_NoDup : NoDup personality_traits.
Proof.
  unfold personality_traits.
  repeat (constructor; [simpl; intuition discriminate|]); constructor.
Qed.

Lemma name_prefix_known (trait : string) :
  In trait personality_traits ->
  exists prefix, get name_prefixes trait = Some prefix.
Proof.
  unfold personality_traits; simpl.
  intros H; repeat (destruct H as [<- | H]; [eexists; reflexivity|]);
    contradiction.
Qed.

(** X21.  [generate_agent] always returns an agent: it has the id and the
    model it was given and an empty message buffer, between two and four
    traits, all different and all of the vocabulary, a style and a focus of
    their lists; and its name is the prefix listed for its first trait (the
    default "Agent" is never used), a hyphen and the last three characters
    of the id. *)
Theorem generate_agent_profile (env : agent_env) (agent_id model : string) :
  exists agent,
    generate_agent env agent_id model = Return agent /\
    Agent.id agent = agent_id /\ Agent.model agent = model /\
    Agent.memory_buffer agent = [] /\
    (2 <= List.length (Agent.personality_traits agent) <= 4)%nat /\
    NoDup (Agent.personality_traits agent) /\
    incl (Agent.personality_traits agent) personality_traits /\
    In (Agent.conversation_style agent) conversation_styles /\
    In (Agent.current_focus agent) focus_areas /\
    exists primary rest prefix,
      Agent.personality_traits agent = primary :: rest /\
      get name_prefixes primary = Some prefix /\
      Agent.name agent = prefix ++ "-" ++ str_slice_from (-3) agent_id.
Proof.
  unfold generate_agent, random_sample.
  set (k := randint (draw_count env) 2 4).
  assert (Hk : (2 <= k <= 4)%nat).
  { subst k; unfold randint.
    pose proof (Nat.mod_upper_bound (draw_count env) (4 - 2 + 1)); lia. }
  assert (Hlen15 : List.length personality_traits = 15%nat) by reflexivity.
  destruct (Nat.leb_spec k (List.length personality_traits)) as [_|H];
    [|rewrite Hlen15 in H; lia].
  destruct (@sample_pool_spec _ k (draw_traits env) 0 personality_traits
              (List.length personality_traits)) as [Hlen [Hnd Hincl]];
    [rewrite Hlen15; lia | lia
    | rewrite firstn_all; apply personality_traits_NoDup |].
  rewrite firstn_all in Hincl.
  set (traits := sample_pool k _ _ _ _) in *.
  cbn [bind].
  destruct (@choice_nonempty _ (draw_style env) conversation_styles)
    as [style [-> Hstyle]]; [discriminate|].
  destruct (@choice_nonempty _ (draw_focus env) focus_areas)
    as [focus [-> Hfocus]]; [discriminate|].
  cbn [bind].
  destruct traits as [|primary rest] eqn:Et; [simpl in Hlen; lia|].
  cbn [bind].
  destruct (name_prefix_known (Hincl primary (or_introl eq_refl)))
    as [prefix Hprefix].
  rewrite Hprefix.
  eexists; split; [reflexivity|].
  cbn [Agent.id Agent.model Agent.memory_buffer Agent.personality_traits
       Agent.conversation_style Agent.current_focus Agent.name].
  cbn [List.length] in Hlen |- *.
  repeat split; try assumption; try lia.
  exists primary, rest, prefix; repeat split; assumption.
Qed.

End PersonalityGenerator.

(** ** MultiAgentSystem._create_agents *)

Section CreateAgents.

Import Py Spec multi_agent_system.
Local Open Scope string_scope.

Lemma new_agent_id_inj (ms ms' : Z) (i i' : nat) :
  new_agent_id ms i = new_agent_id ms' i' -> i = i'.
Proof.
  unfold new_agent_id; intros E.
  apply (two_parts_inj "agent_") in E; lia.
Qed.

Lemma model_for_returns (models : list string) (i : nat) :
  models <> [] -> exists model, model_for models i = Return model.
Proof.
  intros Hne; unfold model_for.
  destruct models as [|m0 ms] eqn:E; [congruence|]; rewrite <- E.
  destruct (nth_error models (i mod List.length models)) as [m|] eqn:En;
    [now exists m|].
  apply nth_error_None in En.
  assert (List.length models <> 0)%nat by (subst; simpl; lia).
  pose proof (Nat.mod_upper_bound i (List.length models)); lia.
Qed.

Lemma insert_or_replace_other {R} (key : R -> string) (row r : R)
    (table : list R) :
  In r table -> key r <> key row ->
  In r (dreaming_ai.insert_or_replace key row table).
Proof.
  intros Hin Hne; unfold dreaming_ai.insert_or_replace.
  apply in_or_app; left; apply filter_In; split; [exact Hin|].
  now apply negb_true_iff, String.eqb_neq.
Qed.

Lemma insert_or_replace_new {R} (key : R -> string) (row : R) (table : list R) :
  In row (dreaming_ai.insert_or_replace key row table).
Proof. unfold dreaming_ai.insert_or_replace; apply in_or_app; right; now left. Qed.

(** The loop from pass [i] on, when the passes before it left their agents. *)
Lemma create_agents_from_spec (envs : nat -> create_env) (count : nat) :
  forall (i : nat) (self : MultiAgentSystem),
    models self <> [] ->
    map fst (agents (conversation_engine self))
      = map (fun j => new_agent_id (create_ms (envs j)) j) (seq 0 i) ->
    (forall j, (j < i)%nat -> created envs self j) ->
    let r := create_agents_from count i envs self in
    snd r = Return tt /\
    map fst (agents (conversation_engine (fst r)))
      = map (fun j => new_agent_id (create_ms (envs j)) j) (seq 0 (i + count)) /\
    forall j, (j < i + count)%nat -> created envs (fst r) j.
Proof.
  induction count as [|count IH]; intros i self Hmodels Hkeys Hdone.
  - simpl; rewrite Nat.add_0_r; now repeat split.
  - cbn [create_agents_from].
    destruct (model_for_returns i Hmodels) as [model Hmodel].
    rewrite Hmodel; cbn [bind].
    destruct (generate_agent_profile (create_agent (envs i))
                (new_agent_id (create_ms (envs i)) i) model)
      as [agent [-> [Hid [Hm _]]]].
    set (self' := mkMultiAgentSystem _ _ _ _).
    assert (Hnew : ~ In (Agent.id agent)
                     (map fst (agents (conversation_engine self)))).
    { rewrite Hkeys, Hid, in_map_iff; intros [j [E Hj]].
      apply new_agent_id_inj in E; apply in_seq in Hj; lia. }
    replace (i + S count)%nat with (S i + count)%nat by lia.
    apply IH.
    + exact Hmodels.
    + subst self'; cbn [conversation_engine]; unfold add_agent; cbn [agents].
      rewrite (@set_keys_absent _ (agents (conversation_engine self))
                 (Agent.id agent) agent Hnew), Hkeys, seq_S, map_app, Hid.
      reflexivity.
    + intros j Hj.
      destruct (Nat.eq_dec j i) as [-> | Hne].
      * exists agent; subst self'.
        cbn [conversation_engine memory models]; unfold add_agent, save_agent.
        cbn [agents agents_table].
        rewrite <- Hid at 1; rewrite get_set, String.eqb_refl.
        split; [reflexivity|]; split; [exact Hid|].
        split; [now rewrite Hmodel, Hm|].
        eexists; split; [apply insert_or_replace_new|].
        cbn [row_id row_model]; now split.
      * destruct (Hdone j ltac:(lia)) as [a [Hget [Ha [Hmj [row [Hrow [Hr Hrm]]]]]]].
        assert (Hdiff : new_agent_id (create_ms (envs j)) j <> Agent.id agent).
        { rewrite Hid; intros E; apply new_agent_id_inj in E; lia. }
        exists a; subst self'.
        cbn [conversation_engine memory models]; unfold add_agent, save_agent.
        cbn [agents agents_table].
        rewrite get_set.
        destruct (String.eqb_spec (Agent.id agent)
                    (new_agent_id (create_ms (envs j)) j)) as [E|_];
          [congruence|].
        repeat split; try assumption.
        exists row; repeat split; try assumption.
        apply insert_or_replace_other; [exact Hrow|].
        cbn [row_id]; congruence.
Qed.

(** X22.  On a new system with at least one model configured,
    [_create_agents] registers [agent_count] agents (none for a count of 0
    or less) under ids that are all different, in the order of the passes:
    the agent of pass [i] has the model [models[i % len(models)]] and a row
    in the table [agents].  With no model configured and a count of 1 or
    more it raises [ZeroDivisionError] and registers nothing. *)
Theorem create_agents_round_robin (envs : nat -> create_env)
    (self : MultiAgentSystem) :
  agents (conversation_engine self) = [] ->
  let n := Z.to_nat (agent_count self) in
  let r := _create_agents envs self in
  (models self <> [] ->
   snd r = Return tt /\
   List.length (agents (conversation_engine (fst r))) = n /\
   NoDup (map fst (agents (conversation_engine (fst r)))) /\
   forall i, (i < n)%nat -> created envs (fst r) i) /\
  (models self = [] -> (n <> 0)%nat ->
   r = (self, Raise (OtherException "ZeroDivisionError"))).
Proof.
  intros Hfresh n r; subst r; unfold _create_agents; fold n; split.
  - intros Hmodels.
    destruct (@create_agents_from_spec envs n 0 self Hmodels) as [Hr [Hkeys Hall]].
    + now rewrite Hfresh.
    + intros j Hj; lia.
    + simpl Nat.add in Hkeys, Hall.
      split; [exact Hr|]; split; [|split; [|exact Hall]].
      * rewrite <- (length_map fst), Hkeys, length_map, length_seq; reflexivity.
      * rewrite Hkeys; apply Injective_map_NoDup; [|apply seq_NoDup].
        intros a b E; now apply new_agent_id_inj in E.
  - intros Hnone Hn.
    destruct n as [|n']; [congruence|].
    cbn [create_agents_from]; now rewrite Hnone.
Qed.

Lemma create_agents_round_robin_witness :
  let r := _create_agents creates (new_system ["gemma2:2b"; "phi3:mini"] 3) in
  snd r = Return tt /\
  map (fun ka => (fst ka, Agent.model (snd ka)))
      (agents (conversation_engine (fst r)))
  = [ ("agent_1000_0", "gemma2:2b"); ("agent_1000_1", "phi3:mini");
      ("agent_1000_2", "gemma2:2b") ].
Proof.
  destruct (@create_agents_round_robin creates
              (new_system ["gemma2:2b"; "phi3:mini"] 3) eq_refl) as [H _].
  destruct (H ltac:(discriminate)) as [Hr _].
  split; [exact Hr | reflexivity].
Defined.

End CreateAgents.

(** ** ThoughtSeeder *)

Section Seeder.

Import Py dreaming_ai Spec.
Local Open Scope string_scope.

Lemma concept_drawn_returns (env : seeder_env) (k : nat) :
  exists c, concept_drawn env k = Return c /\
            In c (abstract_concepts ++ concrete_concepts)%list.
Proof.
  unfold concept_drawn.
  destruct (@choice_nonempty _ (draw_concept env k)
              (abstract_concepts ++ concrete_concepts)%list) as [c [H Hin]];
    [discriminate | now exists c].
Qed.

(** The redraws end with a concept other than the first, or go on as long as
    every draw gives the first concept again. *)
Lemma redraw_spec (fuel : nat) (env : seeder_env) (k : nat)
    (concept1 concept2 : string) :
  In concept2 (abstract_concepts ++ concrete_concepts)%list ->
  match redraw fuel env k concept1 concept2 with
  | Some (Return c) =>
      In c (abstract_concepts ++ concrete_concepts)%list /\ c <> concept1
  | Some (Raise _) => False
  | None =>
      concept2 = concept1 /\
      forall j, (k <= j < k + fuel)%nat -> concept_drawn env j = Return concept1
  end.
Proof.
  revert k concept2; induction fuel as [|fuel IH]; intros k c2 Hin;
    cbn [redraw]; destruct (String.eqb_spec c2 concept1) as [-> | Hne];
    try (split; [exact Hin | exact Hne]).
  - split; [reflexivity | intros j Hj; lia].
  - destruct (concept_drawn_returns env k) as [c [Hc Hcin]].
    unfold concept_drawn in Hc; rewrite Hc.
    specialize (IH (S k) c Hcin).
    destruct (redraw fuel env (S k) concept1 c) as [[c'|e]|];
      [exact IH | exact IH|].
    destruct IH as [-> Hall]; split; [reflexivity|].
    intros j Hj; destruct (Nat.eq_dec j k) as [-> | Hjk];
      [exact Hc | apply Hall; lia].
Qed.

(** X23.  A seed made by combination joins two different concepts of the
    vocabulary with " + ", the first one drawn and the first later draw that
    differs from it.  [generate_seed] raises nothing, and it keeps drawing
    only while every draw gives the first concept again. *)
Theorem generate_seed_combines (fuel : nat) (env : seeder_env) :
  (draw_seed_type env mod 3 = 0)%nat ->
  match generate_seed fuel env with
  | Some (Return seed) =>
      exists concept1 concept2,
        concept_drawn env 0 = Return concept1 /\
        In concept2 (abstract_concepts ++ concrete_concepts)%list /\
        concept2 <> concept1 /\
        seed = concept1 ++ " + " ++ concept2
  | Some (Raise _) => False
  | None =>
      forall j, (1 <= j < 2 + fuel)%nat ->
                concept_drawn env j = concept_drawn env 0
  end.
Proof.
  intros Htype; unfold generate_seed, choice at 1.
  cbn [List.length]; rewrite Htype; cbn [nth_error String.eqb Ascii.eqb
    Bool.eqb].
  change (String.eqb "combination" "combination") with true; cbv iota.
  destruct (concept_drawn_returns env 0) as [c1 [H1 Hin1]].
  destruct (concept_drawn_returns env 1) as [c2 [H2 Hin2]].
  unfold concept_drawn in H1, H2 |- *; rewrite H1, H2.
  pose proof (@redraw_spec fuel env 2 c1 c2 Hin2) as Hr.
  unfold concept_drawn in Hr.
  destruct (redraw fuel env 2 c1 c2) as [[c|e]|].
  - destruct Hr as [Hin Hne]; now exists c1, c.
  - exact Hr.
  - destruct Hr as [-> Hall]; intros j Hj.
    destruct (Nat.eq_dec j 1) as [-> | Hj1]; [exact H2 | apply Hall; lia].
Qed.

Lemma generate_seed_combines_witness :
  generate_seed 5 seeder_repeats = Some (Return "ocean + time").
Proof.
  pose proof (@generate_seed_combines 5 seeder_repeats eq_refl) as H.
  destruct (generate_seed 5 seeder_repeats) as [[seed|e]|] eqn:E;
    [|destruct H | discriminate E].
  vm_compute in E; symmetry; exact E.
Defined.

End Seeder.
